(** * IMSCC downgrader: the manifest repair pipeline of [DowngradeIMSCC_v1.4.2.py]

  A shallow embedding of the functions of the downgrader that keep the
  manifest graph and the payload tree consistent, with the properties the
  specification states about them.

  Conventions of the embedding.
  - A Python [str] is a [string] holding its UTF-8 encoding, so that the
    byte-level functions of [urllib.parse] can be written as they are.
  - An [xml.etree.ElementTree.Element] is a finite tree ([Element]); the
    loops of the source that edit the tree in place while walking a
    snapshot ([list(root.iter())], [list(parent)]) become structural
    recursion over that tree.
  - The extracted package directory is a finite map from relative path to
    file content. *)

From Stdlib Require Import String Ascii NArith.
From stdpp Require Import gmap strings list sorting.

Open Scope string_scope.
Open Scope list_scope.
Open Scope nat_scope.

(** ** Python string helpers *)

Module PyStr.

Definition code (a : ascii) : N := N_of_ascii a.

Definition in_range (lo hi : N) (a : ascii) : bool :=
  ((lo <=? code a) && (code a <=? hi))%N.

Definition is_upper (a : ascii) : bool := in_range 65 90 a.
Definition is_lower (a : ascii) : bool := in_range 97 122 a.
Definition is_digit (a : ascii) : bool := in_range 48 57 a.

(** [c in s] for a single character. *)
Fixpoint mem (c : ascii) (s : string) : bool :=
  match s with
  | EmptyString => false
  | String a r => Ascii.eqb c a || mem c r
  end.

(** [s.startswith(p)] *)
Fixpoint startswith (s p : string) : bool :=
  match p, s with
  | EmptyString, _ => true
  | String a p', String b s' => Ascii.eqb a b && startswith s' p'
  | String _ _, EmptyString => false
  end.

(** [p in s] for strings: some suffix of [s] starts with [p]. *)
Fixpoint contains (s p : string) : bool :=
  startswith s p ||
  match s with
  | EmptyString => false
  | String _ s' => contains s' p
  end.

(** [s.endswith(p)]: [s] is [p], or what follows its first character ends
    with [p]. *)
Fixpoint endswith (s p : string) : bool :=
  String.eqb s p ||
  match s with
  | EmptyString => false
  | String _ s' => endswith s' p
  end.

(** The last character of a string. *)
Fixpoint last_char (s : string) : option ascii :=
  match s with
  | EmptyString => None
  | String a EmptyString => Some a
  | String _ r => last_char r
  end.

(** [s.lower()] on the ASCII letters. The downgrader only compares lowered
    strings with ASCII constants, and no non-ASCII character lowers to an
    ASCII letter of those constants, so the comparisons agree. *)
Definition lower_char (a : ascii) : ascii :=
  if is_upper a then ascii_of_N (code a + 32) else a.

Fixpoint lower (s : string) : string :=
  match s with
  | EmptyString => EmptyString
  | String a r => String (lower_char a) (lower r)
  end.

(** The white space [str.strip] removes, among the ASCII characters: TAB, LF,
    VT, FF, CR, FS, GS, RS, US and SPACE. The white space characters beyond
    ASCII (U+00A0 and the like) are left where they are. *)
Definition is_space (a : ascii) : bool :=
  in_range 9 13 a || in_range 28 32 a.

Fixpoint lstrip (s : string) : string :=
  match s with
  | EmptyString => EmptyString
  | String a r => if is_space a then lstrip r else s
  end.

Fixpoint rstrip (s : string) : string :=
  match s with
  | EmptyString => EmptyString
  | String a r =>
      match rstrip r with
      | EmptyString => if is_space a then EmptyString else String a EmptyString
      | r' => String a r'
      end
  end.

(** [s.strip()] *)
Definition strip (s : string) : string := rstrip (lstrip s).

(** [x or ''] for an optional string. *)
Definition or_empty (o : option string) : string := default EmptyString o.

(** Truthiness of an optional string: present and not empty. *)
Definition truthy (o : option string) : bool :=
  match o with
  | Some (String _ _) => true
  | _ => false
  end.

Definition nonempty (s : string) : bool :=
  match s with
  | EmptyString => false
  | String _ _ => true
  end.

End PyStr.

(** ** [urllib.parse.quote] and [urllib.parse.unquote] *)

Module Url.
Import PyStr.

Definition is_hexdig (a : ascii) : bool :=
  is_digit a || in_range 65 70 a || in_range 97 102 a.

Definition hexval (a : ascii) : N :=
  if is_digit a then code a - 48
  else if in_range 65 70 a then code a - 55
  else code a - 87.

(** Upper-case hexadecimal digit, as ["%{:02X}"] prints it. *)
Definition hexchar (n : N) : ascii :=
  if (n <? 10)%N then ascii_of_N (48 + n) else ascii_of_N (55 + n).

(** [unquote_to_bytes]: the source splits at every percent sign and decodes
    a piece when its first two characters are hexadecimal digits; a piece
    holds no percent sign, so this is a scan from the left. *)
Fixpoint unquote_to_bytes (s : string) : string :=
  match s with
  | EmptyString => EmptyString
  | String c r =>
      if Ascii.eqb c "%" then
        match r with
        | String h (String l r') =>
            if is_hexdig h && is_hexdig l
            then String (ascii_of_N (16 * hexval h + hexval l)) (unquote_to_bytes r')
            else String c (unquote_to_bytes r)
        | _ => String c (unquote_to_bytes r)
        end
      else String c (unquote_to_bytes r)
  end.

(** *** UTF-8 decoding with [errors='replace']

    The decoder of CPython, on the encoding of the result: a well-formed
    sequence is kept, and every maximal ill-formed prefix of a sequence is
    replaced by U+FFFD, that is by the bytes EF BF BD. *)

Definition is_cont (a : ascii) : bool := in_range 128 191 a.

(** Length of the sequence a lead byte announces; 0 for a byte that cannot
    start a sequence. *)
Definition lead (a : ascii) : nat :=
  if (code a <? 128)%N then 1
  else if (code a <? 194)%N then 0
  else if (code a <? 224)%N then 2
  else if (code a <? 240)%N then 3
  else if (code a <? 245)%N then 4
  else 0.

(** The second byte of a three or four byte sequence has a range that
    depends on the lead byte (no overlong form, no surrogate, at most
    U+10FFFF). *)
Definition second_ok (b0 b1 : ascii) : bool :=
  is_cont b1 &&
  negb ((code b0 =? 224)%N && (code b1 <? 160)%N) &&
  negb ((code b0 =? 237)%N && (160 <=? code b1)%N) &&
  negb ((code b0 =? 240)%N && (code b1 <? 144)%N) &&
  negb ((code b0 =? 244)%N && (144 <=? code b1)%N).

Definition fffd (r : string) : string :=
  String (ascii_of_N 239) (String (ascii_of_N 191) (String (ascii_of_N 189) r)).

Fixpoint utf8_replace (s : string) : string :=
  match s with
  | EmptyString => EmptyString
  | String b0 r =>
      match lead b0 with
      | 1 => String b0 (utf8_replace r)
      | 2 =>
          match r with
          | EmptyString => fffd EmptyString
          | String b1 r1 =>
              if is_cont b1 then String b0 (String b1 (utf8_replace r1))
              else fffd (utf8_replace r)
          end
      | 3 =>
          match r with
          | EmptyString => fffd EmptyString
          | String b1 r1 =>
              if second_ok b0 b1 then
                match r1 with
                | EmptyString => fffd EmptyString
                | String b2 r2 =>
                    if is_cont b2
                    then String b0 (String b1 (String b2 (utf8_replace r2)))
                    else fffd (utf8_replace r1)
                end
              else fffd (utf8_replace r)
          end
      | 4 =>
          match r with
          | EmptyString => fffd EmptyString
          | String b1 r1 =>
              if second_ok b0 b1 then
                match r1 with
                | EmptyString => fffd EmptyString
                | String b2 r2 =>
                    if is_cont b2 then
                      match r2 with
                      | EmptyString => fffd EmptyString
                      | String b3 r3 =>
                          if is_cont b3
                          then String b0 (String b1 (String b2 (String b3 (utf8_replace r3))))
                          else fffd (utf8_replace r2)
                      end
                    else fffd (utf8_replace r1)
                end
              else fffd (utf8_replace r)
          end
      | _ => fffd (utf8_replace r)
      end
  end.

(** A string is the encoding of a Python [str] when decoding it loses
    nothing. *)
Definition utf8_wf (s : string) : Prop := utf8_replace s = s.

(** [urllib.parse.unquote(s)]: the percent escapes are decoded to bytes and
    the bytes are read as UTF-8 with replacement. The source returns [s]
    itself when it holds no percent sign; on the encoding of a [str] that
    is what decoding gives ([unquote_fast_path] below). *)
Definition unquote (s : string) : string := utf8_replace (unquote_to_bytes s).

(** [_ALWAYS_SAFE]: letters, digits and ["_.-~"]. *)
Definition always_safe (a : ascii) : bool :=
  is_upper a || is_lower a || is_digit a || mem a "_.-~".

Definition quote_byte (safe : string) (a : ascii) (r : string) : string :=
  if always_safe a || ((code a <? 128)%N && mem a safe) then String a r
  else String "%" (String (hexchar (code a / 16)) (String (hexchar (code a mod 16)) r)).

(** [urllib.parse.quote(s, safe)] *)
Fixpoint quote (safe : string) (s : string) : string :=
  match s with
  | EmptyString => EmptyString
  | String a r => quote_byte safe a (quote safe r)
  end.

End Url.

(** [canonicalize_href]: decode, then encode again with the safe set
  ["/-_.~"]. *)
Definition canonicalize_href (h : string) : string :=
Url.quote "/-_.~" (Url.unquote h).


(** ** [xml.etree.ElementTree] *)

Module ET.
Import PyStr.

(** An element: tag (with its namespace in braces), attributes, text and
    children. The tail text is not read by the downgrader. *)
#[local] Unset Elimination Schemes.
Inductive Element : Type :=
  Elem (tag : string) (attrib : list (string * string))
       (text : option string) (children : list Element).
#[local] Set Elimination Schemes.

Definition tag (e : Element) : string := let 'Elem t _ _ _ := e in t.
Definition attrib (e : Element) : list (string * string) := let 'Elem _ a _ _ := e in a.
Definition text (e : Element) : option string := let 'Elem _ _ x _ := e in x.
Definition children (e : Element) : list Element := let 'Elem _ _ _ c := e in c.

Definition set_children (e : Element) (cs : list Element) : Element :=
  Elem (tag e) (attrib e) (text e) cs.

Definition set_text (e : Element) (x : string) : Element :=
  Elem (tag e) (attrib e) (Some x) (children e).

(** Induction over the tree, with the hypothesis for every child. *)
Fixpoint Element_tree_ind (P : Element → Prop)
    (step : ∀ t a x cs, Forall P cs → P (Elem t a x cs)) (e : Element) : P e :=
  match e with
  | Elem t a x cs =>
      step t a x cs
        ((fix all (l : list Element) : Forall P l :=
            match l with
            | [] => @List.Forall_nil _ P
            | c :: r => @List.Forall_cons _ P c r (Element_tree_ind P step c) (all r)
            end) cs)
  end.

(** [e.get(k)] *)
Fixpoint dict_get (k : string) (a : list (string * string)) : option string :=
  match a with
  | [] => None
  | (k', v) :: r => if String.eqb k k' then Some v else dict_get k r
  end.

Definition get (e : Element) (k : string) : option string := dict_get k (attrib e).

(** [e.set(k, v)]: the value of an existing key is replaced in place, a new
    key is added at the end. *)
Fixpoint dict_set (k v : string) (a : list (string * string)) : list (string * string) :=
  match a with
  | [] => [(k, v)]
  | (k', v') :: r => if String.eqb k k' then (k, v) :: r else (k', v') :: dict_set k v r
  end.

Definition set (e : Element) (k v : string) : Element :=
  Elem (tag e) (dict_set k v (attrib e)) (text e) (children e).

(** [e.iter()]: the element and its descendants, in document order. *)
Fixpoint iter (e : Element) : list Element :=
  match e with
  | Elem _ _ _ cs => e :: flat_map iter cs
  end.

(** The proper descendants, in document order: what [.//] ranges over. *)
Definition descendants (e : Element) : list Element := flat_map iter (children e).

(** The path step [{*}name]: the tag is [name], or ends with [}name]. *)
Definition matches (name : string) (e : Element) : bool :=
  String.eqb (tag e) name || endswith (tag e) (String "}" name).

(** [e.findall('{*}name')] and [e.find('{*}name')] *)
Definition findall_child (name : string) (e : Element) : list Element :=
  List.filter (matches name) (children e).

Definition find_child (name : string) (e : Element) : option Element :=
  head (findall_child name e).

(** [e.findall('.//{*}name')] and [e.find('.//{*}name')] *)
Definition findall_desc (name : string) (e : Element) : list Element :=
  List.filter (matches name) (descendants e).

Definition find_desc (name : string) (e : Element) : option Element :=
  head (findall_desc name e).

(** The part of a string after its first, respectively last, closing brace;
    the whole string when it has none. *)
Fixpoint after_first_brace (s : string) : option string :=
  match s with
  | EmptyString => None
  | String a r => if Ascii.eqb a "}" then Some r else after_first_brace r
  end.

Fixpoint after_last_brace (s : string) : option string :=
  match s with
  | EmptyString => None
  | String a r =>
      match after_last_brace r with
      | Some t => Some t
      | None => if Ascii.eqb a "}" then Some r else None
      end
  end.

(** [tag.split('}', 1)[-1] if tag.startswith('{') else tag] *)
Definition localname (t : string) : string :=
  if startswith t "{" then default t (after_first_brace t) else t.

(** [tag.rsplit('}', 1)[-1]] *)
Definition rsplit_localname (t : string) : string :=
  default t (after_last_brace t).

(** Apply [f] to the first child that satisfies [p], if there is one. *)
Fixpoint update_first (p : Element → bool) (f : Element → Element)
    (l : list Element) : list Element :=
  match l with
  | [] => []
  | c :: r => if p c then f c :: r else c :: update_first p f r
  end.

(** Apply [f] to the first proper descendant, in document order, that
    satisfies [p]; [None] when there is none. [scan_first] looks at a child,
    then below it, then at the children that follow. *)
Definition scan_first (p : Element → bool) (f : Element → Element)
    (below : Element → option Element) : list Element → option (list Element) :=
  fix scan (l : list Element) : option (list Element) :=
    match l with
    | [] => None
    | c :: r =>
        if p c then Some (f c :: r)
        else match below c with
             | Some c' => Some (c' :: r)
             | None => option_map (cons c) (scan r)
             end
    end.

Fixpoint update_first_desc (p : Element → bool) (f : Element → Element)
    (e : Element) : option Element :=
  match e with
  | Elem t a x cs => option_map (Elem t a x) (scan_first p f (update_first_desc p f) cs)
  end.

(** Apply [f] to every proper descendant that satisfies [p], the deeper
    ones first. *)
Fixpoint update_all (p : Element → bool) (f : Element → Element)
    (e : Element) : Element :=
  match e with
  | Elem t a x cs =>
      let cs' := map (update_all p f) cs in
      Elem t a x (map (λ c, if p c then f c else c) cs')
  end.

(** The children that satisfy [keep], each rewritten by [f]: the shape of a
    loop [for child in list(parent)] that removes some children and goes on
    into the others. *)
Definition retain {A B : Type} (keep : A → bool) (f : A → B) : list A → list B :=
  fix each (l : list A) : list B :=
    match l with
    | [] => []
    | child :: rest => if keep child then f child :: each rest else each rest
    end.

(** Rewrite every element of a list in turn, passing a state along. *)
Definition thread {S : Type} (f : Element → S → Element * S) :
    list Element → S → list Element * S :=
  fix each (l : list Element) (n : S) : list Element * S :=
    match l with
    | [] => ([], n)
    | c :: rest =>
        let '(c', n1) := f c n in
        let '(rest', n2) := each rest n1 in
        (c' :: rest', n2)
    end.

End ET.

(** ** Cascading removal in the manifest *)

Abbreviation Element := ET.Element.
Abbreviation Elem := ET.Elem.

(** [e.get(k) in ids] *)
Definition ref_in (ids : gset string) (e : Element) (k : string) : bool :=
  match ET.get e k with
  | Some r => bool_decide (r ∈ ids)
  | None => false
  end.

(** The test of [remove_items_referring_to]:
    [child.tag.endswith('item') and child.get('identifierref') in removed_ids]. *)
Definition is_removed_item (removed_ids : gset string) (child : Element) : bool :=
  PyStr.endswith (ET.tag child) "item" && ref_in removed_ids child "identifierref".

(** [remove_items_referring_to]: every element of [list(root.iter())] loses
    the children that pass the test. An element that was detached is still
    visited, but is no longer part of the tree; what remains is the tree in
    which every remaining element has lost those children. *)
Fixpoint remove_items_referring_to (removed_ids : gset string) (e : Element) : Element :=
  match e with
  | Elem t a x cs =>
      Elem t a x
        (ET.retain (λ child, negb (is_removed_item removed_ids child))
                   (remove_items_referring_to removed_ids) cs)
  end.

Definition is_removed_dependency (removed_ids : gset string) (dep : Element) : bool :=
  ET.matches "dependency" dep && ref_in removed_ids dep "identifierref".

(** The loops of [remove_dependencies_referring_to] at one element and below
    it: an element that is a [resource] loses its [dependency] children that
    name a removed identifier. *)
Fixpoint prune_dependencies (removed_ids : gset string) (e : Element) : Element :=
  match e with
  | Elem t a x cs =>
      Elem t a x
        (ET.retain (λ dep, negb (ET.matches "resource" e &&
                                 is_removed_dependency removed_ids dep))
                   (prune_dependencies removed_ids) cs)
  end.

(** [remove_dependencies_referring_to]: the loop runs over
    [root.findall('.//{*}resource')], the proper descendants of the root. *)
Definition remove_dependencies_referring_to (removed_ids : gset string) (root : Element) : Element :=
  ET.set_children root (map (prune_dependencies removed_ids) (ET.children root)).

(** Step 8 of [process_cartridge]. *)
Definition remove_references (removed_any : gset string) (root : Element) : Element :=
  if bool_decide (removed_any = ∅) then root
  else remove_dependencies_referring_to removed_any
         (remove_items_referring_to removed_any root).

(** *** The removal pass of [drop_resources_by_kind] *)

(** [(res.get('identifier') or '') in to_remove_ids] for a [resource] child. *)
Definition is_removed_resource (to_remove_ids : gset string) (res : Element) : bool :=
  ET.matches "resource" res &&
  bool_decide (PyStr.or_empty (ET.get res "identifier") ∈ to_remove_ids).

(** Delete the named resources from [resources_parent], the first
    [resources] element below the root. *)
Definition delete_from (to_remove_ids : gset string) (resources_parent : Element) : Element :=
  ET.set_children resources_parent
    (List.filter (λ res, negb (is_removed_resource to_remove_ids res))
                 (ET.children resources_parent)).

Definition delete_resources (to_remove_ids : gset string) (root : Element) : option Element :=
  ET.update_first_desc (ET.matches "resources") (delete_from to_remove_ids) root.

(** Prune the items inside organizations: for every [organization] below the
    root, every element of [org.iter()] loses its removed item children.
    [inside] tells whether an ancestor is such an organization. *)
Fixpoint prune_organization_items (to_remove_ids : gset string) (inside : bool)
    (e : Element) : Element :=
  match e with
  | Elem t a x cs =>
      let here := inside || ET.matches "organization" e in
      Elem t a x
        (ET.retain (λ child, negb (here && is_removed_item to_remove_ids child))
                   (prune_organization_items to_remove_ids here) cs)
  end.

Definition prune_items_in_organizations (to_remove_ids : gset string) (root : Element) : Element :=
  ET.set_children root
    (map (prune_organization_items to_remove_ids false) (ET.children root)).

(** The second half of [drop_resources_by_kind], from the set of identifiers
    to remove: nothing happens without a [resources] element or with an
    empty set. *)
Definition drop_resources (to_remove_ids : gset string) (root : Element) : Element :=
  match delete_resources to_remove_ids root with
  | None => root
  | Some root1 =>
      if bool_decide (to_remove_ids = ∅) then root
      else remove_dependencies_referring_to to_remove_ids
             (prune_items_in_organizations to_remove_ids root1)
  end.

(** The first half: [hit] stands for the chain of kind tests, which read the
    payload files; a resource without identifier is recorded as ['UNKNOWN']. *)
Definition ids_to_remove (hit : Element → bool) (root : Element) : gset string :=
  match ET.find_desc "resources" root with
  | None => ∅
  | Some resources_parent =>
      list_to_set
        (map (λ res, match ET.get res "identifier" with
                     | Some (String c r) => String c r
                     | _ => "UNKNOWN"
                     end)
             (List.filter hit (ET.findall_child "resource" resources_parent)))
  end.

Definition drop_resources_by_kind (hit : Element → bool) (root : Element) : Element :=
  drop_resources (ids_to_remove hit root) root.

(** The shape of a manifest that [drop_resources_by_kind] relies on: the
    first [resources] element of the document, when there is one, is a child
    of the root. [root.find('.//{*}resources')] takes the first element of
    that name wherever it is; in a manifest it is the [resources] child of
    the root, which no pass removes. *)
Fixpoint resources_at_top_level (cs : list Element) : bool :=
  match cs with
  | [] => true
  | c :: r =>
      ET.matches "resources" c ||
      (negb (existsb (ET.matches "resources") (ET.iter c)) && resources_at_top_level r)
  end.

(** ** Pruning items that reference a missing resource *)

(** Identifiers of the resources of the manifest. *)
Definition valid_res_ids (root : Element) : gset string :=
  list_to_set
    (omap (λ r, match ET.get r "identifier" with
                | Some (String c s) => Some (String c s)
                | _ => None
                end)
          (ET.findall_desc "resource" root)).

Definition is_item (e : Element) : bool :=
  String.eqb (ET.rsplit_localname (ET.tag e)) "item".

Definition item_ref (e : Element) : string :=
  PyStr.strip (PyStr.or_empty (ET.get e "identifierref")).

Definition has_item_child (e : Element) : bool := existsb is_item (ET.children e).

(** The body of the loop [for child in list(parent_el)] of
    [prune_item_children], with the two counters
    [(removed_items, removed_empty_items)] passed along; [prune] is the
    recursive call. *)
Definition prune_each (valid : gset string)
    (prune : Element → nat * nat → Element * (nat * nat)) :
    list Element → nat * nat → list Element * (nat * nat) :=
  fix each (l : list Element) (n : nat * nat) : list Element * (nat * nat) :=
    match l with
    | [] => ([], n)
    | child :: rest =>
        if is_item child then
          (* Recurse before deciding to keep or remove this child *)
          let '(child', n1) := prune child n in
          let ref := item_ref child' in
          let has_children := has_item_child child' in
          if PyStr.nonempty ref && negb (bool_decide (ref ∈ valid)) then
            each rest (S n1.1, n1.2)
          else if negb (PyStr.nonempty ref) && negb has_children then
            each rest (n1.1, S n1.2)
          else
            let '(rest', n2) := each rest n1 in (child' :: rest', n2)
        else
          let '(rest', n2) := each rest n in (child :: rest', n2)
    end.

(** [prune_item_children(parent_el)] *)
Fixpoint prune_item_children (valid : gset string) (parent_el : Element)
    (n : nat * nat) : Element * (nat * nat) :=
  match parent_el with
  | Elem t a x cs =>
      let '(cs', n') := prune_each valid (prune_item_children valid) cs n in
      (Elem t a x cs', n')
  end.

(** The loop [for org in root.findall(".//{*}organization")] at one element
    and below it; [top] marks the root, which the path [.//] leaves out. An
    organization is no item, so the items an outer organization decides
    about are not those of an organization nested in it, and the order in
    which nested organizations are pruned does not matter; here the inner
    ones come first. *)
Fixpoint prune_organizations (valid : gset string) (top : bool) (e : Element)
    (n : nat * nat) : Element * (nat * nat) :=
  match e with
  | Elem t a x cs =>
      let '(cs', n') := ET.thread (prune_organizations valid false) cs n in
      if negb top && ET.matches "organization" e
      then prune_item_children valid (Elem t a x cs') n'
      else (Elem t a x cs', n')
  end.

(** [prune_items_with_missing_resources(tree)] *)
Definition prune_items_with_missing_resources (root : Element) : Element * (nat * nat) :=
  prune_organizations (valid_res_ids root) true root (0, 0).

(** The items of an organization: the item children of an element, and
    their item children, and so on. *)
Fixpoint chain_items (e : Element) : list Element :=
  match e with
  | Elem _ _ _ cs =>
      flat_map (λ c, if is_item c then c :: chain_items c else []) cs
  end.

(** An item names a resource of the manifest, or names none and has an item
    child. *)
Definition item_ok (valid : gset string) (item : Element) : Prop :=
  (PyStr.nonempty (item_ref item) = true ∧ item_ref item ∈ valid) ∨
  (item_ref item = EmptyString ∧ has_item_child item = true).

(** ** The true/false normalizer of QTI 1.2 items *)

(** The three counters of [ChangeLog] that the normalizer writes. *)
Record ChangeLog : Type := mkLog {
  tf_fixed : nat;
  tf_mc_fallback : nat;
  tf_skipped : nat
}.

Definition is_tf_word (s : string) : bool := String.eqb s "true" || String.eqb s "false".

(** [{a, b} == {'true', 'false'}] *)
Definition is_tf_pair (a b : string) : bool :=
  (String.eqb a "true" && String.eqb b "false") ||
  (String.eqb a "false" && String.eqb b "true").

(** [(e.text or '').strip()] *)
Definition text_stripped (e : Element) : string :=
  PyStr.strip (PyStr.or_empty (ET.text e)).

(** [mattext_lower(el)] *)
Definition mattext_lower (el : Element) : string :=
  match ET.find_desc "mattext" el with
  | Some mt => if PyStr.truthy (ET.text mt) then PyStr.lower (text_stripped mt) else ""
  | None => ""
  end.

(** The test of one [qtimetadatafield] in [_qmd_value]. *)
Definition field_has_label (label : string) (f : Element) : option Element :=
  match ET.find_child "fieldlabel" f, ET.find_child "fieldentry" f with
  | Some l, Some v => if String.eqb (text_stripped l) label then Some v else None
  | _, _ => None
  end.

(** [_qmd_value(root, label)] *)
Definition qmd_value (root : Element) (label : string) : option string :=
  head (omap (λ f, text_stripped <$> field_has_label label f)
             (ET.findall_desc "qtimetadatafield" root)).

Definition qtype (item : Element) : string :=
  PyStr.lower (PyStr.strip (PyStr.or_empty (qmd_value item "question_type"))).

(** [rl = item.find('.//{*}response_lid')] and
    [labels = rl.findall('{*}response_label') if rl is not None else []] *)
Definition response_lid (item : Element) : option Element :=
  ET.find_desc "response_lid" item.

Definition labels_of (item : Element) : list Element :=
  match response_lid item with
  | Some rl => ET.findall_child "response_label" rl
  | None => []
  end.

Definition looks_tf (item : Element) : bool :=
  match response_lid item, labels_of item with
  | Some _, l0 :: l1 :: _ =>
      is_tf_word (mattext_lower l0) || is_tf_word (mattext_lower l1)
  | _, _ => false
  end.

Definition is_tf (item : Element) : bool :=
  String.eqb (qtype item) "true_false_question" || looks_tf item.

(** [item.findall('.//{*}respcondition/{*}conditionvar/{*}varequal')] *)
Definition varequals (item : Element) : list Element :=
  flat_map (λ rc, flat_map (ET.findall_child "varequal")
                           (ET.findall_child "conditionvar" rc))
           (ET.findall_desc "respcondition" item).

(** The first answer-key reference that is not blank. *)
Definition correct_ident (item : Element) : option string :=
  head (List.filter PyStr.nonempty (map text_stripped (varequals item))).

(** The [mapping] dictionary of the map step. *)
Definition answer_mapping (id1 id2 t1 t2 : string) (correct : option string) :
    gmap string string :=
  match correct with
  | Some c =>
      if String.eqb c id1 || String.eqb c id2 then
        <[(if String.eqb c id2 then id1 else id2) := "false"]> (<[c := "true"]> ∅)
      else if is_tf_pair t1 t2 then <[id2 := t2]> (<[id1 := t1]> ∅)
      else <[id2 := "false"]> (<[id1 := "true"]> ∅)
  | None =>
      if is_tf_pair t1 t2 then <[id2 := t2]> (<[id1 := t1]> ∅)
      else <[id2 := "false"]> (<[id1 := "true"]> ∅)
  end.

(** The text an answer-key reference gets in the loop that follows the map
    step. *)
Definition retarget (mapping : gmap string string) (val : string) : string :=
  match mapping !! val with
  | Some m => m
  | None => if is_tf_word (PyStr.lower val) then PyStr.lower val else "false"
  end.

(** Rewrite the [response_label] children of a [response_lid]: [f i l] is
    what becomes of the label of index [i], [None] when it is removed. *)
Fixpoint map_labels (f : nat → Element → option Element) (i : nat)
    (cs : list Element) : list Element :=
  match cs with
  | [] => []
  | c :: r =>
      if ET.matches "response_label" c then
        match f i c with
        | Some c' => c' :: map_labels f (S i) r
        | None => map_labels f (S i) r
        end
      else c :: map_labels f i r
  end.

(** Apply [f] to the labels of the item, in place. *)
Definition with_labels (f : nat → Element → option Element) (item : Element) : Element :=
  default item
    (ET.update_first_desc (ET.matches "response_lid")
       (λ rl, ET.set_children rl (map_labels f 0 (ET.children rl))) item).

(** Apply [f] to every answer-key reference of the item, in place. *)
Definition with_varequals (f : Element → Element) (item : Element) : Element :=
  ET.update_all (ET.matches "respcondition")
    (λ rc, ET.set_children rc
       (map (λ cv, if ET.matches "conditionvar" cv
                   then ET.set_children cv
                          (map (λ ve, if ET.matches "varequal" ve then f ve else ve)
                               (ET.children cv))
                   else cv)
            (ET.children rc)))
    item.

(** The loop over the answer-key references that follows the map step. *)
Definition retarget_varequals (mapping : gmap string string) (item : Element) : Element :=
  with_varequals (λ ve, ET.set_text ve (retarget mapping (text_stripped ve))) item.

(** [drop_other(item)]: in every [respcondition], the first [conditionvar]
    loses its [other] children. *)
Definition drop_other (item : Element) : Element :=
  ET.update_all (ET.matches "respcondition")
    (λ rc, ET.set_children rc
       (ET.update_first (ET.matches "conditionvar")
          (λ cv, ET.set_children cv
                   (List.filter (λ o, negb (ET.matches "other" o)) (ET.children cv)))
          (ET.children rc)))
    item.

Definition has_other (item : Element) : bool :=
  existsb (λ rc, match ET.find_child "conditionvar" rc with
                 | Some cv => existsb (ET.matches "other") (ET.children cv)
                 | None => false
                 end)
          (ET.findall_desc "respcondition" item).

(** The fallback: the entry of every [question_type] metadata field becomes
    [multiple_choice_question]. *)
Definition set_multiple_choice (item : Element) : Element :=
  ET.update_all (ET.matches "qtimetadatafield")
    (λ f, match field_has_label "question_type" f with
          | Some _ =>
              ET.set_children f
                (ET.update_first (ET.matches "fieldentry")
                   (λ ent, ET.set_text ent "multiple_choice_question")
                   (ET.children f))
          | None => f
          end)
    item.

(** Index of the first label whose text is [w]. *)
Fixpoint index_of_text (w : string) (i : nat) (labels : list Element) : option nat :=
  match labels with
  | [] => None
  | l :: r => if String.eqb (mattext_lower l) w then Some i else index_of_text w (S i) r
  end.

(** [keep], as the indices of the two labels that stay: the first label
    that reads true and the first that reads false, else the first two. *)
Definition keep_indices (labels : list Element) : nat * nat :=
  match index_of_text "true" 0 labels, index_of_text "false" 0 labels with
  | Some i, Some j => (i, j)
  | _, _ => (0, 1)
  end.

(** What happens to an item; [Normalize item' swapped changed] goes on to the
    part of the loop body under [# now exactly two], where [l1] is the
    second label of the document when [swapped]. *)
Inductive Shape : Type :=
  | Fallback
  | Skipped
  | Normalize (item' : Element) (swapped : bool) (removed : bool).

(** The shape test of the loop body. *)
Definition validate_shape (fallback_tf_to_mc : bool) (item : Element) : Shape :=
  let labels := labels_of item in
  match response_lid item with
  | Some _ =>
      if Nat.eqb (length labels) 2 then Normalize item false false
      else if fallback_tf_to_mc then Fallback
      else if Nat.ltb 2 (length labels) then
        (* collapse to two (prefer true/false text) *)
        let '(i, j) := keep_indices labels in
        Normalize
          (with_labels (λ k l, if Nat.eqb k i || Nat.eqb k j then Some l else None) item)
          (Nat.ltb j i) true
      else Skipped
  | None => if fallback_tf_to_mc then Fallback else Skipped
  end.

Definition ident_of (l : Element) : string := PyStr.or_empty (ET.get l "ident").

(** The label of index [i] among the labels of the item. *)
Definition label_at (i : nat) (item : Element) : Element :=
  nth i (labels_of item) (Elem "" [] None []).

(** The part of the loop body under [# now exactly two]. *)
Definition normalize_item (item : Element) (swapped : bool) : Element * bool :=
  let i1 := if swapped then 1 else 0 in
  let i2 := if swapped then 0 else 1 in
  let l1 := label_at i1 item in
  let l2 := label_at i2 item in
  let id1 := ident_of l1 in
  let id2 := ident_of l2 in
  let t1 := mattext_lower l1 in
  let t2 := mattext_lower l2 in
  let mapping := answer_mapping id1 id2 t1 t2 (correct_ident item) in
  let m1 := default "" (mapping !! id1) in
  let m2 := default "" (mapping !! id2) in
  let changed_idents :=
    negb (bool_decide (ET.get l1 "ident" = Some m1)) ||
    negb (bool_decide (ET.get l2 "ident" = Some m2)) in
  let item2 :=
    with_labels (λ k l, if Nat.eqb k i1 then Some (ET.set l "ident" m1)
                        else if Nat.eqb k i2 then Some (ET.set l "ident" m2)
                        else Some l) item in
  let changed_refs :=
    existsb (λ ve, negb (bool_decide
                           (ET.text ve = Some (retarget mapping (text_stripped ve)))))
            (varequals item2) in
  let item3 := retarget_varequals mapping item2 in
  (* ensure only two labels and canonical idents *)
  let extra := Nat.ltb 2 (length (labels_of item3)) in
  let item4 := with_labels (λ k l, if Nat.ltb k 2 then Some l else None) item3 in
  let canonical :=
    is_tf_pair (PyStr.lower (ident_of (label_at i1 item4)))
               (PyStr.lower (ident_of (label_at i2 item4))) in
  let item5 :=
    if canonical then item4
    else
      with_varequals
        (λ ve, ET.set_text ve
                 (if String.eqb (PyStr.lower (text_stripped ve)) "true"
                  then "true" else "false"))
        (with_labels (λ k l, if Nat.eqb k i1 then Some (ET.set l "ident" "true")
                             else if Nat.eqb k i2 then Some (ET.set l "ident" "false")
                             else Some l) item4) in
  (drop_other item5,
   changed_idents || changed_refs || extra || negb canonical || has_other item5).

(** One turn of the loop [for item in root.findall('.//{*}item')]. *)
Definition fix_item (fallback_tf_to_mc : bool) (item : Element)
    (st : ChangeLog * bool) : Element * (ChangeLog * bool) :=
  let '(log, changed_any) := st in
  if negb (is_tf item) then (item, st)
  else
    match validate_shape fallback_tf_to_mc item with
    | Fallback =>
        (drop_other (set_multiple_choice item),
         (mkLog (tf_fixed log) (S (tf_mc_fallback log)) (tf_skipped log), true))
    | Skipped =>
        (item, (mkLog (tf_fixed log) (tf_mc_fallback log) (S (tf_skipped log)), changed_any))
    | Normalize item1 swapped removed =>
        let '(item', changed) := normalize_item item1 swapped in
        (item', (mkLog (S (tf_fixed log)) (tf_mc_fallback log) (tf_skipped log),
                 changed_any || removed || changed))
    end.

(** The root test of [fix_qti_true_false_in_place] and of
    [_has_bad_tf_idents]. *)
Definition is_questestinterop (root : Element) : bool :=
  String.eqb (ET.localname (ET.tag root)) "questestinterop".

(** [fix_qti_true_false_in_place], on a parsed file. The items of a QTI 1.2
    document are disjoint subtrees, each visited once: the result is the list
    of the items as the loop leaves them, the log, and [changed_any]. *)
Definition fix_qti_true_false_in_place (fallback_tf_to_mc : bool) (root : Element)
    (log : ChangeLog) : list Element * (ChangeLog * bool) :=
  if is_questestinterop root
  then ET.thread (fix_item fallback_tf_to_mc) (ET.findall_desc "item" root) (log, false)
  else (ET.findall_desc "item" root, (log, false)).

(** The test of one item in [_has_bad_tf_idents]. *)
Definition is_bad_tf_item (item : Element) : bool :=
  let labels := labels_of item in
  let declared := String.eqb (qtype item) "true_false_question" in
  let is_tf :=
    declared ||
    match response_lid item, labels with
    | Some _, [l0; l1] =>
        is_tf_pair
          (match ET.find_desc "mattext" l0 with
           | Some mt => PyStr.lower (text_stripped mt) | None => "" end)
          (match ET.find_desc "mattext" l1 with
           | Some mt => PyStr.lower (text_stripped mt) | None => "" end)
    | _, _ => false
    end in
  is_tf &&
  match response_lid item, labels with
  | Some _, [l0; l1] =>
      negb (is_tf_pair (PyStr.lower (ident_of l0)) (PyStr.lower (ident_of l1))) ||
      existsb (λ ve, negb (is_tf_word (PyStr.lower (text_stripped ve)))) (varequals item)
  | _, _ => true
  end.

(** [_has_bad_tf_idents], on a parsed file. *)
Definition has_bad_tf_idents (root : Element) : bool :=
  is_questestinterop root && existsb is_bad_tf_item (ET.findall_desc "item" root).

(** [assert_no_bad_tf_idents], on the parsed XML files of the package, each
    with its path: the paths of the offenders when it raises. *)
Definition assert_no_bad_tf_idents (files : list (string * Element)) : list string + unit :=
  match List.filter (λ f, has_bad_tf_idents f.2) files with
  | [] => inr tt
  | offenders => inl (map fst offenders)
  end.

(** The items the normalizer detects as true/false candidates in a file. *)
Definition detected (root : Element) : list Element :=
  if is_questestinterop root then List.filter is_tf (ET.findall_desc "item" root) else [].

Definition total (log : ChangeLog) : nat :=
  tf_fixed log + tf_mc_fallback log + tf_skipped log.

(** Exactly one of the three counters went up by one, the others are as
    they were. *)
Definition exactly_one_counter (log log' : ChangeLog) : Prop :=
  log' = mkLog (S (tf_fixed log)) (tf_mc_fallback log) (tf_skipped log) ∨
  log' = mkLog (tf_fixed log) (S (tf_mc_fallback log)) (tf_skipped log) ∨
  log' = mkLog (tf_fixed log) (tf_mc_fallback log) (S (tf_skipped log)).

(** Sample items. [tf_item labels refs] declares a true/false question with
    the given choices [(ident, text)] and answer-key references. *)
Definition qti_label (ident txt : string) : Element :=
  Elem "response_label" [("ident", ident)] None
    [Elem "material" [] None [Elem "mattext" [] (Some txt) []]].

Definition qti_metadata (question_type : string) : Element :=
  Elem "itemmetadata" [] None
    [Elem "qtimetadata" [] None
       [Elem "qtimetadatafield" [] None
          [Elem "fieldlabel" [] (Some "question_type") [];
           Elem "fieldentry" [] (Some question_type) []]]].

Definition qti_resprocessing (refs : list string) : Element :=
  Elem "resprocessing" [] None
    (map (λ r, Elem "respcondition" [] None
                 [Elem "conditionvar" [] None [Elem "varequal" [] (Some r) []]])
         refs).

Definition tf_item (labels : list (string * string)) (refs : list string) : Element :=
  Elem "item" [("ident", "q1")] None
    [qti_metadata "true_false_question";
     Elem "presentation" [] None
       [Elem "response_lid" [("ident", "response1")] None
          (map (λ l, qti_label l.1 l.2) labels)];
     qti_resprocessing refs].

(** The map step as the specification words it: when the correct identifier
    is a canonical word it maps to ['true'] and the other identifier to
    ['false'], else when the literal texts are the two canonical words each
    identifier maps to its own text, else the first maps to ['true'] and the
    second to ['false']. *)
Definition map_step_as_specified (id1 id2 t1 t2 : string) (correct : option string)
    (mapping : gmap string string) : Prop :=
  if is_tf_word (PyStr.or_empty correct) then
    ∀ c, correct = Some c →
         mapping !! c = Some "true" ∧
         ∀ o, o = id1 ∨ o = id2 → o ≠ c → mapping !! o = Some "false"
  else if is_tf_pair t1 t2 then mapping !! id1 = Some t1 ∧ mapping !! id2 = Some t2
  else mapping !! id1 = Some "true" ∧ mapping !! id2 = Some "false".

(** ** The payload tree and its repair *)

(** The extracted package: relative path to file content. Directories are
    not modelled; a path exists when it is a key. *)
Abbreviation Files := (gmap string string).

Definition exists_file (files : Files) (p : string) : bool := bool_decide (is_Some (files !! p)).

(** [(res.get("href") or "").strip()] *)
Definition href_of (e : Element) : string :=
  PyStr.strip (PyStr.or_empty (ET.get e "href")).

Definition placeholder_missing_target (enc : string) : string :=
  "<html><body><p>Auto-generated placeholder for missing target: <code>" +:+ enc +:+
  "</code></p></body></html>".

Definition placeholder_missing_asset (dec : string) : string :=
  "<html><body><p>Auto-generated placeholder for missing asset: <code>" +:+ dec +:+
  "</code></p></body></html>".

(** The payload half of one turn of the loop of [normalize_resource_hrefs]:
    when nothing is at the encoded path, the first candidate that exists is
    copied there, and a placeholder is written when there is none. The
    second component tells whether a file was created. *)
Definition ensure_encoded (files : Files) (res : Element) : Files * bool :=
  let href := href_of res in
  if negb (PyStr.nonempty href) then (files, false)
  else
    let enc := canonicalize_href href in
    if exists_file files enc then (files, false)
    else
      let candidates := [Url.unquote href; href; Url.unquote enc] in
      match omap (λ src, files !! src) candidates with
      | content :: _ => (<[enc := content]> files, true)
      | [] => (<[enc := placeholder_missing_target enc]> files, true)
      end.

Definition cp_file_tag : string := "{http://www.imsglobal.org/xsd/imscp_v1p1}file".

(** Keep the first [file] child, and the others whose reference is [enc]. *)
Fixpoint drop_extra_files (enc : string) (first : bool) (cs : list Element) : list Element :=
  match cs with
  | [] => []
  | c :: r =>
      if ET.matches "file" c then
        if first || String.eqb (href_of c) enc
        then c :: drop_extra_files enc false r
        else drop_extra_files enc false r
      else c :: drop_extra_files enc first r
  end.

(** The manifest half of one turn: the reference of the resource and of its
    first [file] child become the encoded reference, a [file] child is added
    when there is none, and the other [file] children that do not agree are
    removed. *)
Definition align_resource (res : Element) : Element :=
  let href := href_of res in
  if negb (PyStr.nonempty href) then res
  else
    let enc := canonicalize_href href in
    let res1 := if String.eqb enc href then res else ET.set res "href" enc in
    let cs :=
      match ET.find_child "file" res1 with
      | Some _ => ET.update_first (ET.matches "file") (λ f, ET.set f "href" enc)
                    (ET.children res1)
      | None => ET.children res1 ++ [Elem cp_file_tag [("href", enc)] None []]
      end in
    ET.set_children res1 (drop_extra_files enc true cs).

(** [normalize_resource_hrefs(tree, tmp)]. The loop runs over the snapshot
    [root.findall(".//{*}resource")]; a turn changes the attributes and the
    [file] children of its resource and the payload, and reads of another
    resource only what no turn changes, so the manifest and the payload can
    be followed apart. The counters are [(changed_href, created_files)]. *)
Definition normalize_resource_hrefs (root : Element) (files : Files) :
    Element * Files * (nat * nat) :=
  let resources := ET.findall_desc "resource" root in
  let changed_href :=
    length (List.filter (λ res, PyStr.nonempty (href_of res) &&
                                negb (String.eqb (canonicalize_href (href_of res)) (href_of res)))
                        resources) in
  let '(files', created_files) :=
    fold_left (λ acc res, let '(fs, created) := ensure_encoded acc.1 res in
                          (fs, if created then S acc.2 else acc.2))
              resources (files, 0) in
  (ET.update_all (ET.matches "resource") align_resource root, files',
   (changed_href, created_files)).

(** The references [enforce_decoded_payload] walks: of the resources and of
    their [file] children, the empty ones left out. *)
Definition referenced_hrefs (root : Element) : list string :=
  List.filter PyStr.nonempty
    (flat_map (λ res, href_of res :: map href_of (ET.findall_child "file" res))
              (ET.findall_desc "resource" root)).

(** The order of [sorted(hrefs)]: by code point, which on the UTF-8
    encodings is the order of the bytes. *)
Definition str_le (a b : string) : Prop := String.leb a b = true.

#[global] Instance str_le_dec : RelDecision str_le :=
  λ a b, decide (String.leb a b = true).

Definition sorted_hrefs (root : Element) : list string :=
  merge_sort str_le (elements (list_to_set (referenced_hrefs root) : gset string)).

(** One turn of the loop of [enforce_decoded_payload], with the counters
    [(moved, removed, created)]. The second case does not ask whether the
    encoded and the decoded path differ. *)
Definition enforce_one (acc : Files * (nat * nat * nat)) (h : string) :
    Files * (nat * nat * nat) :=
  let '(files, (moved, removed, created)) := acc in
  let enc := canonicalize_href (PyStr.strip h) in
  let dec := Url.unquote enc in
  match files !! enc, files !! dec with
  | Some content, None =>
      (* Case 1: encoded exists, decoded missing -> move encoded -> decoded *)
      (<[dec := content]> (delete enc files), (S moved, removed, created))
  | Some _, Some _ =>
      (* Case 2: both exist -> delete the encoded duplicate *)
      (delete enc files, (moved, S removed, created))
  | None, None =>
      (* Case 3: neither exists -> create placeholder at decoded *)
      (<[dec := placeholder_missing_asset dec]> files, (moved, removed, S created))
  | None, Some _ => acc
  end.

(** [enforce_decoded_payload(tree, tmp)] *)
Definition enforce_decoded_payload (root : Element) (files : Files) :
    Files * (nat * nat * nat) :=
  fold_left enforce_one (sorted_hrefs root) (files, (0, 0, 0)).

(** One turn of the loop of [dedupe_keep_decoded], at the path [rel]. *)
Definition dedupe_one (acc : Files * nat) (rel : string) : Files * nat :=
  let '(files, removed) := acc in
  if negb (exists_file files rel) then acc
  else
    let enc := canonicalize_href rel in
    let dec := Url.unquote enc in
    if negb (String.eqb enc dec) && exists_file files enc && exists_file files dec
    then (delete enc files, S removed)
    else acc.

(** [dedupe_keep_decoded(root)]; [walk] is the snapshot [list(root.rglob("*"))],
    in the order the file system gives. *)
Definition dedupe_keep_decoded (walk : list string) (files : Files) : Files * nat :=
  fold_left dedupe_one walk (files, 0).

(** ** [process_cartridge] *)

Inductive Error : Type :=
  | FileNotFoundError (msg : string)
  | ParseError (msg : string)
  | SyntaxError (msg : string)
  | ValueError (msg : string) (detail : list string)
  | OtherError (msg : string).

(** A call that returns or raises. *)
Definition Exc (A : Type) : Type := Error + A.

Definition bind_exc {A B : Type} (m : Exc A) (k : A → Exc B) : Exc B :=
  match m with
  | inl e => inl e
  | inr a => k a
  end.

Notation "'do' x <- m ; k" := (bind_exc m (λ x, k))
  (at level 10, x pattern, m at level 100, k at level 200).

(** An archive, as the files it holds: extraction and packing are a
    read-directory and write-directory service outside the downgrader. *)
Record Archive : Type := mkArchive {
  archive_name : string;
  members : Files
}.

(** The file [process_cartridge] writes: its directory, and the archive. *)
Record Output : Type := mkOutput {
  out_dir : string;
  out_archive : Archive
}.

(** The parts of the run that are not modelled: the XML parser and writer,
    the order of a directory walk, and the passes of [process_cartridge] none
    of the properties below depends on. *)
Record Externals : Type := mkExternals {
  (** [ET.fromstring]; [None] when it raises *)
  parse_xml : string → option Element;
  (** [tree.write] and [ET.tostring] of the tree *)
  serialize : Element → string;
  (** [ET.tostring] of a QTI file whose items are as the normalizer left them *)
  serialize_items : Element → list Element → string;
  (** the order of [root.rglob("*")] *)
  walk : Files → list string;
  (** the kind tests of [drop_resources_by_kind], which read the payload *)
  kind_hit : gset string → Files → Element → bool;
  (** steps 3 to 7: curriculum standards, intended use, assignment and LTI
      resources; the tree and [removed_any] *)
  remove_unsupported : Element → Files → Exc (Element * gset string);
  (** steps 9 to 12: resource types, variants, version and namespaces, QTI
      references, empty assessments, HTML-like resources, descriptors *)
  downgrade_manifest : string → Element → Files → Exc (Element * Files);
  (** step 13C, the final audit of the targets *)
  final_audit : string → Element → Files → Exc (Element * Files);
  (** [input_zip.stem + '-cc11.imscc'] *)
  cc11_name : string → string
}.

(** [save_manifest(tree, manifest_path)] *)
Definition save_manifest (X : Externals) (manifest_path : string) (tree : Element)
    (files : Files) : Files :=
  <[manifest_path := serialize X tree]> files.

(** Steps 13E and 14a: the manifest and the payload that are packed. *)
Definition repair_payload (X : Externals) (manifest_path : string) (root : Element)
    (files : Files) : Element * Files :=
  let '(root1, files1, (href_updates, copies)) := normalize_resource_hrefs root files in
  let '(files2, (moved, removed, created)) := enforce_decoded_payload root1 files1 in
  let files3 :=
    if Nat.eqb (href_updates + copies + moved + removed + created) 0 then files2
    else save_manifest X manifest_path root1 files2 in
  (root1, (dedupe_keep_decoded (walk X files3) files3).1).

(** *** The marker verifier *)

Definition forbidden_markers : list string :=
  ["imsccv1p3"; "imscp_extensionv1p2"; "ccv1p3"].

(** The alternative of the pattern that matches at the start of [s], the
    first in the order of the pattern. *)
Definition match_marker (s : string) : option string :=
  List.find (PyStr.startswith s) forbidden_markers.

(** [re.findall(r'imsccv1p3|imscp_extensionv1p2|ccv1p3', text)]: the matches
    from the left, none overlapping another; [skip] counts the characters of
    the last match still to pass. *)
Fixpoint findall_markers (skip : nat) (text : string) : list string :=
  match text with
  | EmptyString => []
  | String _ rest =>
      match skip with
      | S k => findall_markers k rest
      | O =>
          match match_marker text with
          | Some m => m :: findall_markers (String.length m - 1) rest
          | None => findall_markers 0 rest
          end
      end
  end.

(** [assert_no_v13_v12_uris(manifest_text)] *)
Definition assert_no_v13_v12_uris (manifest_text : string) : Exc unit :=
  match findall_markers 0 manifest_text with
  | [] => inr tt
  | bad => inl (ValueError "Leftover v1p3/v1p2 markers found" bad)
  end.

(** *** The pass-through test *)

(** [manifest_cc_version(tree)] *)
Definition manifest_cc_version (root : Element) : option string :=
  head (omap (λ sv, if PyStr.truthy (ET.text sv) then Some (text_stripped sv) else None)
             (ET.findall_desc "schemaversion" root)).

Definition is_cc_1_0_or_1_1 (ver : option string) : bool :=
  match ver with
  | Some v => PyStr.nonempty v && (PyStr.startswith v "1.0" || PyStr.startswith v "1.1")
  | None => false
  end.

Definition is_non_cc_qti (href : string) : bool :=
  PyStr.startswith href "non_cc_assessments/" && PyStr.endswith href ".xml.qti".

(** [root.find(f".//{{*}}resource[@identifier='{ref}']")]: the path is
    malformed, and [find] raises, when [ref] holds an apostrophe. *)
Definition find_resource (root : Element) (ref : string) : Exc (option Element) :=
  if PyStr.mem "'" ref then inl (SyntaxError "invalid predicate")
  else inr (head (List.filter (λ r, bool_decide (ET.get r "identifier" = Some ref))
                              (ET.findall_desc "resource" root))).

(** The second loop of [detect_canvas_qti_artifacts]: the references of the
    resources that the dependencies name and that are Canvas QTI files. *)
Fixpoint dependency_reasons (root : Element) (deps : list Element) : Exc (list string) :=
  match deps with
  | [] => inr []
  | dep :: rest =>
      match ET.get dep "identifierref" with
      | Some (String c r) =>
          do found <- find_resource root (String c r);
          do more <- dependency_reasons root rest;
          inr (match found with
               | Some res =>
                   let href := PyStr.or_empty (ET.get res "href") in
                   if is_non_cc_qti href then href :: more else more
               | None => more
               end)
      | _ => dependency_reasons root rest
      end
  end.

(** [detect_canvas_qti_artifacts]: [should_force], on the manifest that
    [process_cartridge] has just parsed. *)
Definition detect_canvas_qti_artifacts (root : Element) (extracted : Files) : Exc bool :=
  let file_hrefs := map (λ f, PyStr.or_empty (ET.get f "href")) (ET.findall_desc "file" root) in
  let reasons1 := List.filter is_non_cc_qti file_hrefs in
  do reasons2 <- dependency_reasons root (ET.findall_desc "dependency" root);
  let standard := List.filter (λ h, PyStr.endswith h "/assessment_qti.xml") file_hrefs in
  let qti_files := reasons1 ++ reasons2 ++ standard in
  let uniq := List.filter (exists_file extracted) qti_files in
  inr (negb (Nat.eqb (length (reasons1 ++ reasons2)) 0) || negb (Nat.eqb (length uniq) 0)).

(** *** The conversion *)

(** The manifest of the package: at the top, else the first one the walk
    finds. *)
Definition locate_manifest (X : Externals) (tmp : Files) : Exc string :=
  if exists_file tmp "imsmanifest.xml" then inr "imsmanifest.xml"
  else
    match List.filter (λ p, PyStr.endswith p "/imsmanifest.xml") (walk X tmp) with
    | p :: _ => inr p
    | [] => inl (FileNotFoundError "imsmanifest.xml not found in package")
    end.

(** [load_manifest(manifest_path)] *)
Definition load_manifest (X : Externals) (tmp : Files) (manifest_path : string) : Exc Element :=
  match tmp !! manifest_path with
  | Some txt =>
      match parse_xml X txt with
      | Some tree => inr tree
      | None => inl (ParseError manifest_path)
      end
  | None => inl (FileNotFoundError manifest_path)
  end.

(** The name of a path: what follows its last slash. *)
Fixpoint after_last_slash (s : string) : option string :=
  match s with
  | EmptyString => None
  | String a r =>
      match after_last_slash r with
      | Some t => Some t
      | None => if Ascii.eqb a "/" then Some r else None
      end
  end.

Definition basename (p : string) : string := default p (after_last_slash p).

(** The files of [root_folder.rglob('*.xml')] that are not the manifest. *)
Definition xml_payloads (X : Externals) (files : Files) : list string :=
  List.filter (λ p, PyStr.endswith (basename p) ".xml" &&
                    negb (String.eqb (PyStr.lower (basename p)) "imsmanifest.xml"))
              (walk X files).

(** One turn of the loop of [normalize_true_false_qti]: a file that cannot be
    read as XML is left alone, a file whose items changed is written back. *)
Definition normalize_file (X : Externals) (fallback_tf_to_mc : bool)
    (acc : Files * ChangeLog) (path : string) : Files * ChangeLog :=
  match acc.1 !! path with
  | Some txt =>
      match parse_xml X txt with
      | Some root =>
          let '(items', (log', changed_any)) :=
            fix_qti_true_false_in_place fallback_tf_to_mc root acc.2 in
          (if changed_any then <[path := serialize_items X root items']> acc.1 else acc.1,
           log')
      | None => acc
      end
  | None => acc
  end.

(** [normalize_true_false_qti(root_folder, fallback_tf_to_mc, log)] *)
Definition normalize_true_false_qti (X : Externals) (fallback_tf_to_mc : bool)
    (files : Files) (log : ChangeLog) : Files * ChangeLog :=
  fold_left (normalize_file X fallback_tf_to_mc) (xml_payloads X files) (files, log).

(** The XML files that parse, with their paths. *)
Definition parsed_payloads (X : Externals) (files : Files) : list (string * Element) :=
  omap (λ p, match files !! p with
             | Some txt => (λ root, (p, root)) <$> parse_xml X txt
             | None => None
             end)
       (xml_payloads X files).

(** The state of a run: the manifest tree, the extracted files, the log. *)
Record Package : Type := mkPackage {
  tree : Element;
  files : Files;
  log : ChangeLog
}.

(** Steps 3 to 13A: everything before the marker verifier. *)
Definition convert_until_verifier (X : Externals) (manifest_path : string)
    (tree0 : Element) (tmp : Files) (tf_to_mc_fallback : bool)
    (exclude_kinds : gset string) : Exc Package :=
  do (tree1, removed_any) <- remove_unsupported X tree0 tmp;
  (* 7b) Optional: drop entire activity kinds instead of converting *)
  let hit := kind_hit X exclude_kinds tmp in
  let dropping :=
    negb (bool_decide (exclude_kinds = ∅)) &&
    negb (bool_decide (ids_to_remove hit tree1 = ∅)) in
  let tree2 :=
    if bool_decide (exclude_kinds = ∅) then tree1 else drop_resources_by_kind hit tree1 in
  let tmp2 := if dropping then save_manifest X manifest_path tree2 tmp else tmp in
  (* 8) Remove items and dependencies referring to deleted resources *)
  let tree3 := remove_references removed_any tree2 in
  do (tree4, tmp4) <- downgrade_manifest X manifest_path tree3 tmp2;
  (* 12b) Normalize QTI T/F idents *)
  let '(tmp5, log5) :=
    normalize_true_false_qti X tf_to_mc_fallback tmp4 (mkLog 0 0 0) in
  (* 12c) abort if anything is still off *)
  match assert_no_bad_tf_idents (parsed_payloads X tmp5) with
  | inl offenders => inl (ValueError "Unfixed TF items remain" offenders)
  | inr _ => inr (mkPackage tree4 tmp5 log5)
  end.

(** Step 13B: the manifest at the top of the package is read and checked. *)
Definition verify_markers (pkg : Package) : Exc unit :=
  match files pkg !! "imsmanifest.xml" with
  | Some manifest_text => assert_no_v13_v12_uris manifest_text
  | None => inl (FileNotFoundError "imsmanifest.xml")
  end.

(** Steps 13C to 14b: final audit, item pruning, payload repair, packing. *)
Definition convert_after_verifier (X : Externals) (manifest_path : string)
    (input_zip : Archive) (output_dir : string) (pkg : Package) : Exc Output :=
  do (tree5, tmp5) <- final_audit X manifest_path (tree pkg) (files pkg);
  let '(tree6, (pruned_refs, pruned_empty)) := prune_items_with_missing_resources tree5 in
  let tmp6 :=
    if Nat.eqb (pruned_refs + pruned_empty) 0 then tmp5
    else save_manifest X manifest_path tree6 tmp5 in
  let '(tree7, tmp7) := repair_payload X manifest_path tree6 tmp6 in
  inr (mkOutput output_dir (mkArchive (cc11_name X (archive_name input_zip)) tmp7)).

(** [process_cartridge(input_zip, output_dir, tf_to_mc_fallback, exclude_kinds)] *)
Definition process_cartridge (X : Externals) (input_zip : Archive) (output_dir : string)
    (tf_to_mc_fallback : bool) (exclude_kinds : gset string) : Exc Output :=
  (* 1) Unzip to temp *)
  let tmp := members input_zip in
  do manifest_path <- locate_manifest X tmp;
  (* 2) Parse manifest *)
  do tree0 <- load_manifest X tmp manifest_path;
  (* 2b) If already CC 1.0/1.1, only pass-through if there are NO Canvas QTI artifacts *)
  let ver := manifest_cc_version tree0 in
  do force_qti <- detect_canvas_qti_artifacts tree0 tmp;
  if is_cc_1_0_or_1_1 ver && negb force_qti then
    inr (mkOutput output_dir input_zip)
  else
    do pkg <- convert_until_verifier X manifest_path tree0 tmp tf_to_mc_fallback exclude_kinds;
    do _ <- verify_markers pkg;
    convert_after_verifier X manifest_path input_zip output_dir pkg.

(** Sample package: one manifest with one resource, and the walk of the
    payload in the order of the paths. *)
Definition manifest_with_resource (href : string) : Element :=
  Elem "manifest" [("identifier", "m1")] None
    [Elem "metadata" [] None
       [Elem "schema" [] (Some "IMS Common Cartridge") [];
        Elem "schemaversion" [] (Some "1.2.0") []];
     Elem "organizations" [] None
       [Elem "organization" [("identifier", "org1")] None
          [Elem "item" [("identifier", "i1"); ("identifierref", "r1")] None
             [Elem "title" [] (Some "Page") []]]];
     Elem "resources" [] None
       [Elem "resource" [("identifier", "r1"); ("type", "webcontent"); ("href", href)] None
          [Elem "file" [("href", href)] None []]]].

Definition walk_by_path (files : Files) : list string := elements (dom files).

(** A plain writer of a tree, and sample externals around it: the parser
    reads the documents of a table, and the passes that are not modelled
    change nothing. *)
Fixpoint render (e : Element) : string :=
  match e with
  | Elem t a x cs =>
      "<" +:+ t +:+
      fold_right (λ kv r, " " +:+ kv.1 +:+ "='" +:+ kv.2 +:+ "'" +:+ r) "" a +:+ ">" +:+
      PyStr.or_empty x +:+
      fold_right (λ c r, render c +:+ r) "" cs +:+
      "</" +:+ t +:+ ">"
  end.

Definition sample_externals (documents : list Element) : Externals :=
  mkExternals
    (λ txt, List.find (λ e, String.eqb (render e) txt) documents)
    render
    (λ root items, render root)
    walk_by_path
    (λ kinds files res, false)
    (λ tree files, inr (tree, ∅))
    (λ manifest_path tree files, inr (tree, files))
    (λ manifest_path tree files, inr (tree, files))
    (λ name, name +:+ "-cc11.imscc").

(** A Common Cartridge 1.1 manifest without assessment, one of whose
    references goes through a directory named [ccv1p3]. *)
Definition cc11_manifest : Element :=
  Elem "manifest" [("identifier", "m1")] None
    [Elem "metadata" [] None
       [Elem "schema" [] (Some "IMS Common Cartridge") [];
        Elem "schemaversion" [] (Some "1.1.0") []];
     Elem "organizations" [] None [];
     Elem "resources" [] None
       [Elem "resource"
          [("identifier", "r1"); ("type", "webcontent"); ("href", "ccv1p3/index.html")] None
          [Elem "file" [("href", "ccv1p3/index.html")] None []]]].

Definition cc11_archive : Archive :=
  mkArchive "course.imscc"
    {["imsmanifest.xml" := render cc11_manifest; "ccv1p3/index.html" := "<p>page</p>"]}.

(** An organization all of whose items are in order. *)
Definition organization_ok (valid : gset string) (d : Element) : Prop :=
  ET.matches "organization" d = true → Forall (item_ok valid) (chain_items d).

(** What the two pruning loops of [drop_resources] do to a child of the
    root. *)
Definition prune_below (ids : gset string) (c : Element) : Element :=
  prune_dependencies ids (prune_organization_items ids false c).

(** ** The form of a canonical reference *)

Definition is_upper_hexdig (a : ascii) : bool :=
  PyStr.is_digit a || PyStr.in_range 65 70 a.

(** What [urllib.parse.quote] writes with the safe set ["/-_.~"]: unreserved
    characters, slashes, and escapes [%XX] with upper-case hexadecimal
    digits. *)
Fixpoint canonical_form (s : string) : bool :=
  match s with
  | EmptyString => true
  | String a r =>
      if Ascii.eqb a "%" then
        match r with
        | String h (String l r') =>
            is_upper_hexdig h && is_upper_hexdig l && canonical_form r'
        | _ => false
        end
      else (Url.always_safe a || Ascii.eqb a "/") && canonical_form r
  end.

(** No character of the string is white space for [str.strip]. *)
Fixpoint no_space (s : string) : bool :=
  match s with
  | EmptyString => true
  | String a r => negb (PyStr.is_space a) && no_space r
  end.

(** ** Parts of the payload repair, named *)

(** The [file] child that [normalize_resource_hrefs] adds to a resource
    that has none. *)
Definition new_file (enc : string) : Element := Elem cp_file_tag [("href", enc)] None [].

(** One turn of the payload loop of [normalize_resource_hrefs], with the
    counter [created_files]. *)
Definition ensure_step (acc : Files * nat) (res : Element) : Files * nat :=
  let '(fs, created) := ensure_encoded acc.1 res in
  (fs, if created then S acc.2 else acc.2).

(** Nothing of the package is at the path [p], or the placeholder that
    [enforce_decoded_payload] writes is. *)
Definition lost (p : string) (files : Files) : Prop :=
  files !! p = None ∨ files !! p = Some (placeholder_missing_asset p).

(** A path that [dedupe_keep_decoded] may remove: a canonical reference
    that is not its own decoding, with a file at the decoded path. *)
Definition encoded_twin (files : Files) (q : string) : Prop :=
  canonicalize_href q = q ∧ Url.unquote q ≠ q ∧ is_Some (files !! Url.unquote q).

(** What step 8 does to a child of the root that stays. *)
Definition unlink (ids : gset string) (c : Element) : Element :=
  prune_dependencies ids (prune_organization_items ids true c).

(** What [ET.update_all p g] makes of an element below the root. *)
Definition updated (p : Element → bool) (g : Element → Element) (c : Element) : Element :=
  if p c then g (ET.update_all p g c) else ET.update_all p g c.

(** What [ET.update_first_desc p g] does: the first element below the root
    that passes the test is the one that is rewritten, and it is the first
    that passes the test afterwards. *)
Definition first_updated (p : Element → bool) (g : Element → Element)
    (e : Element) (r : option Element) : Prop :=
  match r with
  | None => List.filter p (ET.descendants e) = []
  | Some e' =>
      ∃ d, head (List.filter p (ET.descendants e)) = Some d ∧
           head (List.filter p (ET.descendants e')) = Some (g d)
  end.

(** The elements of a list at the positions that [keep] names, counted from
    [i]. *)
Fixpoint select {A : Type} (keep : nat → bool) (i : nat) (l : list A) : list A :=
  match l with
  | [] => []
  | c :: r => if keep i then c :: select keep (S i) r else select keep (S i) r
  end.

(** ** Removal of children by tag *)

(** The loop [for parent in list(root.iter()): for child in list(parent):
    if test(child): parent.remove(child)] of [prune_curriculum_standards] and
    of [drop_cp_variants], as for [remove_items_referring_to]. *)
Fixpoint remove_children (test : Element → bool) (e : Element) : Element :=
  match e with
  | Elem t a x cs =>
      Elem t a x (ET.retain (λ child, negb (test child)) (remove_children test) cs)
  end.

(** The counter [removed] of such a loop. The snapshot [list(root.iter())]
    holds every element of the tree as it was, and an element loses children
    at its own turn only: one is counted for every child that passes the
    test, of every element of the snapshot, detached or not. *)
Definition count_removed (test : Element → bool) (root : Element) : nat :=
  list_sum (map (λ parent, length (List.filter test (ET.children parent))) (ET.iter root)).

Definition CSM_HINT : string := "imscsmd".

(** [s.split('}', 1)[0]] *)
Fixpoint before_first_brace (s : string) : string :=
  match s with
  | EmptyString => EmptyString
  | String a r => if Ascii.eqb a "}" then EmptyString else String a (before_first_brace r)
  end.

(** [s.strip('{')] *)
Fixpoint lstrip_brace (s : string) : string :=
  match s with
  | EmptyString => EmptyString
  | String a r => if Ascii.eqb a "{" then lstrip_brace r else s
  end.

Fixpoint rstrip_brace (s : string) : string :=
  match s with
  | EmptyString => EmptyString
  | String a r =>
      match rstrip_brace r with
      | EmptyString => if Ascii.eqb a "{" then EmptyString else String a EmptyString
      | r' => String a r'
      end
  end.

(** [tag.split('}', 1)[0].strip('{')] *)
Definition namespace_of (tag : string) : string :=
  rstrip_brace (lstrip_brace (before_first_brace tag)).

(** The test of [prune_curriculum_standards]. *)
Definition in_curriculum_standards (child : Element) : bool :=
  PyStr.startswith (ET.tag child) "{" &&
  PyStr.contains (namespace_of (ET.tag child)) CSM_HINT.

(** [prune_curriculum_standards(tree, log)]: the tree, and what is added to
    [log.removed_cs_blocks]. *)
Definition prune_curriculum_standards (root : Element) : Element * nat :=
  (remove_children in_curriculum_standards root,
   count_removed in_curriculum_standards root).

(** The test of [drop_cp_variants]: [child.tag.split('}', 1)[-1] == 'variant']. *)
Definition is_variant (child : Element) : bool :=
  String.eqb (default (ET.tag child) (ET.after_first_brace (ET.tag child))) "variant".

(** [drop_cp_variants(tree)]: the tree and [removed]. *)
Definition drop_cp_variants (root : Element) : Element * nat :=
  (remove_children is_variant root, count_removed is_variant root).

(** ** [patch_intended_use] *)

(** [iu and iu.lower() == 'assignment'] *)
Definition is_assignment_use (iu : option string) : bool :=
  match iu with
  | Some s => PyStr.nonempty s && String.eqb (PyStr.lower s) "assignment"
  | None => false
  end.

Definition intended_use_attrs : list string := ["intendedUse"; "intendeduse"].

(** One turn of the loop [for attr in ('intendedUse', 'intendeduse')]. *)
Definition patch_attr (res : Element) (attr : string) : Element :=
  if is_assignment_use (ET.get res attr) then ET.set res attr "unspecified" else res.

Definition patch_resource (res : Element) : Element :=
  fold_left patch_attr intended_use_attrs res.

(** What a resource adds to [log.intended_use_changes]. *)
Definition intended_use_changes (res : Element) : list (string * string * string) :=
  flat_map (λ attr, match ET.get res attr with
                    | Some iu =>
                        if is_assignment_use (Some iu)
                        then [(default "UNKNOWN" (ET.get res "identifier"), iu, "unspecified")]
                        else []
                    | None => []
                    end)
           intended_use_attrs.

(** [patch_intended_use(tree, log)]: the tree, and the entries added to the
    log. A turn of the loop writes attributes of its own resource only. *)
Definition patch_intended_use (root : Element) : Element * list (string * string * string) :=
  (ET.update_all (ET.matches "resource") patch_resource root,
   flat_map intended_use_changes (ET.findall_desc "resource" root)).

(** ** [fix_qti_resource_hrefs] *)

(** ['imsqti_xml' in rtype] *)
Definition is_qti_assessment (res : Element) : bool :=
  PyStr.contains (PyStr.lower (PyStr.or_empty (ET.get res "type"))) "imsqti_xml".

(** [cand]: the reference of the first [file] child that ends with
    [/assessment_qti.xml]. *)
Definition qti_candidate (res : Element) : option string :=
  List.find (λ fh, PyStr.endswith fh "/assessment_qti.xml")
            (map (λ f, PyStr.or_empty (ET.get f "href")) (ET.findall_child "file" res)).

(** The reference a resource is given in its turn of the loop, if any. *)
Definition missing_href (res : Element) : option string :=
  if negb (is_qti_assessment res) then None
  else if PyStr.truthy (ET.get res "href") then None
  else match qti_candidate res with
       | Some cand => if PyStr.nonempty cand then Some cand else None
       | None => None
       end.

Definition fix_qti_resource_href (res : Element) : Element :=
  match missing_href res with
  | Some cand => ET.set res "href" cand
  | None => res
  end.

(** [fix_qti_resource_hrefs(tree, base_folder)]: the tree and [patched]. A
    turn of the loop reads the attributes of its resource and of its [file]
    children, and writes an attribute of its resource. *)
Definition fix_qti_resource_hrefs (root : Element) : Element * nat :=
  (ET.update_all (ET.matches "resource") fix_qti_resource_href root,
   length (List.filter (λ res, bool_decide (is_Some (missing_href res)))
                       (ET.findall_desc "resource" root))).

(** ** [remove_assignment_extension_resources] *)

Definition ASSIGNMENT_TYPE_PREFIXES : list string :=
  ["assignment_xmlv"; "associatedcontent/imscc_xmlv1p1/assignment"].

Definition ASSIGNMENT_HREF_HINTS : list string :=
  ["/assignment.xml"; "assignment.xml"].

(** [type_hit or href_hit] *)
Definition is_assignment_resource (res : Element) : bool :=
  let rtype := PyStr.lower (PyStr.or_empty (ET.get res "type")) in
  let href := PyStr.lower (PyStr.or_empty (ET.get res "href")) in
  existsb (PyStr.startswith rtype) ASSIGNMENT_TYPE_PREFIXES ||
  existsb (PyStr.contains href) ASSIGNMENT_HREF_HINTS.

(** [res.get('identifier') or 'UNKNOWN'] *)
Definition resource_id (res : Element) : string :=
  match ET.get res "identifier" with
  | Some (String c r) => String c r
  | _ => "UNKNOWN"
  end.

(** The loop [for res in to_remove: resources_parent.remove(res)]. *)
Definition delete_assignments (resources_parent : Element) : Element :=
  ET.set_children resources_parent
    (List.filter (λ res, negb (ET.matches "resource" res && is_assignment_resource res))
                 (ET.children resources_parent)).

(** [remove_assignment_extension_resources(tree, log, res_id_to_titles)]: the
    tree and [removed_ids]. *)
Definition remove_assignment_extension_resources (root : Element) : Element * gset string :=
  match ET.find_desc "resources" root with
  | None => (root, ∅)
  | Some resources_parent =>
      let to_remove :=
        List.filter is_assignment_resource (ET.findall_child "resource" resources_parent) in
      (default root (ET.update_first_desc (ET.matches "resources") delete_assignments root),
       list_to_set (map resource_id to_remove))
  end.

(** ** [build_res_id_to_item_titles] *)

(** The pair [(rid, title)] an item adds, if any. *)
Definition item_title (item : Element) : option (string * string) :=
  match ET.get item "identifierref", ET.find_child "title" item with
  | Some rid, Some title_el =>
      if PyStr.nonempty rid && PyStr.truthy (ET.text title_el)
      then Some (rid, text_stripped title_el)
      else None
  | _, _ => None
  end.

(** [m.setdefault(rid, set()).add(title)] *)
Definition add_title (m : gmap string (gset string)) (e : string * string) :
    gmap string (gset string) :=
  <[e.1 := default ∅ (m !! e.1) ∪ {[e.2]}]> m.

(** [build_res_id_to_item_titles(tree)] *)
Definition build_res_id_to_item_titles (root : Element) : gmap string (gset string) :=
  fold_left add_title
    (omap item_title
          (flat_map (ET.findall_desc "item") (ET.findall_desc "organization" root)))
    ∅.

(** The title [t] is recorded for the resource [rid]. *)
Definition has_title (m : gmap string (gset string)) (rid t : string) : Prop :=
  ∃ s, m !! rid = Some s ∧ t ∈ s.

(** A Common Cartridge 1.1 manifest with a Canvas assessment. *)
Definition canvas_manifest : Element :=
  Elem "manifest" [("identifier", "m1")] None
    [Elem "metadata" [] None
       [Elem "schema" [] (Some "IMS Common Cartridge") [];
        Elem "schemaversion" [] (Some "1.1.0") []];
     Elem "organizations" [] None [];
     Elem "resources" [] None
       [Elem "resource"
          [("identifier", "q1"); ("type", "imsqti_xmlv1p2/imscc_xmlv1p1/assessment")] None
          [Elem "file" [("href", "q1/assessment_qti.xml")] None []]]].

(** ** Items of the usual layout *)

(** The layout of [tf_item], with the choices as elements: the metadata
    declare a true/false question, the choices are the children of the one
    [response_lid], and every answer-key reference has a [respcondition] of
    its own. *)
Definition item_with (labels : list Element) (refs : list string) : Element :=
  Elem "item" [("ident", "q1")] None
    [qti_metadata "true_false_question";
     Elem "presentation" [] None
       [Elem "response_lid" [("ident", "response1")] None labels];
     qti_resprocessing refs].

(** The same item after the fallback: its metadata declare a multiple choice
    question. *)
Definition mc_item (labels : list Element) (refs : list string) : Element :=
  Elem "item" [("ident", "q1")] None
    [qti_metadata "multiple_choice_question";
     Elem "presentation" [] None
       [Elem "response_lid" [("ident", "response1")] None labels];
     qti_resprocessing refs].

(** The choices of [tf_item]. *)
Definition choices (labels : list (string * string)) : list Element :=
  map (λ l, qti_label l.1 l.2) labels.

(** An answer-key reference. *)
Definition answer_ref (r : string) : Element := Elem "varequal" [] (Some r) [].

(** The text the last loop of the normalizer gives an answer-key reference
    when the identifiers had to be forced. *)
Definition forced_ref (r : string) : string :=
  if String.eqb (PyStr.lower (PyStr.strip r)) "true" then "true" else "false".

(** ** [normalize_default_ns] *)

Definition IMSP_V11 : string := "http://www.imsglobal.org/xsd/imsccv1p1/imscp_v1p1".
Definition LOM_MANIFEST_NS : string := "http://ltsc.ieee.org/xsd/imsccv1p1/LOM/manifest".
Definition LOM_RESOURCE_NS : string := "http://ltsc.ieee.org/xsd/imsccv1p1/LOM/resource".

Definition IMSCP_HINTS : list string :=
  ["imscp_v1p1"; "imsccv1p1"; "imsccv1p2"; "imsccv1p3"; "imscp_v1p2"; "imscp_v1p3"].

(** [ns, local = tag[1:].split('}', 1)] for a tag that starts with a brace,
    and [('', tag)] for another one; [None] when the tag starts with a brace
    and has no closing one, where the unpacking raises, as does
    [tag.split('}', 1)[1]] in [ln]. *)
Definition split_tag (t : string) : option (string * string) :=
  match t with
  | String a r =>
      if Ascii.eqb a "{" then
        match ET.after_first_brace r with
        | Some local => Some (before_first_brace r, local)
        | None => None
        end
      else Some ("", t)
  | EmptyString => Some ("", t)
  end.

(** [f'{{{ns}}}{local}'] *)
Definition qualified (ns local : string) : string := "{" +:+ ns +:+ "}" +:+ local.

(** A function that may raise, on every element of a list in turn. *)
Definition traverse {A B : Type} (f : A → option B) : list A → option (list B) :=
  fix each (l : list A) : option (list B) :=
    match l with
    | [] => Some []
    | c :: rest =>
        match f c with
        | Some c' =>
            match each rest with
            | Some rest' => Some (c' :: rest')
            | None => None
            end
        | None => None
        end
    end.

(** [retag_lom_subtree(el)] *)
Fixpoint retag_lom_subtree (el : Element) : option Element :=
  match el with
  | Elem t a x cs =>
      match split_tag t with
      | Some (_, local) =>
          option_map (Elem (qualified LOM_MANIFEST_NS local) a x)
                     (traverse retag_lom_subtree cs)
      | None => None
      end
  end.

(** The loop [for lom_el in root.findall('.//{*}lom')] at an element below
    the root and below it. The list is made before the loop, from the tags
    as they were. A [lom] element inside another one is retagged again at
    its own turn, to the tag it has by then
    ([retag_lom_subtree_again] below). *)
Fixpoint retag_loms (e : Element) : option Element :=
  match e with
  | Elem t a x cs =>
      if ET.matches "lom" e then retag_lom_subtree e
      else option_map (Elem t a x) (traverse retag_loms cs)
  end.

Definition is_lom_ns (ns : string) : bool :=
  String.eqb ns LOM_MANIFEST_NS || String.eqb ns LOM_RESOURCE_NS.

(** [(ns == '') or any(h in ns for h in IMSCP_HINTS)] *)
Definition is_imscp_ns (ns : string) : bool :=
  String.eqb ns "" || existsb (PyStr.contains ns) IMSCP_HINTS.

(** The tag [retag_imscp] gives an element. *)
Definition imscp_tag (t ns local : string) : string :=
  if is_lom_ns ns then t
  else if is_imscp_ns ns then qualified IMSP_V11 local
  else t.

(** [retag_imscp(el)] *)
Fixpoint retag_imscp (el : Element) : option Element :=
  match el with
  | Elem t a x cs =>
      match split_tag t with
      | Some (ns, local) =>
          option_map (Elem (imscp_tag t ns local) a x) (traverse retag_imscp cs)
      | None => None
      end
  end.

(** [normalize_default_ns(tree)]; [None] when it raises. The registration of
    the prefixes is read by the writer only. *)
Definition normalize_default_ns (root : Element) : option Element :=
  match traverse retag_loms (ET.children root) with
  | Some cs' => retag_imscp (ET.set_children root cs')
  | None => None
  end.

(** The tag an element has in the end: [here] tells that it is in the subtree
    of a [lom] element below the root. *)
Definition new_tag (here : bool) (t ns local : string) : string :=
  if here then qualified LOM_MANIFEST_NS local else imscp_tag t ns local.

(** The two passes as one. *)
Fixpoint retag_all (top inside : bool) (e : Element) : option Element :=
  match e with
  | Elem t a x cs =>
      let here := inside || (negb top && ET.matches "lom" e) in
      match split_tag t with
      | Some (ns, local) =>
          option_map (Elem (new_tag here t ns local) a x)
                     (traverse (retag_all false here) cs)
      | None => None
      end
  end.

(** What the pass keeps of an element [d], and the namespace of the element
    [d'] it makes of it. *)
Definition retagged (d d' : Element) : Prop :=
  ET.attrib d' = ET.attrib d ∧ ET.text d' = ET.text d ∧
  length (ET.children d') = length (ET.children d) ∧
  ∃ ns ns' local,
    split_tag (ET.tag d) = Some (ns, local) ∧
    split_tag (ET.tag d') = Some (ns', local) ∧
    (ns' = IMSP_V11 ∨ ns' = LOM_MANIFEST_NS ∨ ns' = LOM_RESOURCE_NS ∨
     ns' = ns ∧ is_imscp_ns ns = false).

Definition in_lom_ns (d : Element) : Prop :=
  fst <$> split_tag (ET.tag d) = Some LOM_MANIFEST_NS.

(** A manifest of a 1.3 cartridge: its [lom] subtree is in the 1.3 LOM
    namespace, one element has no namespace, one is in a namespace of its
    own, and one resource carries metadata in the LOM resource namespace. *)
Definition v13_manifest : Element :=
  Elem "{http://www.imsglobal.org/xsd/imsccv1p3/imscp_v1p1}manifest" [("identifier", "m1")] None
    [Elem "{http://www.imsglobal.org/xsd/imsccv1p3/imscp_v1p1}metadata" [] None
       [Elem "{http://ltsc.ieee.org/xsd/imsccv1p3/LOM/manifest}lom" [] None
          [Elem "{http://ltsc.ieee.org/xsd/imsccv1p3/LOM/manifest}general" [] None
             [Elem "title" [] (Some "Course") []]]];
     Elem "resources" [] None
       [Elem "{urn:other}note" [("lang", "en")] (Some "kept") [];
        Elem "{http://ltsc.ieee.org/xsd/imsccv1p1/LOM/resource}educational" [] None []]].

Definition v11_manifest : Element :=
  Elem "{http://www.imsglobal.org/xsd/imsccv1p1/imscp_v1p1}manifest" [("identifier", "m1")] None
    [Elem "{http://www.imsglobal.org/xsd/imsccv1p1/imscp_v1p1}metadata" [] None
       [Elem "{http://ltsc.ieee.org/xsd/imsccv1p1/LOM/manifest}lom" [] None
          [Elem "{http://ltsc.ieee.org/xsd/imsccv1p1/LOM/manifest}general" [] None
             [Elem "{http://ltsc.ieee.org/xsd/imsccv1p1/LOM/manifest}title" [] (Some "Course") []]]];
     Elem "{http://www.imsglobal.org/xsd/imsccv1p1/imscp_v1p1}resources" [] None
       [Elem "{urn:other}note" [("lang", "en")] (Some "kept") [];
        Elem "{http://ltsc.ieee.org/xsd/imsccv1p1/LOM/resource}educational" [] None []]].

(** ** The directory walk *)

(** [root.rglob("*")] lists every file of the directory. *)
Definition walk_complete (X : Externals) : Prop :=
  ∀ files p, is_Some (files !! p) → In p (walk X files).

(** ** The payload of a percent-encoded reference *)

(** What is at the decoded path [d] of the reference [h] once
    [enforce_decoded_payload] has run on the payload [files]: the file that
    was at the decoded path, else the one of the encoded path. *)
Definition moved_payload (h d : string) (files : Files) : option string :=
  match files !! d with
  | Some c => Some c
  | None => files !! h
  end.

(** ** Sample packages for the run *)

(** A manifest without [resources] element: the resource is a child of the
    root. The tags are in the namespace of Common Cartridge 1.1, the root
    has the schema locations of 1.1, and there is no [schemaversion]. *)
Definition bare_manifest : Element :=
  Elem "{http://www.imsglobal.org/xsd/imsccv1p1/imscp_v1p1}manifest"
    [("identifier", "m1");
     ("{http://www.w3.org/2001/XMLSchema-instance}schemaLocation",
      "http://www.imsglobal.org/xsd/imsccv1p1/imscp_v1p1 " +:+
      "http://www.imsglobal.org/profile/cc/ccv1p1/ccv1p1_imscp_v1p1_v1p0.xsd " +:+
      "http://ltsc.ieee.org/xsd/imsccv1p1/LOM/manifest " +:+
      "http://www.imsglobal.org/profile/cc/ccv1p1/LOM/ccv1p1_lommanifest_v1p0.xsd " +:+
      "http://ltsc.ieee.org/xsd/imsccv1p1/LOM/resource " +:+
      "http://www.imsglobal.org/profile/cc/ccv1p1/LOM/ccv1p1_lomresource_v1p0.xsd")] None
    [Elem "{http://www.imsglobal.org/xsd/imsccv1p1/imscp_v1p1}resource"
       [("identifier", "r1"); ("type", "webcontent"); ("href", "ccv1p%33.pdf")] None
       [Elem "{http://www.imsglobal.org/xsd/imsccv1p1/imscp_v1p1}file"
          [("href", "ccv1p%33.pdf")] None []]].

Definition bare_archive : Archive :=
  mkArchive "course.imscc"
    {["imsmanifest.xml" := render bare_manifest; "ccv1p%33.pdf" := "%PDF"]}.

(** A Common Cartridge 1.2 manifest one of whose references goes through a
    directory named [ccv1p3]. *)
Definition cc12_archive : Archive :=
  mkArchive "course.imscc"
    {["imsmanifest.xml" := render (manifest_with_resource "ccv1p3/index.html");
      "ccv1p3/index.html" := "<p>page</p>"]}.

(** ** The run up to the check of the true/false items *)

(** Steps 3 to 12b of [process_cartridge]: the manifest tree, the payload
    and the log at the check of step 12c. *)
Definition until_normalizer (X : Externals) (manifest_path : string)
    (tree0 : Element) (tmp : Files) (tf_to_mc_fallback : bool)
    (exclude_kinds : gset string) : Exc (Element * Files * ChangeLog) :=
  do (tree1, removed_any) <- remove_unsupported X tree0 tmp;
  let hit := kind_hit X exclude_kinds tmp in
  let dropping :=
    negb (bool_decide (exclude_kinds = ∅)) &&
    negb (bool_decide (ids_to_remove hit tree1 = ∅)) in
  let tree2 :=
    if bool_decide (exclude_kinds = ∅) then tree1 else drop_resources_by_kind hit tree1 in
  let tmp2 := if dropping then save_manifest X manifest_path tree2 tmp else tmp in
  let tree3 := remove_references removed_any tree2 in
  do (tree4, tmp4) <- downgrade_manifest X manifest_path tree3 tmp2;
  let '(tmp5, log5) :=
    normalize_true_false_qti X tf_to_mc_fallback tmp4 (mkLog 0 0 0) in
  inr (tree4, tmp5, log5).

(** The item [item] without its labels other than those of index [i] and
    [j]. *)
Definition collapse (i j : nat) (item : Element) : Element :=
  with_labels (λ k l, if Nat.eqb k i || Nat.eqb k j then Some l else None) item.

(** A package with one assessment, whose only item is declared as a
    true/false question and has a single choice. *)
Definition one_choice_quiz : Element :=
  Elem "questestinterop" [] None [tf_item [("a", "True")] ["a"]].

Definition quiz_archive : Archive :=
  mkArchive "course.imscc"
    {["imsmanifest.xml" := render (manifest_with_resource "quiz/assessment_qti.xml");
      "quiz/assessment_qti.xml" := render one_choice_quiz]}.

(** * Properties *)

(** ** Percent-encoding *)

Section UrlFacts.
Import PyStr Url.

Example canonicalize_href_space :
  canonicalize_href "files/My Page (1).html" = "files/My%20Page%20%281%29.html".
Proof. reflexivity. Qed.

Example canonicalize_href_mixed :
  canonicalize_href "a%20b c%zz%2fd" = "a%20b%20c%25zz/d".
Proof. reflexivity. Qed.

(** A byte is either written as it is, and is then no percent sign, or
    written as an escape that [unquote_to_bytes] reads back. *)
Lemma quote_byte_cases (a : ascii) :
  (quote_byte "/-_.~" a = String a ∧ Ascii.eqb a "%" = false) ∨
  (∃ h l, quote_byte "/-_.~" a = (λ r, String "%" (String h (String l r))) ∧
          is_hexdig h && is_hexdig l = true ∧
          ascii_of_N (16 * hexval h + hexval l) = a).
Proof.
  destruct a as [[] [] [] [] [] [] [] []];
    first [ left; split; reflexivity
          | right; eexists _, _; split; [reflexivity | split; reflexivity] ].
Qed.

Lemma unquote_to_bytes_quote (s : string) :
  unquote_to_bytes (quote "/-_.~" s) = s.
Proof.
  induction s as [|a r IH]; [reflexivity|].
  cbn [quote].
  destruct (quote_byte_cases a) as [[-> Hp] | (h & l & -> & Hhex & Hval)].
  - cbn [unquote_to_bytes]. rewrite Hp. by rewrite IH.
  - cbn [unquote_to_bytes]. change (Ascii.eqb "%" "%") with true. cbn iota.
    rewrite Hhex, Hval. by rewrite IH.
Qed.

Lemma utf8_replace_fffd (t : string) :
  utf8_replace (fffd t) = fffd (utf8_replace t).
Proof. reflexivity. Qed.

Lemma utf8_replace_pass1 b0 t :
  lead b0 = 1 → utf8_replace (String b0 t) = String b0 (utf8_replace t).
Proof. intros H. cbn [utf8_replace]. by rewrite H. Qed.

Lemma utf8_replace_pass2 b0 b1 t :
  lead b0 = 2 → is_cont b1 = true →
  utf8_replace (String b0 (String b1 t)) = String b0 (String b1 (utf8_replace t)).
Proof. intros H0 H1. cbn [utf8_replace]. by rewrite H0, H1. Qed.

Lemma utf8_replace_pass3 b0 b1 b2 t :
  lead b0 = 3 → second_ok b0 b1 = true → is_cont b2 = true →
  utf8_replace (String b0 (String b1 (String b2 t)))
  = String b0 (String b1 (String b2 (utf8_replace t))).
Proof. intros H0 H1 H2. cbn [utf8_replace]. by rewrite H0, H1, H2. Qed.

Lemma utf8_replace_pass4 b0 b1 b2 b3 t :
  lead b0 = 4 → second_ok b0 b1 = true → is_cont b2 = true → is_cont b3 = true →
  utf8_replace (String b0 (String b1 (String b2 (String b3 t))))
  = String b0 (String b1 (String b2 (String b3 (utf8_replace t)))).
Proof. intros H0 H1 H2 H3. cbn [utf8_replace]. by rewrite H0, H1, H2, H3. Qed.

(** Decoding with replacement yields well-formed text: decoding the result
    again changes nothing. The induction is on a bound of the length, since
    the decoder resumes up to three bytes behind the byte it looks at. *)
Lemma utf8_replace_idem_bounded (n : nat) :
  ∀ s, (String.length s ≤ n)%nat → utf8_replace (utf8_replace s) = utf8_replace s.
Proof.
  induction n as [|n IH]; intros s Hlen.
  { destruct s; [reflexivity | cbn in Hlen; lia]. }
  destruct s as [|b0 r]; [reflexivity|].
  cbn [String.length] in Hlen.
  assert (Hr : ∀ t, (String.length t ≤ String.length r)%nat →
               utf8_replace (utf8_replace t) = utf8_replace t)
    by (intros t Ht; apply IH; lia).
  cbn [utf8_replace].
  destruct (lead b0) as [|[|[|[|[|k]]]]] eqn:H0.
  - rewrite utf8_replace_fffd. by rewrite Hr.
  - rewrite utf8_replace_pass1 by done. by rewrite Hr.
  - destruct r as [|b1 r1]; [reflexivity|].
    destruct (is_cont b1) eqn:H1.
    + rewrite utf8_replace_pass2 by done. rewrite Hr; [done | cbn; lia].
    + rewrite utf8_replace_fffd. by rewrite Hr.
  - destruct r as [|b1 r1]; [reflexivity|].
    destruct (second_ok b0 b1) eqn:H1.
    + destruct r1 as [|b2 r2]; [reflexivity|].
      destruct (is_cont b2) eqn:H2.
      * rewrite utf8_replace_pass3 by done. rewrite Hr; [done | cbn; lia].
      * rewrite utf8_replace_fffd. rewrite Hr; [done | cbn; lia].
    + rewrite utf8_replace_fffd. by rewrite Hr.
  - destruct r as [|b1 r1]; [reflexivity|].
    destruct (second_ok b0 b1) eqn:H1.
    + destruct r1 as [|b2 r2]; [reflexivity|].
      destruct (is_cont b2) eqn:H2.
      * destruct r2 as [|b3 r3]; [reflexivity|].
        destruct (is_cont b3) eqn:H3.
        -- rewrite utf8_replace_pass4 by done. rewrite Hr; [done | cbn; lia].
        -- rewrite utf8_replace_fffd. rewrite Hr; [done | cbn; lia].
      * rewrite utf8_replace_fffd. rewrite Hr; [done | cbn; lia].
    + rewrite utf8_replace_fffd. by rewrite Hr.
  - rewrite utf8_replace_fffd. by rewrite Hr.
Qed.

Lemma utf8_replace_idem (s : string) :
  utf8_replace (utf8_replace s) = utf8_replace s.
Proof. by apply (utf8_replace_idem_bounded (String.length s)). Qed.

Lemma utf8_wf_unquote (s : string) : utf8_wf (unquote s).
Proof. apply utf8_replace_idem. Qed.

Lemma unquote_to_bytes_no_percent (s : string) :
  mem "%" s = false → unquote_to_bytes s = s.
Proof.
  induction s as [|a r IH]; [reflexivity|].
  cbn [mem unquote_to_bytes]. rewrite Ascii.eqb_sym.
  destruct (Ascii.eqb a "%"); [done|]. cbn. intros H. by rewrite IH.
Qed.

(** The fast path of [unquote]: on the encoding of a [str] without a percent
    sign, decoding returns the string itself. *)
Lemma unquote_fast_path (s : string) :
  utf8_wf s → mem "%" s = false → unquote s = s.
Proof.
  intros Hwf Hp. unfold unquote. by rewrite unquote_to_bytes_no_percent.
Qed.

(** Decoding reads back what encoding wrote, for text that is well formed. *)
Lemma unquote_quote (u : string) :
  utf8_wf u → unquote (quote "/-_.~" u) = u.
Proof. intros Hwf. unfold unquote. by rewrite unquote_to_bytes_quote. Qed.

Lemma canonicalize_href_idem (x : string) :
  canonicalize_href (canonicalize_href x) = canonicalize_href x.
Proof.
  unfold canonicalize_href. by rewrite unquote_quote by apply utf8_wf_unquote.
Qed.

(** The decoded form of a canonical reference is the decoded form of the
    reference. *)
Lemma unquote_canonicalize_href (x : string) :
  unquote (canonicalize_href x) = unquote x.
Proof. unfold canonicalize_href. apply unquote_quote, utf8_wf_unquote. Qed.

End UrlFacts.

(** C2. [canonicalize_href] is idempotent, and two references with the same
    percent-decoded form ([urllib.parse.unquote]) have the same canonical
    form. *)
Theorem canonicalize_href_idempotent_variants :
  (∀ x, canonicalize_href (canonicalize_href x) = canonicalize_href x) ∧
  (∀ x y, Url.unquote x = Url.unquote y →
          canonicalize_href x = canonicalize_href y).
Proof.
  split.
  - apply canonicalize_href_idem.
  - intros x y Hxy. unfold canonicalize_href. by rewrite Hxy.
Qed.

(** ** Element trees *)

Section ElementFacts.

Lemma retain_spec {A B} (keep : A → bool) (f : A → B) (l : list A) :
  ET.retain keep f l = map f (List.filter keep l).
Proof.
  induction l as [|c r IH]; [reflexivity|].
  cbn. destruct (keep c); cbn; by rewrite IH.
Qed.

Lemma iter_unfold (e : Element) : ET.iter e = e :: ET.descendants e.
Proof. by destruct e. Qed.

Lemma in_iter_self (e : Element) : In e (ET.iter e).
Proof. rewrite iter_unfold. by left. Qed.

Lemma in_descendants (d e : Element) :
  In d (ET.descendants e) ↔ ∃ c, In c (ET.children e) ∧ In d (ET.iter c).
Proof. unfold ET.descendants. by rewrite in_flat_map. Qed.

Lemma in_iter (d e : Element) :
  In d (ET.iter e) ↔ d = e ∨ In d (ET.descendants e).
Proof. rewrite iter_unfold. cbn. split; intros [H|H]; auto. Qed.

Lemma in_findall_desc (name : string) (d e : Element) :
  In d (ET.findall_desc name e) ↔ In d (ET.descendants e) ∧ ET.matches name d = true.
Proof. unfold ET.findall_desc. by rewrite filter_In. Qed.

Lemma in_findall_child (name : string) (d e : Element) :
  In d (ET.findall_child name e) ↔ In d (ET.children e) ∧ ET.matches name d = true.
Proof. unfold ET.findall_child. by rewrite filter_In. Qed.

(** Descendants of descendants are descendants. *)
Lemma in_iter_trans (a b c : Element) :
  In a (ET.iter b) → In b (ET.iter c) → In a (ET.iter c).
Proof.
  revert a b. induction c as [t at_ x cs IH] using ET.Element_tree_ind.
  intros a b Hab Hbc. apply in_iter in Hbc as [-> | Hbc]; [done|].
  apply in_iter. right. apply in_descendants in Hbc as (c & Hc & Hb).
  apply in_descendants. exists c. split; [done|].
  rewrite List.Forall_forall in IH. eapply IH; eauto.
Qed.

End ElementFacts.

(** ** Cascading removal *)

Section RemoverFacts.
Context (ids : gset string).

Lemma remove_items_shape (e : Element) :
  ET.tag (remove_items_referring_to ids e) = ET.tag e ∧
  ET.attrib (remove_items_referring_to ids e) = ET.attrib e.
Proof. by destruct e. Qed.

Lemma is_removed_item_shape (a b : Element) :
  ET.tag a = ET.tag b → ET.attrib a = ET.attrib b →
  is_removed_item ids a = is_removed_item ids b.
Proof.
  intros Ht Ha. unfold is_removed_item, ref_in, ET.get. by rewrite Ht, Ha.
Qed.

Lemma is_removed_dependency_shape (a b : Element) :
  ET.tag a = ET.tag b → ET.attrib a = ET.attrib b →
  is_removed_dependency ids a = is_removed_dependency ids b.
Proof.
  intros Ht Ha.
  unfold is_removed_dependency, ref_in, ET.get, ET.matches. by rewrite Ht, Ha.
Qed.

(** After [remove_items_referring_to] no element below the root passes the
    test of the removal. *)
Lemma remove_items_clean (e d : Element) :
  In d (ET.descendants (remove_items_referring_to ids e)) →
  is_removed_item ids d = false.
Proof.
  revert d. induction e as [t a x cs IH] using ET.Element_tree_ind.
  intros d Hd. cbn [remove_items_referring_to] in Hd.
  apply in_descendants in Hd as (c' & Hc' & Hd). cbn [ET.children] in Hc'.
  rewrite retain_spec in Hc'. apply in_map_iff in Hc' as (c & <- & Hc).
  apply filter_In in Hc as [Hc Hkeep].
  apply in_iter in Hd as [-> | Hd].
  - destruct (remove_items_shape c) as [Ht Ha].
    rewrite (is_removed_item_shape _ c Ht Ha). by destruct (is_removed_item ids c).
  - rewrite List.Forall_forall in IH. by apply (IH c).
Qed.

Lemma prune_dependencies_shape (e : Element) :
  ET.tag (prune_dependencies ids e) = ET.tag e ∧
  ET.attrib (prune_dependencies ids e) = ET.attrib e.
Proof. by destruct e. Qed.

(** Every element of the pruned tree comes from an element of the tree, with
    the same tag and attributes. *)
Lemma prune_dependencies_origin (e d : Element) :
  In d (ET.iter (prune_dependencies ids e)) →
  ∃ d0, In d0 (ET.iter e) ∧ ET.tag d = ET.tag d0 ∧ ET.attrib d = ET.attrib d0.
Proof.
  revert d. induction e as [t a x cs IH] using ET.Element_tree_ind.
  intros d Hd. apply in_iter in Hd as [-> | Hd].
  - eexists. split; [apply in_iter_self|]. apply prune_dependencies_shape.
  - cbn [prune_dependencies] in Hd.
    apply in_descendants in Hd as (c' & Hc' & Hd). cbn [ET.children] in Hc'.
    rewrite retain_spec in Hc'. apply in_map_iff in Hc' as (c & <- & Hc).
    apply filter_In in Hc as [Hc _].
    rewrite List.Forall_forall in IH. destruct (IH c Hc d Hd) as (d0 & Hd0 & Hshape).
    exists d0. split; [|done].
    apply in_iter. right. apply in_descendants. exists c. by split.
Qed.

(** In the pruned tree no [resource] element has a [dependency] child that
    names a removed identifier. *)
Lemma prune_dependencies_clean (e res dep : Element) :
  In res (ET.iter (prune_dependencies ids e)) →
  ET.matches "resource" res = true →
  In dep (ET.children res) →
  is_removed_dependency ids dep = false.
Proof.
  revert res dep. induction e as [t a x cs IH] using ET.Element_tree_ind.
  intros res dep Hres Hm Hdep. rewrite List.Forall_forall in IH.
  apply in_iter in Hres as [-> | Hres].
  - cbn [prune_dependencies ET.children] in Hdep.
    rewrite retain_spec in Hdep. apply in_map_iff in Hdep as (c & <- & Hc).
    apply filter_In in Hc as [Hc Hkeep].
    destruct (prune_dependencies_shape (Elem t a x cs)) as [Ht _].
    unfold ET.matches in Hm. rewrite Ht in Hm.
    change (ET.matches "resource" (Elem t a x cs) = true) in Hm.
    rewrite Hm in Hkeep. cbn in Hkeep.
    destruct (prune_dependencies_shape c) as [Ht' Ha'].
    rewrite (is_removed_dependency_shape _ c Ht' Ha').
    by destruct (is_removed_dependency ids c).
  - cbn [prune_dependencies] in Hres.
    apply in_descendants in Hres as (c' & Hc' & Hres). cbn [ET.children] in Hc'.
    rewrite retain_spec in Hc'. apply in_map_iff in Hc' as (c & <- & Hc).
    apply filter_In in Hc as [Hc _]. by apply (IH c Hc res dep).
Qed.

End RemoverFacts.

(** C3. After step 8 of [process_cartridge] ([remove_items_referring_to],
    then [remove_dependencies_referring_to], with the set of removed
    identifiers) no item element below the root of the manifest has an
    [identifierref] in the set, and no [dependency] child of a [resource]
    element has one. *)
Theorem cascading_removal_postcondition (removed_ids : gset string) (root : Element) :
  let root' := remove_references removed_ids root in
  (∀ item r, In item (ET.descendants root') →
             PyStr.endswith (ET.tag item) "item" = true →
             ET.get item "identifierref" = Some r → r ∉ removed_ids) ∧
  (∀ res dep r, In res (ET.findall_desc "resource" root') →
                In dep (ET.findall_child "dependency" res) →
                ET.get dep "identifierref" = Some r → r ∉ removed_ids).
Proof.
  cbn zeta. unfold remove_references. case_bool_decide as Hempty.
  { rewrite Hempty. split; intros; set_solver. }
  split.
  - intros item r Hin Htag Hget Hr.
    unfold remove_dependencies_referring_to in Hin.
    apply in_descendants in Hin as (c' & Hc' & Hin). cbn [ET.set_children ET.children] in Hc'.
    apply in_map_iff in Hc' as (c & <- & Hc).
    apply prune_dependencies_origin in Hin as (d0 & Hd0 & Ht & Ha).
    assert (Hclean : is_removed_item removed_ids d0 = false).
    { apply (remove_items_clean removed_ids root).
      apply in_descendants. by exists c. }
    rewrite <- (is_removed_item_shape removed_ids item d0 Ht Ha) in Hclean.
    unfold is_removed_item, ref_in in Hclean. rewrite Htag, Hget in Hclean.
    cbn in Hclean. by case_bool_decide.
  - intros res dep r Hres Hdep Hget Hr.
    apply in_findall_desc in Hres as [Hres Hm].
    apply in_findall_child in Hdep as [Hdep Hmd].
    unfold remove_dependencies_referring_to in Hres.
    apply in_descendants in Hres as (c' & Hc' & Hres). cbn [ET.set_children ET.children] in Hc'.
    apply in_map_iff in Hc' as (c & <- & Hc).
    pose proof (prune_dependencies_clean removed_ids c res dep Hres Hm Hdep) as Hclean.
    unfold is_removed_dependency, ref_in in Hclean. rewrite Hmd, Hget in Hclean.
    cbn in Hclean. by case_bool_decide.
Qed.

(** ** Pruning items that reference a missing resource *)

Section PruneFacts.
Context (valid : gset string).

Lemma endswith_app (s p : string) :
  PyStr.endswith s p = true → ∃ pre, s = pre +:+ p.
Proof.
  induction s as [|a r IH]; cbn [PyStr.endswith]; intros H.
  - apply orb_true_iff in H as [H | H]; [|done].
    apply String.eqb_eq in H as <-. by exists EmptyString.
  - apply orb_true_iff in H as [H | H].
    + apply String.eqb_eq in H as <-. by exists EmptyString.
    + destruct (IH H) as [pre ->]. by exists (String a pre).
Qed.

Lemma after_last_brace_app (pre name : string) :
  ET.after_last_brace name = None →
  ET.after_last_brace (pre +:+ String "}" name) = Some name.
Proof.
  intros Hname. induction pre as [|a pre IH].
  - change (ET.after_last_brace (String "}" name) = Some name).
    cbn [ET.after_last_brace]. by rewrite Hname.
  - change (ET.after_last_brace (String a (pre +:+ String "}" name)) = Some name).
    cbn [ET.after_last_brace]. by rewrite IH.
Qed.

(** An organization is no item. *)
Lemma is_item_not_organization (e : Element) :
  is_item e = true → ET.matches "organization" e = false.
Proof.
  unfold is_item, ET.matches, ET.rsplit_localname. intros Hitem.
  destruct (String.eqb (ET.tag e) "organization") eqn:Heq.
  { apply String.eqb_eq in Heq. by rewrite Heq in Hitem. }
  destruct (PyStr.endswith (ET.tag e) "}organization") eqn:Hend; [|done].
  apply endswith_app in Hend as [pre Hpre]. rewrite Hpre in Hitem.
  rewrite (after_last_brace_app pre "organization") in Hitem by reflexivity.
  done.
Qed.

Lemma prune_item_children_tag (e : Element) (n : nat * nat) :
  ET.tag (prune_item_children valid e n).1 = ET.tag e.
Proof.
  destruct e as [t a x cs]. cbn [prune_item_children].
  by destruct (prune_each _ _ cs n).
Qed.

Lemma prune_item_children_children (t : string) a x cs (n : nat * nat) :
  ET.children (prune_item_children valid (Elem t a x cs) n).1
  = (prune_each valid (prune_item_children valid) cs n).1.
Proof. cbn [prune_item_children]. by destruct (prune_each _ _ cs n). Qed.

Lemma chain_items_unfold (e : Element) :
  chain_items e
  = flat_map (λ c, if is_item c then c :: chain_items c else []) (ET.children e).
Proof. by destruct e. Qed.

(** What the loop keeps: an item that passed both tests, with its own item
    children pruned, or a child that is no item, as it was. *)
Lemma prune_each_kept (prune : Element → nat * nat → Element * (nat * nat))
    (cs : list Element) (n : nat * nat) (c' : Element) :
  In c' (prune_each valid prune cs n).1 →
  (∃ c m, In c cs ∧ is_item c = true ∧ c' = (prune c m).1 ∧ item_ok valid c') ∨
  (In c' cs ∧ is_item c' = false).
Proof.
  revert n. induction cs as [|c rest IH]; intros n; cbn [prune_each]; [done|].
  destruct (is_item c) eqn:Hitem.
  - destruct (prune c n) as [c1 n1] eqn:Hprune.
    assert (Hrest : ∀ m, In c' (prune_each valid prune rest m).1 →
      (∃ c0 m0, In c0 (c :: rest) ∧ is_item c0 = true ∧ c' = (prune c0 m0).1 ∧
                item_ok valid c') ∨ (In c' (c :: rest) ∧ is_item c' = false)).
    { intros m Hm. destruct (IH m Hm) as [(c0 & m0 & H0 & H1)|[H0 H1]].
      - left. exists c0, m0. split; [by right | done].
      - right. split; [by right | done]. }
    destruct (PyStr.nonempty (item_ref c1)) eqn:Hne; cbn [negb andb].
    + case_bool_decide as Hin; cbn [negb].
      * destruct (prune_each valid prune rest n1) as [rest' n2] eqn:Hr.
        cbn [fst]. intros [<- | Hc'].
        -- left. exists c, n. rewrite Hprune. split; [by left|].
           split; [done|]. split; [done|]. left. by split.
        -- apply (Hrest n1). by rewrite Hr.
      * apply Hrest.
    + destruct (has_item_child c1) eqn:Hch; cbn [negb].
      * destruct (prune_each valid prune rest n1) as [rest' n2] eqn:Hr.
        cbn [fst]. intros [<- | Hc'].
        -- left. exists c, n. rewrite Hprune. split; [by left|].
           split; [done|]. split; [done|]. right. split; [|done].
           by destruct (item_ref c1).
        -- apply (Hrest n1). by rewrite Hr.
      * apply Hrest.
  - destruct (prune_each valid prune rest n) as [rest' n2] eqn:Hr.
    cbn [fst]. intros [<- | Hc'].
    + right. split; [by left | done].
    + destruct (IH n) as [(c0 & m0 & H0 & H1)|[H0 H1]]; [by rewrite Hr | |].
      * left. exists c0, m0. split; [by right | done].
      * right. split; [by right | done].
Qed.

(** After [prune_item_children] every item of the chain is in order. *)
Lemma prune_item_children_chain (e : Element) (n : nat * nat) :
  Forall (item_ok valid) (chain_items (prune_item_children valid e n).1).
Proof.
  revert n. induction e as [t a x cs IH] using ET.Element_tree_ind. intros n.
  rewrite List.Forall_forall in IH.
  apply List.Forall_forall. intros item Hitem.
  rewrite chain_items_unfold, prune_item_children_children in Hitem.
  apply in_flat_map in Hitem as (c' & Hc' & Hitem).
  apply prune_each_kept in Hc' as [(c & m & Hc & Hci & -> & Hok) | [_ Hno]].
  - unfold is_item in Hitem. rewrite prune_item_children_tag in Hitem.
    fold (is_item c) in Hitem. rewrite Hci in Hitem.
    destruct Hitem as [<- | Hitem]; [done|].
    specialize (IH c Hc m). rewrite List.Forall_forall in IH. by apply IH.
  - by rewrite Hno in Hitem.
Qed.

(** Below the pruned element there are pruned items and untouched elements
    of the element it was. *)
Lemma prune_item_children_descendants (e : Element) (n : nat * nat) (d : Element) :
  In d (ET.descendants (prune_item_children valid e n).1) →
  is_item d = true ∨ In d (ET.descendants e).
Proof.
  revert n d. induction e as [t a x cs IH] using ET.Element_tree_ind. intros n d Hd.
  rewrite List.Forall_forall in IH.
  apply in_descendants in Hd as (c' & Hc' & Hd).
  rewrite prune_item_children_children in Hc'.
  apply prune_each_kept in Hc' as [(c & m & Hc & Hci & -> & _) | [Hc _]].
  - apply in_iter in Hd as [-> | Hd].
    + left. unfold is_item. by rewrite prune_item_children_tag.
    + destruct (IH c Hc m d Hd) as [Hi | Hin]; [by left|].
      right. apply in_descendants. exists c. split; [done|].
      apply in_iter. by right.
  - right. apply in_descendants. by exists c'.
Qed.

Lemma thread_in {S : Type} (f : Element → S → Element * S)
    (cs : list Element) (n : S) (c' : Element) :
  In c' (ET.thread f cs n).1 → ∃ c m, In c cs ∧ c' = (f c m).1.
Proof.
  revert n. induction cs as [|c rest IH]; intros n; cbn [ET.thread]; [done|].
  destruct (f c n) as [c1 n1] eqn:Hf.
  destruct (ET.thread f rest n1) as [rest' n2] eqn:Hr. cbn [fst].
  intros [<- | Hc'].
  - exists c, n. rewrite Hf. split; [by left | done].
  - destruct (IH n1) as (c0 & m & H0 & H1); [by rewrite Hr|].
    exists c0, m. split; [by right | done].
Qed.

(** After the loop over the organizations, every organization at or below an
    element that is not the root is in order. *)
Lemma prune_organizations_ok (e : Element) (n : nat * nat) (d : Element) :
  In d (ET.iter (prune_organizations valid false e n).1) → organization_ok valid d.
Proof.
  revert n d. induction e as [t a x cs IH] using ET.Element_tree_ind. intros n d Hd.
  rewrite List.Forall_forall in IH.
  cbn [prune_organizations negb andb] in Hd.
  destruct (ET.thread (prune_organizations valid false) cs n) as [cs' n'] eqn:Hth.
  assert (Hbelow : ∀ d0, In d0 (ET.descendants (Elem t a x cs')) → organization_ok valid d0).
  { intros d0 Hd0. apply in_descendants in Hd0 as (c' & Hc' & Hd0).
    cbn [ET.children] in Hc'.
    destruct (thread_in (prune_organizations valid false) cs n c') as (c & m & Hc & ->);
      [by rewrite Hth|].
    by apply (IH c Hc m). }
  destruct (ET.matches "organization" (Elem t a x cs)) eqn:Horg.
  - apply in_iter in Hd as [-> | Hd].
    + intros _. apply prune_item_children_chain.
    + apply prune_item_children_descendants in Hd as [Hitem | Hd].
      * intros Hm. by rewrite (is_item_not_organization d Hitem) in Hm.
      * by apply Hbelow.
  - cbn [fst] in Hd. apply in_iter in Hd as [-> | Hd].
    + intros Hm. unfold ET.matches in Hm, Horg. cbn [ET.tag] in Hm, Horg. congruence.
    + by apply Hbelow.
Qed.

End PruneFacts.

Example prune_items_sample :
  let root :=
    Elem "manifest" [] None
      [Elem "organizations" [] None
         [Elem "organization" [] None
            [Elem "item" [("identifier", "root")] None
               [Elem "item" [("identifier", "m1")] None
                  [Elem "title" [] (Some "Module 1") [];
                   Elem "item" [("identifier", "i1"); ("identifierref", "gone")] None []];
                Elem "item" [("identifier", "i2"); ("identifierref", " r1 ")] None []]]];
       Elem "resources" [] None [Elem "resource" [("identifier", "r1")] None []]] in
  prune_items_with_missing_resources root
  = (Elem "manifest" [] None
       [Elem "organizations" [] None
          [Elem "organization" [] None
             [Elem "item" [("identifier", "root")] None
                [Elem "item" [("identifier", "i2"); ("identifierref", " r1 ")] None []]]];
        Elem "resources" [] None [Elem "resource" [("identifier", "r1")] None []]],
     (1, 1)).
Proof. vm_compute. reflexivity. Qed.

(** C9. After [prune_items_with_missing_resources] every item of every
    organization of the manifest (the item children of the organization,
    their item children, and so on) either has an [identifierref] that,
    stripped, names a resource of the manifest, or has none and has at least
    one item child. The pass decides about an item after it has pruned the
    children of the item, so a parent emptied by the pass is removed by the
    same pass. *)
Theorem prune_items_leaves_no_dangling_or_vacuous_item (root : Element) :
  Forall (λ org, Forall (item_ok (valid_res_ids root)) (chain_items org))
         (ET.findall_desc "organization" (prune_items_with_missing_resources root).1).
Proof.
  apply List.Forall_forall. intros org Horg.
  apply in_findall_desc in Horg as [Horg Hm].
  unfold prune_items_with_missing_resources in Horg.
  destruct root as [t a x cs]. cbn [prune_organizations negb andb] in Horg.
  destruct (ET.thread (prune_organizations (valid_res_ids (Elem t a x cs)) false) cs (0, 0))
    as [cs' n'] eqn:Hth.
  cbn [fst] in Horg.
  apply in_descendants in Horg as (c' & Hc' & Horg). cbn [ET.children] in Hc'.
  destruct (thread_in (prune_organizations (valid_res_ids (Elem t a x cs)) false) cs (0, 0) c')
    as (c & m & Hc & ->); [by rewrite Hth|].
  by apply (prune_organizations_ok (valid_res_ids (Elem t a x cs)) c m org Horg).
Qed.

(** ** Composing removal passes *)

Section ComposeFacts.

Lemma retain_retain {A} (k1 k2 : A → bool) (f1 f2 : A → A) (l : list A) :
  (∀ c, k2 (f1 c) = k2 c) →
  ET.retain k2 f2 (ET.retain k1 f1 l) = ET.retain (λ c, k1 c && k2 c) (λ c, f2 (f1 c)) l.
Proof.
  intros Hk. induction l as [|c r IH]; [reflexivity|].
  cbn. destruct (k1 c); cbn; [|done]. rewrite Hk. destruct (k2 c); by rewrite IH.
Qed.

Lemma retain_ext_in {A B} (k k' : A → bool) (f f' : A → B) (l : list A) :
  (∀ c, In c l → k c = k' c) → (∀ c, In c l → f c = f' c) →
  ET.retain k f l = ET.retain k' f' l.
Proof.
  induction l as [|c r IH]; intros Hk Hf; [reflexivity|].
  cbn. rewrite <- (Hk c), <- (Hf c) by (by left).
  rewrite IH; [done | |]; intros; [apply Hk | apply Hf]; by right.
Qed.

Lemma retain_all {A B} (k : A → bool) (f : A → B) (l : list A) :
  (∀ c, In c l → k c = true) → ET.retain k f l = map f l.
Proof.
  induction l as [|c r IH]; intros Hk; [reflexivity|].
  cbn. rewrite (Hk c) by (by left). rewrite IH; [done|]. intros; apply Hk; by right.
Qed.

Lemma bool_decide_union (A B : gset string) (r : string) :
  bool_decide (r ∈ A ∪ B) = bool_decide (r ∈ A) || bool_decide (r ∈ B).
Proof. rewrite <- bool_decide_or. apply bool_decide_ext, elem_of_union. Qed.

Lemma ref_in_union (A B : gset string) (e : Element) (k : string) :
  ref_in (A ∪ B) e k = ref_in A e k || ref_in B e k.
Proof.
  unfold ref_in. destruct (ET.get e k) as [r|]; [|done]. apply bool_decide_union.
Qed.

Lemma is_removed_item_union (A B : gset string) (e : Element) :
  is_removed_item (A ∪ B) e = is_removed_item A e || is_removed_item B e.
Proof.
  unfold is_removed_item. rewrite ref_in_union.
  by destruct (PyStr.endswith _ _), (ref_in A e _), (ref_in B e _).
Qed.

Lemma is_removed_dependency_union (A B : gset string) (e : Element) :
  is_removed_dependency (A ∪ B) e
  = is_removed_dependency A e || is_removed_dependency B e.
Proof.
  unfold is_removed_dependency. rewrite ref_in_union.
  by destruct (ET.matches _ _), (ref_in A e _), (ref_in B e _).
Qed.

Lemma is_removed_resource_union (A B : gset string) (e : Element) :
  is_removed_resource (A ∪ B) e = is_removed_resource A e || is_removed_resource B e.
Proof.
  unfold is_removed_resource.
  destruct (ET.matches _ _); [|done]. cbn.
  apply bool_decide_union.
Qed.

Lemma is_removed_resource_shape (ids : gset string) (a b : Element) :
  ET.tag a = ET.tag b → ET.attrib a = ET.attrib b →
  is_removed_resource ids a = is_removed_resource ids b.
Proof.
  intros Ht Ha. unfold is_removed_resource, ET.matches, ET.get. by rewrite Ht, Ha.
Qed.

Lemma prune_organization_items_shape (ids : gset string) (inside : bool) (e : Element) :
  ET.tag (prune_organization_items ids inside e) = ET.tag e ∧
  ET.attrib (prune_organization_items ids inside e) = ET.attrib e.
Proof. by destruct e. Qed.

Lemma matches_shape (name : string) (a b : Element) :
  ET.tag a = ET.tag b → ET.matches name a = ET.matches name b.
Proof. intros Ht. unfold ET.matches. by rewrite Ht. Qed.

(** Two passes over the items of the organizations are one pass with the
    union of the sets. *)
Lemma prune_organization_items_union (A B : gset string) (e : Element) :
  ∀ inside,
    prune_organization_items B inside (prune_organization_items A inside e)
    = prune_organization_items (A ∪ B) inside e.
Proof.
  induction e as [t a x cs IH] using ET.Element_tree_ind. intros inside.
  rewrite List.Forall_forall in IH.
  cbn [prune_organization_items]. f_equal.
  change (ET.matches "organization" (Elem t a x (ET.retain _ _ cs)))
    with (ET.matches "organization" (Elem t a x cs)).
  set (here := inside || ET.matches "organization" (Elem t a x cs)).
  rewrite retain_retain.
  - apply retain_ext_in.
    + intros c _. rewrite is_removed_item_union.
      by destruct here, (is_removed_item A c), (is_removed_item B c).
    + intros c Hc. by apply IH.
  - intros c. f_equal. f_equal.
    destruct (prune_organization_items_shape A here c) as [Ht Ha].
    by apply is_removed_item_shape.
Qed.

Lemma prune_dependencies_union (A B : gset string) (e : Element) :
  prune_dependencies B (prune_dependencies A e) = prune_dependencies (A ∪ B) e.
Proof.
  induction e as [t a x cs IH] using ET.Element_tree_ind.
  rewrite List.Forall_forall in IH.
  cbn [prune_dependencies]. f_equal.
  change (ET.matches "resource" (Elem t a x (ET.retain _ _ cs)))
    with (ET.matches "resource" (Elem t a x cs)).
  set (here := ET.matches "resource" (Elem t a x cs)).
  rewrite retain_retain.
  - apply retain_ext_in.
    + intros c _. rewrite is_removed_dependency_union.
      by destruct here, (is_removed_dependency A c), (is_removed_dependency B c).
    + intros c Hc. by apply IH.
  - intros c. f_equal. f_equal.
    destruct (prune_dependencies_shape A c) as [Ht Ha].
    by apply is_removed_dependency_shape.
Qed.

(** Pruning items and pruning dependencies do not see each other. *)
Lemma prune_organization_items_dependencies (A B : gset string) (e : Element) :
  ∀ inside,
    prune_organization_items B inside (prune_dependencies A e)
    = prune_dependencies A (prune_organization_items B inside e).
Proof.
  induction e as [t a x cs IH] using ET.Element_tree_ind. intros inside.
  rewrite List.Forall_forall in IH.
  cbn [prune_organization_items prune_dependencies]. f_equal.
  change (ET.matches "organization" (Elem t a x (ET.retain _ _ cs)))
    with (ET.matches "organization" (Elem t a x cs)).
  change (ET.matches "resource" (Elem t a x (ET.retain _ _ cs)))
    with (ET.matches "resource" (Elem t a x cs)).
  set (here := inside || ET.matches "organization" (Elem t a x cs)).
  set (res := ET.matches "resource" (Elem t a x cs)).
  rewrite !retain_retain.
  - apply retain_ext_in.
    + intros c _. apply andb_comm.
    + intros c Hc. by apply IH.
  - intros c. f_equal. f_equal.
    destruct (prune_organization_items_shape B here c) as [Ht Ha].
    by apply is_removed_dependency_shape.
  - intros c. f_equal. f_equal.
    destruct (prune_dependencies_shape A c) as [Ht Ha].
    by apply is_removed_item_shape.
Qed.

Lemma prune_below_union (A B : gset string) (c : Element) :
  prune_below B (prune_below A c) = prune_below (A ∪ B) c.
Proof.
  unfold prune_below.
  rewrite prune_organization_items_dependencies, prune_dependencies_union.
  by rewrite prune_organization_items_union.
Qed.

Lemma prune_below_shape (ids : gset string) (c : Element) :
  ET.tag (prune_below ids c) = ET.tag c ∧ ET.attrib (prune_below ids c) = ET.attrib c.
Proof.
  unfold prune_below.
  destruct (prune_dependencies_shape ids (prune_organization_items ids false c)) as [-> ->].
  apply prune_organization_items_shape.
Qed.

End ComposeFacts.

(** ** The removal pass of [drop_resources_by_kind] *)

Section DropFacts.

Lemma last_char_app (pre p : string) :
  p ≠ EmptyString → PyStr.last_char (pre +:+ p) = PyStr.last_char p.
Proof.
  intros Hp. induction pre as [|a pre IH]; [reflexivity|].
  change (PyStr.last_char (String a (pre +:+ p)) = PyStr.last_char p).
  cbn [PyStr.last_char]. destruct (pre +:+ p) eqn:Happ; [|done].
  destruct pre; [|done]. by destruct p.
Qed.

Lemma matches_last_char (name : string) (e : Element) :
  name ≠ EmptyString → ET.matches name e = true →
  PyStr.last_char (ET.tag e) = PyStr.last_char name.
Proof.
  intros Hname Hm. unfold ET.matches in Hm.
  apply orb_true_iff in Hm as [Hm | Hm].
  - apply String.eqb_eq in Hm. by rewrite Hm.
  - apply endswith_app in Hm as [pre ->].
    rewrite last_char_app by done. by destruct name.
Qed.

(** A [resources] element is neither an organization nor a resource. *)
Lemma resources_not_other (e : Element) :
  ET.matches "resources" e = true →
  ET.matches "organization" e = false ∧ ET.matches "resource" e = false.
Proof.
  intros Hm. apply matches_last_char in Hm; [|done]. cbn in Hm.
  split.
  - destruct (ET.matches "organization" e) eqn:H; [|done].
    apply matches_last_char in H; [|done]. cbn in H. congruence.
  - destruct (ET.matches "resource" e) eqn:H; [|done].
    apply matches_last_char in H; [|done]. cbn in H. congruence.
Qed.

(** The two pruning loops touch the children of a [resources] element only. *)
Lemma prune_below_resources (ids : gset string) (e : Element) :
  ET.matches "resources" e = true →
  prune_below ids e = ET.set_children e (map (prune_below ids) (ET.children e)).
Proof.
  intros Hm. destruct (resources_not_other e Hm) as [Horg Hres].
  destruct e as [t a x cs]. unfold prune_below.
  cbn [prune_organization_items prune_dependencies ET.set_children ET.children
       ET.tag ET.attrib ET.text].
  change (ET.matches "resource" (Elem t a x (ET.retain _ _ cs)))
    with (ET.matches "resource" (Elem t a x cs)).
  rewrite Horg, Hres. cbn [orb andb negb].
  rewrite !retain_all by done. by rewrite map_map.
Qed.

Lemma prune_organization_items_origin (ids : gset string) (e d : Element) :
  ∀ inside, In d (ET.iter (prune_organization_items ids inside e)) →
  ∃ d0, In d0 (ET.iter e) ∧ ET.tag d = ET.tag d0 ∧ ET.attrib d = ET.attrib d0.
Proof.
  revert d. induction e as [t a x cs IH] using ET.Element_tree_ind.
  intros d inside Hd. apply in_iter in Hd as [-> | Hd].
  - eexists. split; [apply in_iter_self|]. apply prune_organization_items_shape.
  - cbn [prune_organization_items] in Hd.
    apply in_descendants in Hd as (c' & Hc' & Hd). cbn [ET.children] in Hc'.
    rewrite retain_spec in Hc'. apply in_map_iff in Hc' as (c & <- & Hc).
    apply filter_In in Hc as [Hc _].
    rewrite List.Forall_forall in IH. destruct (IH c Hc d _ Hd) as (d0 & Hd0 & Hshape).
    exists d0. split; [|done].
    apply in_iter. right. apply in_descendants. exists c. by split.
Qed.

Lemma prune_below_no_match (ids : gset string) (name : string) (c : Element) :
  existsb (ET.matches name) (ET.iter c) = false →
  existsb (ET.matches name) (ET.iter (prune_below ids c)) = false.
Proof.
  intros Hno. apply not_true_is_false. intros Hex.
  apply existsb_exists in Hex as (d & Hd & Hm).
  unfold prune_below in Hd.
  apply prune_dependencies_origin in Hd as (d1 & Hd1 & Ht1 & _).
  apply prune_organization_items_origin in Hd1 as (d0 & Hd0 & Ht0 & _).
  assert (existsb (ET.matches name) (ET.iter c) = true); [|congruence].
  apply existsb_exists. exists d0. split; [done|].
  by rewrite <- (matches_shape name d1 d0 Ht0), <- (matches_shape name d d1 Ht1).
Qed.

Lemma update_first_desc_none (p : Element → bool) (f : Element → Element) (e : Element) :
  existsb p (ET.iter e) = false → ET.update_first_desc p f e = None.
Proof.
  induction e as [t a x cs IH] using ET.Element_tree_ind. intros Hno.
  cbn [ET.iter existsb] in Hno. apply orb_false_iff in Hno as [_ Hno].
  cbn [ET.update_first_desc].
  enough (ET.scan_first p f (ET.update_first_desc p f) cs = None) as -> by done.
  induction cs as [|c r IHr]; [reflexivity|].
  cbn [flat_map] in Hno. rewrite existsb_app in Hno.
  apply orb_false_iff in Hno as [Hc Hr].
  apply List.Forall_cons_iff in IH as [IHc IHrest].
  cbn [ET.scan_first].
  assert (p c = false) as ->.
  { rewrite iter_unfold in Hc. cbn in Hc. by apply orb_false_iff in Hc as [-> _]. }
  rewrite (IHc Hc). by rewrite (IHr IHrest Hr).
Qed.

(** When the first [resources] element is a child of the root, the search
    below the root finds it among the children. *)
Lemma delete_resources_top (ids : gset string) t a x (cs : list Element) :
  resources_at_top_level cs = true →
  delete_resources ids (Elem t a x cs)
  = if existsb (ET.matches "resources") cs
    then Some (Elem t a x (ET.update_first (ET.matches "resources") (delete_from ids) cs))
    else None.
Proof.
  intros Htop. unfold delete_resources. cbn [ET.update_first_desc].
  enough (ET.scan_first (ET.matches "resources") (delete_from ids)
            (ET.update_first_desc (ET.matches "resources") (delete_from ids)) cs
          = if existsb (ET.matches "resources") cs
            then Some (ET.update_first (ET.matches "resources") (delete_from ids) cs)
            else None) as ->
    by (by destruct (existsb _ cs)).
  induction cs as [|c r IH]; [reflexivity|].
  cbn [resources_at_top_level] in Htop.
  cbn [ET.scan_first ET.update_first existsb].
  destruct (ET.matches "resources" c) eqn:Hc; [done|].
  cbn [orb] in Htop. apply andb_true_iff in Htop as [Hno Hr].
  apply negb_true_iff in Hno.
  rewrite (update_first_desc_none _ _ c Hno). rewrite (IH Hr).
  by destruct (existsb _ r).
Qed.

Lemma drop_resources_empty (root : Element) : drop_resources ∅ root = root.
Proof.
  unfold drop_resources. destruct (delete_resources ∅ root); [|done].
  by rewrite bool_decide_eq_true_2.
Qed.

Lemma drop_resources_top (ids : gset string) t a x (cs : list Element) :
  resources_at_top_level cs = true →
  drop_resources ids (Elem t a x cs)
  = if existsb (ET.matches "resources") cs && negb (bool_decide (ids = ∅))
    then Elem t a x
           (map (prune_below ids)
                (ET.update_first (ET.matches "resources") (delete_from ids) cs))
    else Elem t a x cs.
Proof.
  intros Htop. unfold drop_resources. rewrite delete_resources_top by done.
  destruct (existsb _ cs); [|done]. cbn [andb].
  destruct (bool_decide (ids = ∅)); [done|]. cbn [negb].
  unfold remove_dependencies_referring_to, prune_items_in_organizations.
  cbn [ET.set_children ET.children ET.tag ET.attrib ET.text].
  by rewrite map_map.
Qed.

Lemma delete_from_shape (ids : gset string) (c : Element) :
  ET.tag (delete_from ids c) = ET.tag c.
Proof. by destruct c. Qed.

(** The pass keeps the [resources] element where it is. *)
Lemma pass_keeps_top (ids : gset string) (cs : list Element) :
  resources_at_top_level cs = true →
  resources_at_top_level
    (map (prune_below ids) (ET.update_first (ET.matches "resources") (delete_from ids) cs))
  = true.
Proof.
  induction cs as [|c r IH]; [done|].
  cbn [resources_at_top_level ET.update_first]. intros Htop.
  destruct (ET.matches "resources" c) eqn:Hc.
  - cbn [map resources_at_top_level].
    destruct (prune_below_shape ids (delete_from ids c)) as [Ht _].
    rewrite (matches_shape _ _ (delete_from ids c) Ht).
    rewrite (matches_shape _ _ c (delete_from_shape ids c)). by rewrite Hc.
  - cbn [orb] in Htop. apply andb_true_iff in Htop as [Hno Hr].
    apply negb_true_iff in Hno.
    cbn [map resources_at_top_level].
    rewrite (prune_below_no_match ids _ c Hno). rewrite (IH Hr).
    by rewrite orb_true_r.
Qed.

Lemma pass_keeps_resources (ids : gset string) (cs : list Element) :
  existsb (ET.matches "resources")
    (map (prune_below ids) (ET.update_first (ET.matches "resources") (delete_from ids) cs))
  = existsb (ET.matches "resources") cs.
Proof.
  induction cs as [|c r IH]; [done|].
  cbn [ET.update_first existsb].
  destruct (ET.matches "resources" c) eqn:Hc.
  - cbn [map existsb].
    destruct (prune_below_shape ids (delete_from ids c)) as [Ht _].
    rewrite (matches_shape _ _ (delete_from ids c) Ht).
    rewrite (matches_shape _ _ c (delete_from_shape ids c)). by rewrite Hc.
  - cbn [map existsb].
    destruct (prune_below_shape ids c) as [Ht _].
    rewrite (matches_shape _ _ c Ht), Hc. apply IH.
Qed.

Lemma filter_map_shape {A} (k : A → bool) (g : A → A) (l : list A) :
  (∀ c, k (g c) = k c) → List.filter k (map g l) = map g (List.filter k l).
Proof.
  intros Hk. induction l as [|c r IH]; [done|].
  cbn. rewrite Hk. destruct (k c); cbn; by rewrite IH.
Qed.

Lemma filter_filter_and {A} (k1 k2 : A → bool) (l : list A) :
  List.filter k2 (List.filter k1 l) = List.filter (λ c, k1 c && k2 c) l.
Proof.
  induction l as [|c r IH]; [done|].
  cbn. destruct (k1 c); cbn; [|done]. destruct (k2 c); by rewrite IH.
Qed.

(** Deleting resources commutes with the pruning loops, and two deletions
    are one deletion with the union of the sets. *)
Lemma delete_from_prune_below (A B : gset string) (c : Element) :
  ET.matches "resources" c = true →
  delete_from B (prune_below A c) = prune_below A (delete_from B c).
Proof.
  intros Hc.
  rewrite (prune_below_resources A c Hc).
  rewrite (prune_below_resources A (delete_from B c))
    by (by rewrite (matches_shape _ _ c (delete_from_shape B c))).
  destruct c as [t a x cs]. unfold delete_from.
  cbn [ET.set_children ET.children ET.tag ET.attrib ET.text]. f_equal.
  apply filter_map_shape. intros c. f_equal.
  destruct (prune_below_shape A c) as [Ht Ha]. by apply is_removed_resource_shape.
Qed.

Lemma delete_from_union (A B : gset string) (c : Element) :
  delete_from B (delete_from A c) = delete_from (A ∪ B) c.
Proof.
  destruct c as [t a x cs]. unfold delete_from.
  cbn [ET.set_children ET.children ET.tag ET.attrib ET.text]. f_equal.
  rewrite filter_filter_and. apply filter_ext. intros c.
  rewrite is_removed_resource_union.
  by destruct (is_removed_resource A c), (is_removed_resource B c).
Qed.

Lemma pass_pass (A B : gset string) (cs : list Element) :
  map (prune_below B)
      (ET.update_first (ET.matches "resources") (delete_from B)
         (map (prune_below A)
              (ET.update_first (ET.matches "resources") (delete_from A) cs)))
  = map (prune_below (A ∪ B))
        (ET.update_first (ET.matches "resources") (delete_from (A ∪ B)) cs).
Proof.
  induction cs as [|c r IH]; [done|].
  cbn [ET.update_first].
  destruct (ET.matches "resources" c) eqn:Hc.
  - cbn [map ET.update_first].
    destruct (prune_below_shape A (delete_from A c)) as [Ht _].
    rewrite (matches_shape _ _ (delete_from A c) Ht).
    rewrite (matches_shape _ _ c (delete_from_shape A c)), Hc.
    cbn [map]. f_equal.
    + rewrite delete_from_prune_below
        by (by rewrite (matches_shape _ _ c (delete_from_shape A c))).
      by rewrite prune_below_union, delete_from_union.
    + rewrite map_map. apply map_ext. intros c'. apply prune_below_union.
  - cbn [map ET.update_first].
    destruct (prune_below_shape A c) as [Ht _].
    rewrite (matches_shape _ _ c Ht), Hc.
    cbn [map]. f_equal; [apply prune_below_union | apply IH].
Qed.

End DropFacts.

(** C4. In a manifest whose [resources] element is a child of the root, the
    removal pass of [drop_resources_by_kind] (delete the named resources,
    prune the items of the organizations that refer to them, prune the
    dependencies that refer to them) run with a set [A] and then with a set
    [B] leaves the tree that one run with [A ∪ B] leaves; in particular a
    second run with the same set changes nothing. *)
Theorem drop_resources_composable (A B : gset string) (root : Element) :
  resources_at_top_level (ET.children root) = true →
  drop_resources B (drop_resources A root) = drop_resources (A ∪ B) root ∧
  drop_resources A (drop_resources A root) = drop_resources A root.
Proof.
  intros Htop.
  assert (Hcompose : ∀ A B, drop_resources B (drop_resources A root)
                            = drop_resources (A ∪ B) root).
  { clear A B. intros A B. destruct root as [t a x cs]. cbn [ET.children] in Htop.
    destruct (decide (A = ∅)) as [-> | HA].
    { by rewrite drop_resources_empty, (left_id_L ∅ (∪)). }
    destruct (decide (B = ∅)) as [-> | HB].
    { by rewrite drop_resources_empty, (right_id_L ∅ (∪)). }
    assert (HAB : A ∪ B ≠ ∅) by set_solver.
    rewrite (drop_resources_top A), (drop_resources_top (A ∪ B)) by done.
    rewrite (bool_decide_eq_false_2 _ HA), (bool_decide_eq_false_2 _ HAB).
    destruct (existsb (ET.matches "resources") cs) eqn:Hex; cbn [andb negb].
    - rewrite drop_resources_top by (by apply pass_keeps_top).
      rewrite pass_keeps_resources, Hex, (bool_decide_eq_false_2 _ HB).
      cbn [andb negb]. f_equal. apply pass_pass.
    - rewrite drop_resources_top by done.
      by rewrite Hex. }
  split; [apply Hcompose|].
  by rewrite Hcompose, (idemp_L (∪) A).
Qed.

(** ** The true/false normalizer *)

Section NormalizerFacts.

Example normalize_opt1_opt2 :
  let item := tf_item [("opt1", "True"); ("opt2", "False")] ["opt1"] in
  let r := fix_item false item (mkLog 0 0 0, false) in
  map ident_of (labels_of r.1) = ["true"; "false"] ∧
  map ET.text (varequals r.1) = [Some "true"] ∧
  r.2 = (mkLog 1 0 0, true).
Proof. vm_compute. done. Qed.

(** One turn of the loop counts a detected item once, and does not count
    another item. *)
Lemma fix_item_counts (fallback : bool) (item : Element) (st : ChangeLog * bool) :
  (is_tf item = true → exactly_one_counter st.1 (fix_item fallback item st).2.1) ∧
  (is_tf item = false → (fix_item fallback item st).2.1 = st.1).
Proof.
  destruct st as [log changed]. unfold fix_item, exactly_one_counter. cbn [fst].
  destruct (is_tf item); cbn [negb]; split; try done; intros _.
  destruct (validate_shape fallback item) as [| |item1 swapped removed].
  - right. by left.
  - right. by right.
  - destruct (normalize_item item1 swapped). by left.
Qed.

Lemma exactly_one_counter_total (log log' : ChangeLog) :
  exactly_one_counter log log' → total log' = S (total log).
Proof. unfold total. intros [-> | [-> | ->]]; cbn; lia. Qed.

Lemma thread_fix_item_total (fallback : bool) (items : list Element)
    (st : ChangeLog * bool) :
  total (ET.thread (fix_item fallback) items st).2.1
  = total st.1 + length (List.filter is_tf items).
Proof.
  revert st. induction items as [|item rest IH]; intros st; cbn [ET.thread].
  { cbn. lia. }
  destruct (fix_item_counts fallback item st) as [Hyes Hno].
  destruct (fix_item fallback item st) as [item' st1] eqn:Hfix.
  specialize (IH st1).
  destruct (ET.thread (fix_item fallback) rest st1) as [rest' st2].
  cbn [snd fst List.filter] in *.
  destruct (is_tf item).
  - rewrite IH, (exactly_one_counter_total _ _ (Hyes eq_refl)). cbn [length]. lia.
  - rewrite IH, (Hno eq_refl). lia.
Qed.

End NormalizerFacts.

(** C6. Every turn of the loop of [fix_qti_true_false_in_place] over an item
    detected as a true/false candidate raises exactly one of [tf_fixed],
    [tf_mc_fallback] and [tf_skipped] by one, a turn over another item raises
    none, and over a file the sum of the three counters grows by the number
    of detected candidates. *)
Theorem tf_counters_partition_candidates (fallback : bool) :
  (∀ item st,
     (is_tf item = true → exactly_one_counter st.1 (fix_item fallback item st).2.1) ∧
     (is_tf item = false → (fix_item fallback item st).2.1 = st.1)) ∧
  (∀ root log,
     total (fix_qti_true_false_in_place fallback root log).2.1
     = total log + length (detected root)).
Proof.
  split; [apply fix_item_counts|].
  intros root log. unfold fix_qti_true_false_in_place, detected.
  destruct (is_questestinterop root).
  - apply (thread_fix_item_total fallback _ (log, false)).
  - cbn. lia.
Qed.

Section SkipFacts.

Lemma looks_tf_two_labels (item : Element) :
  looks_tf item = true → 2 ≤ length (labels_of item) ∧ response_lid item ≠ None.
Proof.
  unfold looks_tf. destruct (response_lid item); [|done].
  destruct (labels_of item) as [|l0 [|l1 r]]; [done..|]. intros _. cbn. split; [lia|done].
Qed.

(** An item that is detected and has no two labels is declared as a
    true/false question. *)
Lemma short_item_declared (item : Element) :
  is_tf item = true →
  response_lid item = None ∨ length (labels_of item) < 2 →
  String.eqb (qtype item) "true_false_question" = true.
Proof.
  unfold is_tf. intros Htf Hshort.
  destruct (String.eqb (qtype item) "true_false_question"); [done|].
  cbn [orb] in Htf. apply looks_tf_two_labels in Htf as [Hlen Hrl].
  destruct Hshort; [done | lia].
Qed.

Lemma short_item_skipped (item : Element) :
  response_lid item = None ∨ length (labels_of item) < 2 →
  validate_shape false item = Skipped.
Proof.
  unfold validate_shape. intros Hshort.
  destruct (response_lid item) as [rl|]; [|done].
  destruct Hshort as [|Hlen]; [done|].
  destruct (length (labels_of item)) as [|[|n]]; [done..|lia].
Qed.

Lemma short_item_bad (item : Element) :
  is_tf item = true →
  response_lid item = None ∨ length (labels_of item) < 2 →
  is_bad_tf_item item = true.
Proof.
  intros Htf Hshort. unfold is_bad_tf_item.
  rewrite (short_item_declared item Htf Hshort). cbn [orb andb].
  destruct (response_lid item) as [rl|]; [|done].
  destruct Hshort as [|Hlen]; [done|].
  destruct (labels_of item) as [|l0 [|l1 [|l2 r]]]; try done. cbn in Hlen. lia.
Qed.

Lemma long_item_normalized (item : Element) :
  response_lid item ≠ None → 2 < length (labels_of item) →
  ∃ item1 swapped, validate_shape false item = Normalize item1 swapped true.
Proof.
  unfold validate_shape. intros Hrl Hlen.
  destruct (response_lid item) as [rl|]; [|done].
  destruct (Nat.eqb_spec (length (labels_of item)) 2) as [Heq|_]; [lia|].
  destruct (Nat.ltb_spec 2 (length (labels_of item))) as [_|?]; [|lia].
  destruct (keep_indices (labels_of item)) as [i j]. eauto.
Qed.

End SkipFacts.

(** ** The map step of the normalizer *)

Section MapStepFacts.

Lemma filter_flat_map {A B} (p : B → bool) (h : A → list B) (l : list A) :
  List.filter p (flat_map h l) = flat_map (λ x, List.filter p (h x)) l.
Proof.
  induction l as [|x r IH]; [done|]. cbn. by rewrite List.filter_app, IH.
Qed.

Lemma flat_map_of_map {A B C} (h : B → list C) (k : A → B) (l : list A) :
  flat_map h (map k l) = flat_map (λ x, h (k x)) l.
Proof. induction l as [|x r IH]; [done|]. cbn. by rewrite IH. Qed.

Lemma map_of_flat_map {A B C} (k : B → C) (h : A → list B) (l : list A) :
  map k (flat_map h l) = flat_map (λ x, map k (h x)) l.
Proof. induction l as [|x r IH]; [done|]. cbn. by rewrite map_app, IH. Qed.

Lemma flat_map_ext_in {A B} (h h' : A → list B) (l : list A) :
  (∀ x, In x l → h x = h' x) → flat_map h l = flat_map h' l.
Proof.
  induction l as [|x r IH]; intros H; [done|]. cbn.
  rewrite (H x) by (by left). rewrite IH; [done|]. intros; apply H; by right.
Qed.

Lemma conditionvar_not_respcondition (e : Element) :
  ET.matches "conditionvar" e = true → ET.matches "respcondition" e = false.
Proof.
  intros Hm. apply matches_last_char in Hm; [|done]. cbn in Hm.
  destruct (ET.matches "respcondition" e) eqn:H; [|done].
  apply matches_last_char in H; [|done]. cbn in H. congruence.
Qed.

Lemma varequal_not_respcondition (e : Element) :
  ET.matches "varequal" e = true → ET.matches "respcondition" e = false.
Proof.
  intros Hm. apply matches_last_char in Hm; [|done]. cbn in Hm.
  destruct (ET.matches "respcondition" e) eqn:H; [|done].
  apply matches_last_char in H; [|done]. cbn in H. congruence.
Qed.

Context (f : Element → Element).
Hypothesis f_tag : ∀ e, ET.tag (f e) = ET.tag e.
Hypothesis f_children : ∀ e, ET.children (f e) = ET.children e.

(** The parts of [with_varequals f]. *)
Let mod_ve (ve : Element) : Element := if ET.matches "varequal" ve then f ve else ve.
Let mod_cv (cv : Element) : Element :=
  if ET.matches "conditionvar" cv
  then ET.set_children cv (map mod_ve (ET.children cv)) else cv.
Let mod_rc (rc : Element) : Element := ET.set_children rc (map mod_cv (ET.children rc)).
Let is_rc : Element → bool := ET.matches "respcondition".
Let upd : Element → Element := ET.update_all is_rc mod_rc.
Let below (c : Element) : Element := if is_rc c then mod_rc (upd c) else upd c.

Lemma with_varequals_unfold (item : Element) : with_varequals f item = upd item.
Proof. reflexivity. Qed.

Lemma upd_tag (e : Element) : ET.tag (upd e) = ET.tag e.
Proof. by destruct e. Qed.

Lemma upd_text (e : Element) : ET.text (upd e) = ET.text e.
Proof. by destruct e. Qed.

Lemma upd_children (e : Element) : ET.children (upd e) = map below (ET.children e).
Proof.
  destruct e as [t a x cs]. cbn [upd ET.update_all ET.children].
  rewrite map_map. apply map_ext. intros c. unfold below, is_rc.
  by rewrite (matches_shape "respcondition" _ c (upd_tag c)).
Qed.

Lemma mod_ve_tag (ve : Element) : ET.tag (mod_ve ve) = ET.tag ve.
Proof. unfold mod_ve. destruct (ET.matches _ ve); [apply f_tag | done]. Qed.

Lemma mod_ve_children (ve : Element) : ET.children (mod_ve ve) = ET.children ve.
Proof. unfold mod_ve. destruct (ET.matches _ ve); [apply f_children | done]. Qed.

Lemma mod_cv_tag (cv : Element) : ET.tag (mod_cv cv) = ET.tag cv.
Proof. unfold mod_cv. by destruct (ET.matches _ cv), cv. Qed.

Lemma mod_rc_tag (rc : Element) : ET.tag (mod_rc rc) = ET.tag rc.
Proof. by destruct rc. Qed.

Lemma below_tag (c : Element) : ET.tag (below c) = ET.tag c.
Proof. unfold below. destruct (is_rc c); by rewrite ?mod_rc_tag, upd_tag. Qed.

Lemma filter_rc_mod_ve (ve : Element) :
  List.filter is_rc (ET.iter (mod_ve ve)) = List.filter is_rc (ET.iter ve).
Proof.
  unfold mod_ve. destruct (ET.matches "varequal" ve) eqn:Hve; [|done].
  rewrite !iter_unfold. unfold ET.descendants. rewrite f_children.
  cbn [List.filter]. unfold is_rc.
  rewrite (matches_shape _ _ ve (f_tag ve)).
  by rewrite (varequal_not_respcondition ve Hve).
Qed.

Lemma filter_rc_mod_cv (cv : Element) :
  List.filter is_rc (ET.iter (mod_cv cv)) = List.filter is_rc (ET.iter cv).
Proof.
  unfold mod_cv. destruct (ET.matches "conditionvar" cv) eqn:Hcv; [|done].
  rewrite !iter_unfold. cbn [List.filter].
  assert (is_rc cv = false) as Hrc by (by apply conditionvar_not_respcondition).
  assert (is_rc (ET.set_children cv (map mod_ve (ET.children cv))) = false) as ->.
  { rewrite <- Hrc. unfold is_rc. apply matches_shape. by destruct cv. }
  rewrite Hrc.
  unfold ET.descendants. destruct cv as [t a x cs].
  cbn [ET.set_children ET.children].
  rewrite flat_map_of_map, !filter_flat_map.
  apply flat_map_ext_in. intros ve _. apply filter_rc_mod_ve.
Qed.

Lemma filter_rc_mod_rc (rc : Element) :
  List.filter is_rc (ET.descendants (mod_rc rc)) = List.filter is_rc (ET.descendants rc).
Proof.
  unfold ET.descendants. destruct rc as [t a x cs].
  cbn [mod_rc ET.set_children ET.children].
  rewrite flat_map_of_map, !filter_flat_map.
  apply flat_map_ext_in. intros cv _. apply filter_rc_mod_cv.
Qed.

(** The [respcondition] elements after the rewriting are those before it,
    rewritten. *)
Lemma respconditions_upd (e : Element) :
  ET.findall_desc "respcondition" (upd e)
  = map (λ rc, mod_rc (upd rc)) (ET.findall_desc "respcondition" e).
Proof.
  induction e as [t a x cs IH] using ET.Element_tree_ind.
  rewrite List.Forall_forall in IH.
  unfold ET.findall_desc, ET.descendants. rewrite upd_children.
  cbn [ET.children]. fold is_rc.
  rewrite flat_map_of_map, !filter_flat_map, map_of_flat_map.
  apply flat_map_ext_in. intros c Hc. specialize (IH c Hc).
  unfold ET.findall_desc in IH. fold is_rc in IH.
  rewrite !iter_unfold. cbn [List.filter].
  assert (is_rc (below c) = is_rc c) as ->
    by (unfold is_rc; apply matches_shape, below_tag).
  unfold below. destruct (is_rc c) eqn:Hrc.
  - cbn [map]. f_equal. by rewrite filter_rc_mod_rc.
  - done.
Qed.

Lemma filter_map_tag (name : string) (g : Element → Element) (l : list Element) :
  (∀ c, ET.tag (g c) = ET.tag c) →
  List.filter (ET.matches name) (map g l) = map g (List.filter (ET.matches name) l).
Proof.
  intros Hg. apply filter_map_shape. intros c. by apply matches_shape.
Qed.

(** The answer-key references of a rewritten [respcondition]. *)
Lemma varequals_of_mod_rc (rc : Element) :
  flat_map (ET.findall_child "varequal") (ET.findall_child "conditionvar" (mod_rc (upd rc)))
  = map (λ ve, f (upd ve))
        (flat_map (ET.findall_child "varequal") (ET.findall_child "conditionvar" rc)).
Proof.
  unfold ET.findall_child at 2.
  assert (ET.children (mod_rc (upd rc)) = map (λ c, mod_cv (below c)) (ET.children rc)) as ->.
  { destruct (upd rc) as [t a x cs] eqn:Hupd. cbn [mod_rc ET.set_children ET.children].
    change cs with (ET.children (Elem t a x cs)). rewrite <- Hupd, upd_children.
    by rewrite map_map. }
  rewrite filter_map_tag by (intros c; by rewrite mod_cv_tag, below_tag).
  rewrite flat_map_of_map, map_of_flat_map.
  apply flat_map_ext_in. intros cv Hcv.
  apply filter_In in Hcv as [_ Hcv].
  unfold below. unfold is_rc. rewrite (conditionvar_not_respcondition cv Hcv).
  unfold mod_cv. rewrite (matches_shape _ _ cv (upd_tag cv)), Hcv.
  unfold ET.findall_child.
  assert (ET.children (ET.set_children (upd cv) (map mod_ve (ET.children (upd cv))))
          = map (λ c, mod_ve (below c)) (ET.children cv)) as ->.
  { cbn [ET.set_children ET.children]. by rewrite upd_children, map_map. }
  rewrite filter_map_tag by (intros c; by rewrite mod_ve_tag, below_tag).
  apply map_ext_in. intros ve Hve.
  apply filter_In in Hve as [_ Hve].
  unfold below. unfold is_rc. rewrite (varequal_not_respcondition ve Hve).
  unfold mod_ve. by rewrite (matches_shape _ _ ve (upd_tag ve)), Hve.
Qed.

(** The answer-key references after [with_varequals f] are those before it,
    each rewritten by [f]. *)
Lemma varequals_with_varequals (item : Element) :
  varequals (with_varequals f item) = map (λ ve, f (upd ve)) (varequals item).
Proof.
  unfold varequals. rewrite with_varequals_unfold, respconditions_upd.
  rewrite flat_map_of_map, map_of_flat_map.
  apply flat_map_ext_in. intros rc _. apply varequals_of_mod_rc.
Qed.

End MapStepFacts.

Lemma update_all_text (p : Element → bool) (g : Element → Element) (e : Element) :
  ET.text (ET.update_all p g e) = ET.text e.
Proof. by destruct e. Qed.

(** After the loop that follows the map step, every answer-key reference
    reads what [retarget] gives for its stripped text. *)
Lemma varequals_retargeted (mapping : gmap string string) (item : Element) :
  map ET.text (varequals (retarget_varequals mapping item))
  = map (λ ve, Some (retarget mapping (text_stripped ve))) (varequals item).
Proof.
  unfold retarget_varequals.
  rewrite varequals_with_varequals by (intros e; by destruct e).
  rewrite map_map. apply map_ext. intros ve.
  cbn [ET.set_text ET.text]. unfold text_stripped.
  by rewrite update_all_text.
Qed.

(** C5, as the code has it. The first case of the map step is that the
    correct identifier is one of the two choice identifiers (not that it is
    a canonical word): it then maps to ['true'] and the other identifier to
    ['false']. Otherwise the identifiers map to their literal texts when
    these are the two canonical words, else the first maps to ['true'] and
    the second to ['false']. An answer-key reference that is a key of the
    mapping is rewritten through it; another reference is lowered when it
    reads true or false in any case, and is set to ['false'] otherwise. *)
Theorem map_step_cases (id1 id2 t1 t2 : string) (correct : option string) :
  let mapping := answer_mapping id1 id2 t1 t2 correct in
  (id1 ≠ id2 → ∀ c, correct = Some c → c = id1 ∨ c = id2 →
     mapping !! c = Some "true" ∧
     ∀ o, o = id1 ∨ o = id2 → o ≠ c → mapping !! o = Some "false") ∧
  (id1 ≠ id2 → (∀ c, correct = Some c → c ≠ id1 ∧ c ≠ id2) →
     if is_tf_pair t1 t2
     then mapping !! id1 = Some t1 ∧ mapping !! id2 = Some t2
     else mapping !! id1 = Some "true" ∧ mapping !! id2 = Some "false") ∧
  (∀ item,
     map ET.text (varequals (retarget_varequals mapping item))
     = map (λ ve, Some (retarget mapping (text_stripped ve))) (varequals item)) ∧
  (∀ val,
     retarget mapping val
     = match mapping !! val with
       | Some m => m
       | None => if is_tf_word (PyStr.lower val) then PyStr.lower val else "false"
       end).
Proof.
  cbn zeta. split; [|split; [|split]].
  - intros Hne c -> Hc. unfold answer_mapping.
    destruct (String.eqb_spec c id1) as [Hc1 | Hc1];
      destruct (String.eqb_spec c id2) as [Hc2 | Hc2]; cbn [orb].
    + congruence.
    + subst c. split; [by simplify_map_eq|].
      intros o [-> | ->] Ho; [done | by simplify_map_eq].
    + subst c. split; [by simplify_map_eq|].
      intros o [-> | ->] Ho; [by simplify_map_eq | done].
    + by destruct Hc.
  - intros Hne Hother. unfold answer_mapping.
    destruct correct as [c|].
    + destruct (Hother c eq_refl) as [Hc1 Hc2].
      destruct (String.eqb_spec c id1) as [? | _]; [done|].
      destruct (String.eqb_spec c id2) as [? | _]; [done|]. cbn [orb].
      destruct (is_tf_pair t1 t2); by simplify_map_eq.
    + destruct (is_tf_pair t1 t2); by simplify_map_eq.
  - apply varequals_retargeted.
  - done.
Qed.

(** C5 fails as stated. The choices are ["A"] reading true and ["B"] reading
    false, and the answer key names ["B"], which is no canonical word: as
    specified each identifier would map to its own text, but the code maps
    the correct identifier ["B"] to ['true'] and ["A"] to ['false']. *)
Lemma map_step_tests_identifiers_not_words :
  let mapping := answer_mapping "A" "B" "true" "false" (Some "B") in
  let item := tf_item [("A", "True"); ("B", "False")] ["B"] in
  ¬ map_step_as_specified "A" "B" "true" "false" (Some "B") mapping ∧
  mapping !! "A" = Some "false" ∧ mapping !! "B" = Some "true" ∧
  map ident_of (labels_of (fix_item false item (mkLog 0 0 0, false)).1) = ["false"; "true"].
Proof.
  cbn zeta. split; [|split; [|split]].
  - unfold map_step_as_specified. cbn [PyStr.or_empty default].
    change (is_tf_word "B") with false. change (is_tf_pair "true" "false") with true.
    cbn iota. intros [H _]. vm_compute in H. discriminate H.
  - by vm_compute.
  - by vm_compute.
  - by vm_compute.
Qed.

(** ** The payload repair *)

Section PayloadFacts.

Lemma rstrip_idem (s : string) : PyStr.rstrip (PyStr.rstrip s) = PyStr.rstrip s.
Proof.
  induction s as [|a r IH]; [done|]. cbn [PyStr.rstrip].
  destruct (PyStr.rstrip r) as [|b r'] eqn:Hr.
  - destruct (PyStr.is_space a) eqn:Ha; [done|]. cbn. by rewrite Ha.
  - cbn [PyStr.rstrip]. cbn [PyStr.rstrip] in IH. by rewrite IH.
Qed.

Lemma lstrip_head (s : string) :
  match PyStr.lstrip s with
  | EmptyString => True
  | String a _ => PyStr.is_space a = false
  end.
Proof.
  induction s as [|a r IH]; [done|]. cbn [PyStr.lstrip].
  by destruct (PyStr.is_space a) eqn:Ha.
Qed.

Lemma lstrip_rstrip (t : string) :
  match t with EmptyString => True | String a _ => PyStr.is_space a = false end →
  PyStr.lstrip (PyStr.rstrip t) = PyStr.rstrip t.
Proof.
  destruct t as [|a r]; [done|]. intros Ha. cbn [PyStr.rstrip].
  destruct (PyStr.rstrip r); rewrite ?Ha; cbn [PyStr.lstrip]; by rewrite Ha.
Qed.

Lemma strip_idem (s : string) : PyStr.strip (PyStr.strip s) = PyStr.strip s.
Proof.
  unfold PyStr.strip. rewrite lstrip_rstrip by apply lstrip_head. apply rstrip_idem.
Qed.

Lemma strip_href_of (e : Element) : PyStr.strip (href_of e) = href_of e.
Proof. apply strip_idem. Qed.

(** A decoded path that is not in canonical form is not the canonical form
    of any reference. *)
Lemma canonical_differs (d x : string) :
  canonicalize_href d ≠ d → canonicalize_href x ≠ d.
Proof. intros Hd Hx. apply Hd. rewrite <- Hx. apply canonicalize_href_idem. Qed.

Lemma enforce_one_keeps (acc : Files * (nat * nat * nat)) (h d : string) :
  canonicalize_href d ≠ d →
  is_Some (acc.1 !! d) → is_Some ((enforce_one acc h).1 !! d).
Proof.
  intros Hd Hin. destruct acc as [files [[moved removed] created]].
  cbn [fst] in Hin. unfold enforce_one.
  pose proof (canonical_differs d (PyStr.strip h) Hd) as Hne.
  set (enc := canonicalize_href (PyStr.strip h)) in *.
  destruct (files !! enc) as [content|] eqn:Henc;
    destruct (files !! Url.unquote enc) as [content'|] eqn:Hdec; cbn [fst].
  - by rewrite lookup_delete_ne.
  - destruct (decide (Url.unquote enc = d)) as [-> | Hne'].
    + by rewrite lookup_insert_eq.
    + rewrite lookup_insert_ne by done. by rewrite lookup_delete_ne.
  - done.
  - destruct (decide (Url.unquote enc = d)) as [-> | Hne'].
    + by rewrite lookup_insert_eq.
    + by rewrite lookup_insert_ne.
Qed.

Lemma enforce_one_makes (acc : Files * (nat * nat * nat)) (h : string) :
  let d := Url.unquote (canonicalize_href (PyStr.strip h)) in
  canonicalize_href d ≠ d → is_Some ((enforce_one acc h).1 !! d).
Proof.
  cbn zeta. intros Hd. destruct acc as [files [[moved removed] created]].
  unfold enforce_one.
  pose proof (canonical_differs _ (PyStr.strip h) Hd) as Hne.
  set (enc := canonicalize_href (PyStr.strip h)) in *.
  destruct (files !! enc) as [content|] eqn:Henc;
    destruct (files !! Url.unquote enc) as [content'|] eqn:Hdec; cbn [fst].
  - rewrite lookup_delete_ne by done. by rewrite Hdec.
  - by rewrite lookup_insert_eq.
  - by rewrite Hdec.
  - by rewrite lookup_insert_eq.
Qed.

Lemma fold_enforce_keeps (hs : list string) (acc : Files * (nat * nat * nat)) (d : string) :
  canonicalize_href d ≠ d →
  is_Some (acc.1 !! d) → is_Some ((fold_left enforce_one hs acc).1 !! d).
Proof.
  intros Hd. revert acc. induction hs as [|h r IH]; intros acc Hin; [done|].
  cbn [fold_left]. apply IH. by apply enforce_one_keeps.
Qed.

Lemma fold_enforce_makes (hs : list string) (acc : Files * (nat * nat * nat)) (h : string) :
  let d := Url.unquote (canonicalize_href (PyStr.strip h)) in
  In h hs → canonicalize_href d ≠ d →
  is_Some ((fold_left enforce_one hs acc).1 !! d).
Proof.
  cbn zeta. intros Hin Hd. revert acc.
  induction hs as [|h' r IH]; intros acc; [done|].
  cbn [fold_left]. destruct Hin as [-> | Hin].
  - apply fold_enforce_keeps; [done|]. by apply enforce_one_makes.
  - by apply IH.
Qed.

Lemma in_sorted_hrefs (root : Element) (h : string) :
  In h (referenced_hrefs root) → In h (sorted_hrefs root).
Proof.
  intros Hin. unfold sorted_hrefs. apply list_elem_of_In.
  rewrite merge_sort_Permutation. apply elem_of_elements, elem_of_list_to_set.
  by apply list_elem_of_In.
Qed.

Lemma in_referenced_hrefs (root res : Element) :
  In res (ET.findall_desc "resource" root) →
  PyStr.nonempty (href_of res) = true →
  In (href_of res) (referenced_hrefs root).
Proof.
  intros Hres Hne. unfold referenced_hrefs. apply filter_In. split; [|done].
  apply in_flat_map. exists res. split; [done|]. by left.
Qed.

Lemma dedupe_one_keeps (acc : Files * nat) (rel d : string) :
  canonicalize_href d ≠ d →
  is_Some (acc.1 !! d) → is_Some ((dedupe_one acc rel).1 !! d).
Proof.
  intros Hd Hin. destruct acc as [files removed]. cbn [fst] in Hin.
  unfold dedupe_one. destruct (negb (exists_file files rel)); [done|].
  destruct (negb _ && _ && _); [|done]. cbn [fst].
  rewrite lookup_delete_ne; [done|]. by apply canonical_differs.
Qed.

Lemma dedupe_keeps (walk : list string) (files : Files) (d : string) :
  canonicalize_href d ≠ d →
  is_Some (files !! d) → is_Some ((dedupe_keep_decoded walk files).1 !! d).
Proof.
  intros Hd. unfold dedupe_keep_decoded. generalize 0 as n. revert files.
  induction walk as [|rel r IH]; intros files n Hin; [done|].
  cbn [fold_left].
  pose proof (dedupe_one_keeps (files, n) rel d Hd Hin) as Hstep.
  destruct (dedupe_one (files, n) rel) as [files' n']. by apply IH.
Qed.

End PayloadFacts.

Example repaired_payload_sample :
  let root := manifest_with_resource "docs/My Page.html" in
  let r := repair_payload (sample_externals [root]) "imsmanifest.xml" root
             {["imsmanifest.xml" := render root; "docs/My Page.html" := "<p>page</p>"]} in
  map (λ res, ET.get res "href") (ET.findall_desc "resource" r.1)
    = [Some "docs/My%20Page.html"] ∧
  r.2 !! "docs/My Page.html" = Some "<p>page</p>" ∧
  r.2 !! "docs/My%20Page.html" = None.
Proof. vm_compute. done. Qed.

(** The second case of [enforce_decoded_payload] does not compare the two
    paths, as [dedupe_keep_decoded] does: a reference that decodes to itself
    loses its payload. *)
Example plain_reference_loses_payload :
  let root := manifest_with_resource "index.html" in
  let r := repair_payload (sample_externals [root]) "imsmanifest.xml" root
             {["imsmanifest.xml" := render root; "index.html" := "<p>page</p>"]} in
  map (λ res, ET.get res "href") (ET.findall_desc "resource" r.1) = [Some "index.html"] ∧
  r.2 !! "index.html" = None.
Proof. vm_compute. done. Qed.

Lemma drop_resources_composable_witness :
  let root := manifest_with_resource "index.html" in
  drop_resources {["r2"]} (drop_resources {["r1"]} root)
  = drop_resources ({["r1"]} ∪ {["r2"]}) root ∧
  drop_resources {["r1"]} (drop_resources {["r1"]} root) = drop_resources {["r1"]} root.
Proof.
  apply (drop_resources_composable {["r1"]} {["r2"]} (manifest_with_resource "index.html")).
  vm_compute. reflexivity.
Defined.

Example drop_resources_sample :
  drop_resources {["r1"]} (manifest_with_resource "index.html")
  = Elem "manifest" [("identifier", "m1")] None
      [Elem "metadata" [] None
         [Elem "schema" [] (Some "IMS Common Cartridge") [];
          Elem "schemaversion" [] (Some "1.2.0") []];
       Elem "organizations" [] None [Elem "organization" [("identifier", "org1")] None []];
       Elem "resources" [] None []].
Proof. vm_compute. reflexivity. Qed.

(** ** The run *)

Section RunFacts.

Lemma match_marker_some (s m : string) :
  match_marker s = Some m → In m forbidden_markers ∧ PyStr.startswith s m = true.
Proof. apply find_some. Qed.

Lemma match_marker_none (s m : string) :
  match_marker s = None → In m forbidden_markers → PyStr.startswith s m = false.
Proof. intros Hnone Hin. by apply (find_none _ _ Hnone). Qed.

Lemma contains_tail (a : ascii) (r m : string) :
  PyStr.contains r m = true → PyStr.contains (String a r) m = true.
Proof. intros H. cbn [PyStr.contains]. rewrite H. apply orb_true_r. Qed.

Lemma contains_head (s m : string) :
  PyStr.startswith s m = true → PyStr.contains s m = true.
Proof. intros H. destruct s; cbn [PyStr.contains]; by rewrite H. Qed.

(** A match is an occurrence of a marker. *)
Lemma findall_markers_sound (text : string) :
  ∀ skip, findall_markers skip text ≠ [] →
  ∃ m, In m forbidden_markers ∧ PyStr.contains text m = true.
Proof.
  induction text as [|a r IH]; intros skip Hne; [done|].
  cbn [findall_markers] in Hne. destruct skip as [|k].
  - destruct (match_marker (String a r)) as [m|] eqn:Hm.
    + apply match_marker_some in Hm as [Hin Hstart].
      exists m. split; [done|]. by apply contains_head.
    + destruct (IH 0 Hne) as (m & Hin & Hc). exists m. split; [done|].
      by apply contains_tail.
  - destruct (IH k Hne) as (m & Hin & Hc). exists m. split; [done|].
    by apply contains_tail.
Qed.

(** An occurrence of a marker gives a match. *)
Lemma findall_markers_complete (text m : string) :
  In m forbidden_markers → PyStr.contains text m = true →
  findall_markers 0 text ≠ [].
Proof.
  intros Hin. induction text as [|a r IH]; intros Hc.
  - cbn in Hc. rewrite orb_false_r in Hc.
    destruct Hin as [<- | [<- | [<- | []]]]; done.
  - cbn [findall_markers].
    destruct (match_marker (String a r)) as [m'|] eqn:Hm; [done|].
    cbn [PyStr.contains] in Hc. rewrite (match_marker_none _ m Hm Hin) in Hc.
    by apply IH.
Qed.

(** The verifier raises exactly when a marker occurs in the text. *)
Lemma assert_no_v13_v12_uris_spec (text : string) :
  (∃ bad, assert_no_v13_v12_uris text = inl (ValueError "Leftover v1p3/v1p2 markers found" bad))
  ↔ (∃ m, In m forbidden_markers ∧ PyStr.contains text m = true).
Proof.
  unfold assert_no_v13_v12_uris. split.
  - intros [bad Hbad]. apply (findall_markers_sound text 0).
    by destruct (findall_markers 0 text).
  - intros (m & Hin & Hc). pose proof (findall_markers_complete text m Hin Hc) as Hne.
    destruct (findall_markers 0 text) as [|b bs]; [done|]. by eexists.
Qed.

Lemma assert_no_v13_v12_uris_ok (text : string) :
  assert_no_v13_v12_uris text = inr tt ↔
  (∀ m, In m forbidden_markers → PyStr.contains text m = false).
Proof.
  split.
  - intros Hok m Hin. apply not_true_is_false. intros Hc.
    assert (∃ bad, assert_no_v13_v12_uris text
                   = inl (ValueError "Leftover v1p3/v1p2 markers found" bad)) as [bad Hbad]
      by (apply assert_no_v13_v12_uris_spec; eauto).
    congruence.
  - intros Hnone. unfold assert_no_v13_v12_uris.
    destruct (findall_markers 0 text) as [|b bs] eqn:Hf; [done|].
    destruct (findall_markers_sound text 0) as (m & Hin & Hc); [by rewrite Hf|].
    by rewrite (Hnone m Hin) in Hc.
Qed.

Lemma startswith_nonempty (v p : string) :
  PyStr.nonempty p = true → PyStr.startswith v p = true → PyStr.nonempty v = true.
Proof. destruct p, v; done. Qed.

(** [detect_canvas_qti_artifacts] finds nothing exactly when no [file] entry
    and no resource that a dependency names is a Canvas QTI file, and no
    [assessment_qti.xml] that a [file] entry names exists. *)
Lemma detect_canvas_qti_artifacts_nothing (root : Element) (extracted : Files) :
  detect_canvas_qti_artifacts root extracted = inr false ↔
  List.filter is_non_cc_qti
    (map (λ f, PyStr.or_empty (ET.get f "href")) (ET.findall_desc "file" root)) = [] ∧
  dependency_reasons root (ET.findall_desc "dependency" root) = inr [] ∧
  List.filter (exists_file extracted)
    (List.filter (λ h, PyStr.endswith h "/assessment_qti.xml")
       (map (λ f, PyStr.or_empty (ET.get f "href")) (ET.findall_desc "file" root))) = [].
Proof.
  unfold detect_canvas_qti_artifacts.
  set (hrefs := map _ (ET.findall_desc "file" root)).
  destruct (dependency_reasons root (ET.findall_desc "dependency" root)) as [e|reasons2];
    cbn [bind_exc].
  { split; [done | by intros (_ & ? & _)]. }
  destruct (List.filter is_non_cc_qti hrefs) as [|r1 rs1] eqn:H1; cbn [app length Nat.eqb negb orb].
  - destruct reasons2 as [|r2 rs2]; cbn [app length Nat.eqb negb orb].
    + destruct (List.filter (exists_file extracted) _) as [|u us]; cbn; split; try done.
      * by intros (_ & _ & ?).
    + split; [done | by intros (_ & ? & _)].
  - split; [done | by intros (? & _)].
Qed.

(** What [process_cartridge] returns when the pass-through test holds. *)
Lemma process_cartridge_pass_through (X : Externals) (input_zip : Archive)
    (output_dir : string) (fallback : bool) (exclude_kinds : gset string)
    (manifest_path : string) (tree0 : Element) :
  locate_manifest X (members input_zip) = inr manifest_path →
  load_manifest X (members input_zip) manifest_path = inr tree0 →
  is_cc_1_0_or_1_1 (manifest_cc_version tree0) = true →
  detect_canvas_qti_artifacts tree0 (members input_zip) = inr false →
  process_cartridge X input_zip output_dir fallback exclude_kinds
  = inr (mkOutput output_dir input_zip).
Proof.
  intros Hloc Hload Hver Hdet. unfold process_cartridge.
  rewrite Hloc. cbn [bind_exc]. rewrite Hload. cbn [bind_exc].
  rewrite Hdet. cbn [bind_exc]. by rewrite Hver.
Qed.

(** What a run that returns has gone through. *)
Lemma process_cartridge_returns (X : Externals) (input_zip : Archive)
    (output_dir : string) (fallback : bool) (exclude_kinds : gset string) (out : Output) :
  process_cartridge X input_zip output_dir fallback exclude_kinds = inr out →
  (∃ manifest_path tree0,
     locate_manifest X (members input_zip) = inr manifest_path ∧
     load_manifest X (members input_zip) manifest_path = inr tree0 ∧
     is_cc_1_0_or_1_1 (manifest_cc_version tree0) = true ∧
     detect_canvas_qti_artifacts tree0 (members input_zip) = inr false ∧
     out = mkOutput output_dir input_zip) ∨
  (∃ manifest_path tree0 pkg manifest_text,
     convert_until_verifier X manifest_path tree0 (members input_zip) fallback exclude_kinds
       = inr pkg ∧
     files pkg !! "imsmanifest.xml" = Some manifest_text ∧
     assert_no_v13_v12_uris manifest_text = inr tt ∧
     convert_after_verifier X manifest_path input_zip output_dir pkg = inr out).
Proof.
  unfold process_cartridge. intros Hrun.
  destruct (locate_manifest X (members input_zip)) as [e|manifest_path] eqn:Hloc; [done|].
  cbn [bind_exc] in Hrun.
  destruct (load_manifest X (members input_zip) manifest_path) as [e|tree0] eqn:Hload; [done|].
  cbn [bind_exc] in Hrun.
  destruct (detect_canvas_qti_artifacts tree0 (members input_zip)) as [e|force] eqn:Hdet;
    [done|].
  cbn [bind_exc] in Hrun.
  destruct (is_cc_1_0_or_1_1 (manifest_cc_version tree0)) eqn:Hver;
    destruct force; cbn [andb negb] in Hrun.
  2:{ left. exists manifest_path, tree0. repeat split; congruence. }
  all: right;
    destruct (convert_until_verifier X manifest_path tree0 (members input_zip)
                fallback exclude_kinds) as [e|pkg] eqn:Hconv; [done|];
    cbn [bind_exc] in Hrun; unfold verify_markers in Hrun;
    destruct (files pkg !! "imsmanifest.xml") as [manifest_text|] eqn:Htext; [|done];
    destruct (assert_no_v13_v12_uris manifest_text) as [e|[]] eqn:Hassert; [done|];
    cbn [bind_exc] in Hrun; by exists manifest_path, tree0, pkg, manifest_text.
Qed.

(** A marker in the manifest that the verifier reads stops the run. *)
Lemma process_cartridge_rejects (X : Externals) (input_zip : Archive)
    (output_dir : string) (fallback : bool) (exclude_kinds : gset string)
    (manifest_path : string) (tree0 : Element) (force : bool) (pkg : Package)
    (manifest_text m : string) :
  locate_manifest X (members input_zip) = inr manifest_path →
  load_manifest X (members input_zip) manifest_path = inr tree0 →
  detect_canvas_qti_artifacts tree0 (members input_zip) = inr force →
  is_cc_1_0_or_1_1 (manifest_cc_version tree0) && negb force = false →
  convert_until_verifier X manifest_path tree0 (members input_zip) fallback exclude_kinds
    = inr pkg →
  files pkg !! "imsmanifest.xml" = Some manifest_text →
  In m forbidden_markers → PyStr.contains manifest_text m = true →
  ∃ bad, process_cartridge X input_zip output_dir fallback exclude_kinds
         = inl (ValueError "Leftover v1p3/v1p2 markers found" bad).
Proof.
  intros Hloc Hload Hdet Hgate Hconv Htext Hin Hc. unfold process_cartridge.
  rewrite Hloc. cbn [bind_exc]. rewrite Hload. cbn [bind_exc].
  rewrite Hdet. cbn [bind_exc]. rewrite Hgate, Hconv. cbn [bind_exc].
  unfold verify_markers. rewrite Htext.
  destruct (proj2 (assert_no_v13_v12_uris_spec manifest_text)) as [bad Hbad]; [eauto|].
  rewrite Hbad. cbn [bind_exc]. by exists bad.
Qed.

End RunFacts.

(** C10. When the manifest declares a version that starts with [1.0] or
    [1.1] and [detect_canvas_qti_artifacts] finds nothing, [process_cartridge]
    returns the input archive itself, under its own name, in the output
    directory. None of the passes runs: the result is the same whatever the
    passes would do, also if they would raise. *)
Theorem pass_through_returns_input (X : Externals) (input_zip : Archive)
    (output_dir : string) (fallback : bool) (exclude_kinds : gset string)
    (manifest_path : string) (tree0 : Element) (ver : string) :
  locate_manifest X (members input_zip) = inr manifest_path →
  load_manifest X (members input_zip) manifest_path = inr tree0 →
  manifest_cc_version tree0 = Some ver →
  PyStr.startswith ver "1.0" = true ∨ PyStr.startswith ver "1.1" = true →
  detect_canvas_qti_artifacts tree0 (members input_zip) = inr false →
  process_cartridge X input_zip output_dir fallback exclude_kinds
  = inr (mkOutput output_dir input_zip).
Proof.
  intros Hloc Hload Hver Hstart Hdet.
  apply (process_cartridge_pass_through _ _ _ _ _ manifest_path tree0); try done.
  rewrite Hver. cbn [is_cc_1_0_or_1_1].
  destruct Hstart as [H | H].
  - by rewrite H, (startswith_nonempty ver "1.0" eq_refl H).
  - rewrite H, (startswith_nonempty ver "1.1" eq_refl H). by rewrite orb_true_r.
Qed.

Lemma pass_through_returns_input_witness :
  process_cartridge (sample_externals [cc11_manifest]) cc11_archive "out" true {["qti"]}
  = inr (mkOutput "out" cc11_archive).
Proof.
  apply (pass_through_returns_input (sample_externals [cc11_manifest]) cc11_archive
           "out" true {["qti"]} "imsmanifest.xml" cc11_manifest "1.1.0").
  - by vm_compute.
  - by vm_compute.
  - by vm_compute.
  - right. by vm_compute.
  - by vm_compute.
Defined.

(** * Further properties of the passes *)

Section CanonFacts.
Import PyStr Url.

Lemma quote_byte_form (a : ascii) (r : string) :
  canonical_form (quote_byte "/-_.~" a r) = canonical_form r.
Proof.
  destruct a as [[] [] [] [] [] [] [] []]; reflexivity.
Qed.

Lemma quote_form (u : string) : canonical_form (quote "/-_.~" u) = true.
Proof.
  induction u as [|a u IH]; [reflexivity|].
  cbn [quote]. rewrite quote_byte_form. exact IH.
Qed.

Lemma canonical_form_no_space (s : string) :
  ∀ n, String.length s ≤ n → canonical_form s = true → no_space s = true.
Proof.
  intros n. revert s. induction n as [|n IH]; intros s Hn H.
  - destruct s; [reflexivity | cbn in Hn; lia].
  - destruct s as [|a r]; [reflexivity|].
    cbn [canonical_form] in H. cbn [no_space].
    destruct (Ascii.eqb a "%") eqn:Ea.
    + apply Ascii.eqb_eq in Ea. subst a.
      destruct r as [|h [|l r']]; try discriminate.
      apply andb_prop in H as [H H3]. apply andb_prop in H as [H1 H2].
      cbn in Hn.
      assert (no_space r' = true) as Hr by (apply IH; [lia | exact H3]).
      cbn [no_space]. rewrite Hr.
      assert (∀ c, is_upper_hexdig c = true → is_space c = false) as Hx.
      { intros c. destruct c as [[] [] [] [] [] [] [] []]; vm_compute; congruence. }
      rewrite (Hx h H1), (Hx l H2). reflexivity.
    + apply andb_prop in H as [H1 H2]. cbn in Hn.
      rewrite (IH r) by (lia || assumption).
      assert (∀ c, always_safe c || Ascii.eqb c "/" = true → is_space c = false) as Hx.
      { intros c. destruct c as [[] [] [] [] [] [] [] []]; vm_compute; congruence. }
      rewrite (Hx a H1). reflexivity.
Qed.

Lemma rstrip_no_space (s : string) : no_space s = true → rstrip s = s.
Proof.
  induction s as [|a r IH]; [reflexivity|].
  cbn [no_space rstrip]. intros H. apply andb_prop in H as [Ha Hr].
  rewrite (IH Hr). apply negb_true_iff in Ha. rewrite Ha.
  destruct r; reflexivity.
Qed.

Lemma strip_no_space (s : string) : no_space s = true → strip s = s.
Proof.
  intros H. unfold strip.
  assert (lstrip s = s) as ->.
  { destruct s as [|a r]; [reflexivity|]. cbn [no_space] in H.
    apply andb_prop in H as [Ha _]. apply negb_true_iff in Ha.
    cbn [lstrip]. rewrite Ha. reflexivity. }
  apply rstrip_no_space, H.
Qed.

Lemma strip_canonicalize_href (h : string) :
  strip (canonicalize_href h) = canonicalize_href h.
Proof.
  apply strip_no_space.
  apply (canonical_form_no_space _ (String.length (canonicalize_href h))); [lia|].
  apply quote_form.
Qed.

End CanonFacts.

(** X1. The canonical form of a reference decodes to what the reference
    decodes to, and two references have the same canonical form exactly
    when they decode to the same path. *)
Theorem canonicalize_href_decodes_alike :
  (∀ h, Url.unquote (canonicalize_href h) = Url.unquote h) ∧
  (∀ x y, canonicalize_href x = canonicalize_href y ↔ Url.unquote x = Url.unquote y).
Proof.
  split; [apply unquote_canonicalize_href|].
  intros x y. split; intros H.
  - rewrite <- (unquote_canonicalize_href x), <- (unquote_canonicalize_href y).
    now rewrite H.
  - unfold canonicalize_href. now rewrite H.
Qed.

(** X2. [canonicalize_href] writes unreserved characters, slashes and
    upper-case escapes only. Its result holds no white space, so that the
    [strip] of the loops that read it back changes nothing. *)
Theorem canonicalize_href_alphabet (h : string) :
  canonical_form (canonicalize_href h) = true ∧
  no_space (canonicalize_href h) = true ∧
  PyStr.strip (canonicalize_href h) = canonicalize_href h.
Proof.
  assert (canonical_form (canonicalize_href h) = true) as H by apply quote_form.
  split; [exact H|]. split.
  - apply (canonical_form_no_space _ (String.length (canonicalize_href h))); [lia | exact H].
  - apply strip_canonicalize_href.
Qed.

Section AlignFacts.

Lemma dict_get_set (k v : string) (a : list (string * string)) :
  ET.dict_get k (ET.dict_set k v a) = Some v.
Proof.
  induction a as [|[k' v'] r IH]; cbn.
  - by rewrite String.eqb_refl.
  - destruct (String.eqb k k') eqn:E; cbn; rewrite ?String.eqb_refl, ?E; done.
Qed.

Lemma dict_get_set_ne (k k' v : string) (a : list (string * string)) :
  k ≠ k' → ET.dict_get k' (ET.dict_set k v a) = ET.dict_get k' a.
Proof.
  intros Hne. induction a as [|[k0 v0] r IH]; cbn.
  - destruct (String.eqb_spec k' k); congruence.
  - destruct (String.eqb_spec k k0) as [<- | H0]; cbn.
    + destruct (String.eqb_spec k' k); congruence.
    + destruct (String.eqb_spec k' k0); congruence.
Qed.

Lemma href_of_set (e : Element) (enc : string) :
  href_of (ET.set e "href" enc) = PyStr.strip enc.
Proof. unfold href_of, ET.get, ET.set. cbn [ET.attrib]. by rewrite dict_get_set. Qed.

Lemma matches_name (name : string) (e : Element) :
  ET.after_last_brace name = None → ET.matches name e = true →
  ET.rsplit_localname (ET.tag e) = name.
Proof.
  intros Hn H. unfold ET.matches in H. apply orb_prop in H as [H | H].
  - apply String.eqb_eq in H. unfold ET.rsplit_localname. by rewrite H, Hn.
  - apply endswith_app in H as [pre ->]. unfold ET.rsplit_localname.
    by rewrite after_last_brace_app.
Qed.

Lemma matches_exclusive (a b : string) (e : Element) :
  ET.after_last_brace a = None → ET.after_last_brace b = None → a ≠ b →
  ET.matches a e = true → ET.matches b e = false.
Proof.
  intros Ha Hb Hne H. destruct (ET.matches b e) eqn:E; [|done].
  apply (matches_name a e Ha) in H. apply (matches_name b e Hb) in E. congruence.
Qed.

Lemma in_update_first (p : Element → bool) (g : Element → Element)
    (l : list Element) (k : Element) :
  In k (ET.update_first p g l) → In k l ∨ ∃ f, In f l ∧ p f = true ∧ k = g f.
Proof.
  induction l as [|c r IH]; cbn; [done|].
  destruct (p c) eqn:E; cbn.
  - intros [<- | H]; [right; exists c; auto | left; auto].
  - intros [<- | H]; [left; auto|].
    destruct (IH H) as [H' | (f & Hf & Hp & ->)]; [left; auto|].
    right. exists f. auto.
Qed.

Lemma in_drop_extra_files (enc : string) (cs : list Element) (k : Element) :
  ∀ first, In k (drop_extra_files enc first cs) → In k cs.
Proof.
  induction cs as [|c r IH]; intros first; cbn; [done|].
  destruct (ET.matches "file" c).
  - destruct (first || String.eqb (href_of c) enc); cbn.
    + intros [<- | H]; [auto | right; eauto].
    + intros H. right. eauto.
  - cbn. intros [<- | H]; [auto | right; eauto].
Qed.

Lemma align_resource_children (y k : Element) :
  In k (ET.children (align_resource y)) →
  In k (ET.children y) ∨
  (∃ f enc, In f (ET.children y) ∧ ET.matches "file" f = true ∧ k = ET.set f "href" enc) ∨
  (∃ enc, k = new_file enc).
Proof.
  unfold align_resource.
  destruct (negb (PyStr.nonempty (href_of y))); [auto|].
  set (enc := canonicalize_href (href_of y)).
  set (res1 := if String.eqb enc (href_of y) then y else ET.set y "href" enc).
  assert (ET.children res1 = ET.children y) as Hc.
  { unfold res1. destruct (String.eqb enc (href_of y)); [done|]. by destruct y. }
  cbn [ET.children ET.set_children]. intros H.
  apply in_drop_extra_files in H.
  destruct (ET.find_child "file" res1).
  - apply in_update_first in H as [H | (f & Hf & Hp & ->)].
    + left. by rewrite <- Hc.
    + right. left. exists f, enc. by rewrite <- Hc.
  - apply in_app_or in H as [H | [<- | []]].
    + left. by rewrite <- Hc.
    + right. right. by exists enc.
Qed.

Lemma align_resource_tag (y : Element) : ET.tag (align_resource y) = ET.tag y.
Proof.
  unfold align_resource. destruct (negb _); [done|].
  cbn [ET.set_children ET.tag]. destruct (String.eqb _ _); by destruct y.
Qed.

Lemma update_all_tag (p : Element → bool) (g : Element → Element) (e : Element) :
  ET.tag (ET.update_all p g e) = ET.tag e.
Proof. by destruct e. Qed.

Lemma update_all_attrib (p : Element → bool) (g : Element → Element) (e : Element) :
  ET.attrib (ET.update_all p g e) = ET.attrib e.
Proof. by destruct e. Qed.

Lemma descendants_set (f : Element) (k v : string) :
  ET.descendants (ET.set f k v) = ET.descendants f.
Proof. by destruct f. Qed.

(** Every resource of the normalized manifest is an aligned resource, and
    its attributes before the alignment are those of a resource of the
    manifest as it was. *)
Lemma normalized_resources (e d : Element) :
  In d (ET.descendants (ET.update_all (ET.matches "resource") align_resource e)) →
  ET.matches "resource" d = true →
  ∃ y d0, In d0 (ET.findall_desc "resource" e) ∧ ET.attrib y = ET.attrib d0 ∧
          d = align_resource y.
Proof.
  revert d. induction e as [t a x cs IH] using ET.Element_tree_ind. intros d Hd Hm.
  unfold ET.descendants in Hd. cbn [ET.update_all ET.children] in Hd.
  apply in_flat_map in Hd as (k & Hk & Hd).
  apply in_map_iff in Hk as (c' & <- & Hk).
  apply in_map_iff in Hk as (c & <- & Hc).
  rewrite List.Forall_forall in IH. specialize (IH c Hc).
  set (U := ET.update_all (ET.matches "resource") align_resource) in *.
  assert (∀ d, In d (ET.descendants (U c)) → ET.matches "resource" d = true →
               ∃ y d0, In d0 (ET.findall_desc "resource" (Elem t a x cs)) ∧
                       ET.attrib y = ET.attrib d0 ∧ d = align_resource y) as IH'.
  { intros d' Hd' Hm'. destruct (IH d' Hd' Hm') as (y & d0 & H0 & Ha & ->).
    exists y, d0. split; [|done].
    apply in_findall_desc in H0 as [H0 H1]. apply in_findall_desc. split; [|done].
    apply in_descendants. exists c. split; [done|]. apply in_iter. by right. }
  destruct (ET.matches "resource" (U c)) eqn:Ec.
  - apply in_iter in Hd as [-> | Hd].
    + exists (U c), c. split; [|split; [apply update_all_attrib | done]].
      apply in_findall_desc. split.
      * apply in_descendants. exists c. split; [done | apply in_iter_self].
      * erewrite matches_shape; [exact Ec | symmetry; apply update_all_tag].
    + apply in_descendants in Hd as (k & Hk & Hd).
      apply align_resource_children in Hk as [Hk | [(f & enc & Hf & Hp & ->) | (enc & ->)]].
      * apply IH'; [|done]. apply in_descendants. eauto.
      * apply in_iter in Hd as [-> | Hd].
        -- assert (ET.matches "resource" f = false) as Hf'
             by (by apply (matches_exclusive "file" "resource")).
           rewrite (matches_shape "resource" (ET.set f "href" enc) f) in Hm
             by (by destruct f). congruence.
        -- rewrite descendants_set in Hd. apply IH'; [|done].
           apply in_descendants. exists f. split; [done|]. apply in_iter. by right.
      * destruct Hd as [<- | []]. discriminate Hm.
  - apply in_iter in Hd as [-> | Hd]; [congruence|]. by apply IH'.
Qed.

Lemma head_filter_update_first (p : Element → bool) (g : Element → Element)
    (l : list Element) :
  (∀ c, p (g c) = p c) →
  head (List.filter p (ET.update_first p g l)) = g <$> head (List.filter p l).
Proof.
  intros Hp. induction l as [|c r IH]; cbn; [done|].
  destruct (p c) eqn:E; cbn.
  - by rewrite Hp, E.
  - by rewrite E.
Qed.

Lemma drop_extra_files_rest (enc : string) (cs : list Element) :
  Forall (λ f, href_of f = enc)
         (List.filter (ET.matches "file") (drop_extra_files enc false cs)).
Proof.
  induction cs as [|c r IH]; cbn; [constructor|].
  destruct (ET.matches "file" c) eqn:E.
  - destruct (String.eqb_spec (href_of c) enc) as [He | He]; cbn.
    + rewrite E. by constructor.
    + done.
  - cbn. by rewrite E.
Qed.

Lemma drop_extra_files_first (enc : string) (cs : list Element) :
  (∀ f, head (List.filter (ET.matches "file") cs) = Some f → href_of f = enc) →
  Forall (λ f, href_of f = enc)
         (List.filter (ET.matches "file") (drop_extra_files enc true cs)).
Proof.
  induction cs as [|c r IH]; cbn; [constructor|].
  destruct (ET.matches "file" c) eqn:E; cbn; rewrite E.
  - intros H. constructor; [by apply H | apply drop_extra_files_rest].
  - done.
Qed.

Lemma drop_extra_files_nonempty (enc : string) (cs : list Element) :
  List.filter (ET.matches "file") cs ≠ [] →
  List.filter (ET.matches "file") (drop_extra_files enc true cs) ≠ [].
Proof.
  induction cs as [|c r IH]; cbn; [done|].
  destruct (ET.matches "file" c) eqn:E; cbn; rewrite E; done.
Qed.

Lemma href_of_attrib (a b : Element) : ET.attrib a = ET.attrib b → href_of a = href_of b.
Proof. unfold href_of, ET.get. by intros ->. Qed.

(** What the alignment leaves of a resource that has a reference. *)
Lemma align_resource_spec (y : Element) :
  PyStr.nonempty (href_of y) = true →
  href_of (align_resource y) = canonicalize_href (href_of y) ∧
  ET.findall_child "file" (align_resource y) ≠ [] ∧
  Forall (λ f, href_of f = canonicalize_href (href_of y))
         (ET.findall_child "file" (align_resource y)).
Proof.
  intros Hne. unfold align_resource. rewrite Hne. cbn [negb].
  set (enc := canonicalize_href (href_of y)).
  set (res1 := if String.eqb enc (href_of y) then y else ET.set y "href" enc).
  assert (href_of res1 = enc) as Hh.
  { unfold res1. destruct (String.eqb_spec enc (href_of y)) as [He | He]; [done|].
    rewrite href_of_set. apply strip_canonicalize_href. }
  assert (∀ f, ET.matches "file" (ET.set f "href" enc) = ET.matches "file" f) as Hp
    by (intros f; by destruct f).
  split; [|split].
  - rewrite <- Hh. by apply href_of_attrib.
  - unfold ET.findall_child. cbn [ET.children ET.set_children].
    apply drop_extra_files_nonempty. unfold ET.find_child, ET.findall_child.
    destruct (head (List.filter (ET.matches "file") (ET.children res1))) as [f0|] eqn:Eh.
    + intros Hnil.
      pose proof (head_filter_update_first (ET.matches "file")
                    (λ f, ET.set f "href" enc) (ET.children res1) Hp) as H.
      rewrite Hnil, Eh in H. done.
    + rewrite List.filter_app. cbn. by destruct (List.filter _ (ET.children res1)).
  - unfold ET.findall_child. cbn [ET.children ET.set_children].
    apply drop_extra_files_first. intros f. unfold ET.find_child, ET.findall_child.
    destruct (head (List.filter (ET.matches "file") (ET.children res1))) as [f0|] eqn:Eh.
    + rewrite head_filter_update_first by done. rewrite Eh. cbn.
      intros [= <-]. rewrite href_of_set. apply strip_canonicalize_href.
    + rewrite List.filter_app. cbn.
      destruct (List.filter _ (ET.children res1)); [|done]. cbn.
      intros [= <-]. apply strip_canonicalize_href.
Qed.

Lemma align_resource_href (y : Element) :
  PyStr.nonempty (href_of (align_resource y)) = true →
  PyStr.nonempty (href_of y) = true.
Proof.
  destruct (PyStr.nonempty (href_of y)) eqn:E; [done|].
  unfold align_resource. rewrite E. cbn [negb]. by rewrite E.
Qed.

(** The payload half. *)
Lemma ensure_encoded_grows (files : Files) (res : Element) :
  let r := ensure_encoded files res in
  files ⊆ r.1 ∧
  size r.1 = size files + (if r.2 then 1 else 0) ∧
  (PyStr.nonempty (href_of res) = true →
   is_Some (r.1 !! canonicalize_href (href_of res))).
Proof.
  cbn zeta. unfold ensure_encoded.
  destruct (PyStr.nonempty (href_of res)) eqn:Hne; cbn [negb].
  2: { cbn. split; [done|]. split; [lia | done]. }
  set (enc := canonicalize_href (href_of res)).
  unfold exists_file. case_bool_decide as Hex.
  - cbn. split; [done|]. split; [lia | done].
  - assert (files !! enc = None) as Hnone by (by apply eq_None_not_Some).
    destruct (omap _ _) as [|content ?]; cbn [fst snd].
    + split; [by apply insert_subseteq|]. split.
      * rewrite map_size_insert_None by done. lia.
      * intros _. by rewrite lookup_insert_eq.
    + split; [by apply insert_subseteq|]. split.
      * rewrite map_size_insert_None by done. lia.
      * intros _. by rewrite lookup_insert_eq.
Qed.

Lemma fold_ensure_encoded (resources : list Element) (acc : Files * nat) :
  let r := fold_left ensure_step resources acc in
  acc.1 ⊆ r.1 ∧
  size r.1 + acc.2 = size acc.1 + r.2 ∧
  Forall (λ res, PyStr.nonempty (href_of res) = true →
                 is_Some (r.1 !! canonicalize_href (href_of res))) resources.
Proof.
  revert acc. induction resources as [|res rest IH]; intros acc; cbn zeta.
  - cbn. split; [done|]. split; [lia | constructor].
  - cbn [fold_left].
    destruct (ensure_encoded_grows acc.1 res) as (H1 & H2 & H3).
    destruct (IH (ensure_step acc res)) as (I1 & I2 & I3).
    unfold ensure_step in *.
    destruct (ensure_encoded acc.1 res) as [fs created]. cbn [fst snd] in *.
    split; [by etrans|]. split.
    + destruct created; lia.
    + constructor; [|done]. intros Hne. destruct (H3 Hne) as [content Hc].
      exists content. eapply lookup_weaken; eauto.
Qed.

End AlignFacts.

(** X3. [normalize_resource_hrefs] only adds files: the payload it leaves
    extends the one it found, by as many files as [created_files] counts,
    and every resource of the manifest it leaves that has a reference has a
    file at that reference. *)
Theorem normalize_resource_hrefs_payload (root : Element) (files : Files) :
  let r := normalize_resource_hrefs root files in
  files ⊆ r.1.2 ∧
  size r.1.2 = size files + r.2.2 ∧
  Forall (λ res, PyStr.nonempty (href_of res) = true → is_Some (r.1.2 !! href_of res))
         (ET.findall_desc "resource" r.1.1).
Proof.
  cbn zeta. unfold normalize_resource_hrefs.
  pose proof (fold_ensure_encoded (ET.findall_desc "resource" root) (files, 0)) as H.
  cbn zeta in H. unfold ensure_step in H.
  destruct (fold_left _ (ET.findall_desc "resource" root) (files, 0)) as [files' created].
  cbn [fst snd] in *. destruct H as (H1 & H2 & H3).
  split; [done|]. split; [lia|].
  apply List.Forall_forall. intros res Hres Hne.
  apply in_findall_desc in Hres as [Hres Hm].
  destruct (normalized_resources root res Hres Hm) as (y & d0 & Hd0 & Ha & ->).
  pose proof (align_resource_href y Hne) as Hy.
  destruct (align_resource_spec y Hy) as (-> & _ & _).
  rewrite (href_of_attrib y d0 Ha) in Hy |- *.
  rewrite List.Forall_forall in H3. by apply H3.
Qed.

(** X4. After [normalize_resource_hrefs] the reference of every resource
    that has one is canonical, the resource has a [file] child, and all of
    its [file] children carry the reference of the resource. *)
Theorem normalize_resource_hrefs_aligned (root : Element) (files : Files) :
  Forall (λ res, PyStr.nonempty (href_of res) = true →
            canonicalize_href (href_of res) = href_of res ∧
            ET.findall_child "file" res ≠ [] ∧
            Forall (λ f, href_of f = href_of res) (ET.findall_child "file" res))
    (ET.findall_desc "resource" (normalize_resource_hrefs root files).1.1).
Proof.
  unfold normalize_resource_hrefs.
  destruct (fold_left _ (ET.findall_desc "resource" root) (files, 0)) as [files' created].
  cbn [fst snd]. apply List.Forall_forall. intros res Hres Hne.
  apply in_findall_desc in Hres as [Hres Hm].
  destruct (normalized_resources root res Hres Hm) as (y & d0 & Hd0 & Ha & ->).
  pose proof (align_resource_href y Hne) as Hy.
  destruct (align_resource_spec y Hy) as (-> & H2 & H3).
  split; [apply canonicalize_href_idem | done].
Qed.

Section PlainFacts.
Context (p : string).
Hypothesis p_canonical : canonicalize_href p = p.
Hypothesis p_plain : Url.unquote p = p.

(** A reference with another canonical form neither reads nor writes [p]. *)
Lemma enforce_one_other (acc : Files * (nat * nat * nat)) (h : string) :
  canonicalize_href (PyStr.strip h) ≠ p →
  (enforce_one acc h).1 !! p = acc.1 !! p.
Proof.
  intros Hne. destruct acc as [files [[moved removed] created]].
  unfold enforce_one. set (enc := canonicalize_href (PyStr.strip h)) in *.
  assert (Url.unquote enc ≠ p) as Hdec.
  { intros Hd. apply Hne. unfold enc in *.
    rewrite unquote_canonicalize_href in Hd.
    unfold canonicalize_href at 1. rewrite Hd.
    rewrite <- p_plain at 1. exact p_canonical. }
  destruct (files !! enc); destruct (files !! Url.unquote enc); cbn [fst].
  - by rewrite lookup_delete_ne.
  - rewrite lookup_insert_ne by done. by rewrite lookup_delete_ne.
  - done.
  - by rewrite lookup_insert_ne.
Qed.

(** A reference with the canonical form [p] deletes what is at [p], or puts
    a placeholder there when nothing is. *)
Lemma enforce_one_plain (acc : Files * (nat * nat * nat)) (h : string) :
  canonicalize_href (PyStr.strip h) = p → lost p (enforce_one acc h).1.
Proof.
  intros He. destruct acc as [files [[moved removed] created]].
  unfold enforce_one, lost. rewrite He, p_plain.
  destruct (files !! p) eqn:E; cbn [fst].
  - left. apply lookup_delete_eq.
  - right. apply lookup_insert_eq.
Qed.

Lemma enforce_one_lost (acc : Files * (nat * nat * nat)) (h : string) :
  lost p acc.1 → lost p (enforce_one acc h).1.
Proof.
  intros H. destruct (decide (canonicalize_href (PyStr.strip h) = p)) as [He | He].
  - by apply enforce_one_plain.
  - unfold lost. by rewrite enforce_one_other.
Qed.

Lemma fold_enforce_lost (hs : list string) (acc : Files * (nat * nat * nat)) :
  lost p acc.1 → lost p (fold_left enforce_one hs acc).1.
Proof.
  revert acc. induction hs as [|h r IH]; intros acc H; [done|].
  cbn [fold_left]. by apply IH, enforce_one_lost.
Qed.

Lemma fold_enforce_plain (hs : list string) (acc : Files * (nat * nat * nat)) (h : string) :
  In h hs → canonicalize_href (PyStr.strip h) = p →
  lost p (fold_left enforce_one hs acc).1.
Proof.
  intros Hin He. revert acc. induction hs as [|h' r IH]; intros acc; [done|].
  cbn [fold_left]. destruct Hin as [-> | Hin].
  - by apply fold_enforce_lost, enforce_one_plain.
  - by apply IH.
Qed.

End PlainFacts.

Section DedupeFacts.

Lemma dedupe_one_spec (acc : Files * nat) (rel : string) :
  let r := dedupe_one acc rel in
  r.1 ⊆ acc.1 ∧
  size r.1 + r.2 = size acc.1 + acc.2 ∧
  ∀ q, is_Some (acc.1 !! q) → r.1 !! q = None → encoded_twin acc.1 q.
Proof.
  cbn zeta. destruct acc as [files removed]. unfold dedupe_one.
  destruct (negb (exists_file files rel)).
  { cbn. split; [done|]. split; [done|]. intros q [c Hc] Hq. congruence. }
  set (enc := canonicalize_href rel).
  destruct (negb (String.eqb enc (Url.unquote enc)) && exists_file files enc
            && exists_file files (Url.unquote enc)) eqn:E; cbn [fst snd].
  - apply andb_prop in E as [E E3]. apply andb_prop in E as [E1 E2].
    apply negb_true_iff, String.eqb_neq in E1.
    unfold exists_file in E2, E3.
    apply bool_decide_eq_true in E2. apply bool_decide_eq_true in E3.
    split; [apply delete_subseteq|]. split.
    + rewrite map_size_delete_Some by done.
      pose proof (map_size_ne_0_lookup_2 files enc E2) as Hs. lia.
    + intros q Hq Hnone.
      destruct (decide (enc = q)) as [<- | Hne].
      * split; [apply canonicalize_href_idem|]. split; [congruence | done].
      * rewrite lookup_delete_ne in Hnone by done. destruct Hq as [c Hc]. congruence.
  - split; [done|]. split; [done|]. intros q [c Hc] Hq. congruence.
Qed.

Lemma fold_dedupe_spec (walk : list string) (acc : Files * nat) :
  let r := fold_left dedupe_one walk acc in
  r.1 ⊆ acc.1 ∧
  size r.1 + r.2 = size acc.1 + acc.2 ∧
  ∀ q, is_Some (acc.1 !! q) → r.1 !! q = None → encoded_twin acc.1 q.
Proof.
  revert acc. induction walk as [|rel rest IH]; intros acc; cbn zeta.
  - cbn. split; [done|]. split; [done|]. intros q [c Hc] Hq. congruence.
  - cbn [fold_left].
    destruct (dedupe_one_spec acc rel) as (H1 & H2 & H3).
    destruct (IH (dedupe_one acc rel)) as (I1 & I2 & I3).
    split; [by etrans|]. split; [lia|].
    intros q Hq Hnone.
    destruct ((dedupe_one acc rel).1 !! q) as [c|] eqn:Eq.
    + destruct (I3 q (ltac:(eauto)) Hnone) as (T1 & T2 & [c' T3]).
      split; [done|]. split; [done|]. exists c'. eapply lookup_weaken; eauto.
    + by apply H3.
Qed.

End DedupeFacts.

(** X5. A resource whose canonical reference holds no escape loses its
    payload in [enforce_decoded_payload]: the encoded and the decoded path
    are the same path, and the second case of the loop, which does not
    compare them, deletes the file as a duplicate of itself. Afterwards
    nothing is at the path, or the placeholder is, when another reference
    with the same canonical form came by. *)
Theorem enforce_decoded_payload_plain_reference
    (root : Element) (files : Files) (res : Element) :
  In res (ET.findall_desc "resource" root) →
  PyStr.nonempty (href_of res) = true →
  Url.unquote (canonicalize_href (href_of res)) = canonicalize_href (href_of res) →
  let p := canonicalize_href (href_of res) in
  let files' := (enforce_decoded_payload root files).1 in
  files' !! p = None ∨ files' !! p = Some (placeholder_missing_asset p).
Proof.
  intros Hres Hne Hplain. cbn zeta. unfold enforce_decoded_payload.
  apply (fold_enforce_plain (canonicalize_href (href_of res))
           (canonicalize_href_idem _) Hplain _ _ (href_of res)).
  - apply in_sorted_hrefs. by apply in_referenced_hrefs.
  - by rewrite strip_href_of.
Qed.

Lemma enforce_decoded_payload_plain_reference_witness :
  let root := manifest_with_resource "index.html" in
  let files' := (enforce_decoded_payload root {["index.html" := "<p>page</p>"]}).1 in
  files' !! "index.html" = None ∨
  files' !! "index.html" = Some (placeholder_missing_asset "index.html").
Proof.
  apply (enforce_decoded_payload_plain_reference
           (manifest_with_resource "index.html") {["index.html" := "<p>page</p>"]}
           (Elem "resource"
              [("identifier", "r1"); ("type", "webcontent"); ("href", "index.html")] None
              [Elem "file" [("href", "index.html")] None []])).
  - vm_compute. auto.
  - reflexivity.
  - reflexivity.
Defined.

(** X6. [dedupe_keep_decoded] only removes files, as many as it counts; a
    file it removes is at a canonical reference that differs from its
    decoding, and a file of the package was at the decoded path. *)
Theorem dedupe_keep_decoded_removes_encoded_twins (walk : list string) (files : Files) :
  let r := dedupe_keep_decoded walk files in
  r.1 ⊆ files ∧
  size files = size r.1 + r.2 ∧
  ∀ q, is_Some (files !! q) → r.1 !! q = None → encoded_twin files q.
Proof.
  cbn zeta. unfold dedupe_keep_decoded.
  destruct (fold_dedupe_spec walk (files, 0)) as (H1 & H2 & H3). cbn [fst snd] in *.
  split; [done|]. split; [lia | done].
Qed.

Section FixpointFacts.
Context (valid : gset string).

Lemma is_item_pruned (c : Element) (n : nat * nat) :
  is_item (prune_item_children valid c n).1 = is_item c.
Proof. unfold is_item. by rewrite prune_item_children_tag. Qed.

(** A list of children that was pruned is pruned: every item that was kept
    passes the two tests again, and nothing is counted. *)
Lemma prune_each_fixpoint (cs : list Element) :
  Forall (λ c, ∀ n m, prune_item_children valid (prune_item_children valid c n).1 m
                      = ((prune_item_children valid c n).1, m)) cs →
  ∀ n m,
    prune_each valid (prune_item_children valid)
      (prune_each valid (prune_item_children valid) cs n).1 m
    = ((prune_each valid (prune_item_children valid) cs n).1, m).
Proof.
  induction 1 as [|c rest Hc Hrest IH]; intros n m; [done|].
  cbn [prune_each]. destruct (is_item c) eqn:Ei.
  - destruct (prune_item_children valid c n) as [c' n1] eqn:Ec.
    assert (c' = (prune_item_children valid c n).1) as Hc' by (by rewrite Ec).
    destruct (PyStr.nonempty (item_ref c') && negb (bool_decide (item_ref c' ∈ valid)))
      eqn:E1; [apply IH|].
    destruct (negb (PyStr.nonempty (item_ref c')) && negb (has_item_child c'))
      eqn:E2; [apply IH|].
    specialize (IH n1 m).
    destruct (prune_each valid (prune_item_children valid) rest n1) as [rest' n2].
    cbn [fst] in *. cbn [prune_each].
    assert (is_item c' = true) as -> by (by rewrite Hc', is_item_pruned).
    rewrite Hc', Hc, <- Hc'. rewrite E1, E2, IH. done.
  - specialize (IH n m).
    destruct (prune_each valid (prune_item_children valid) rest n) as [rest' n2].
    cbn [fst] in *. cbn [prune_each]. by rewrite Ei, IH.
Qed.

End FixpointFacts.

Section ReferenceFacts.

Lemma remove_items_as_prune (ids : gset string) (e : Element) :
  remove_items_referring_to ids e = prune_organization_items ids true e.
Proof.
  induction e as [t a x cs IH] using ET.Element_tree_ind.
  rewrite List.Forall_forall in IH.
  cbn [remove_items_referring_to prune_organization_items orb]. f_equal.
  apply retain_ext_in; [done | exact IH].
Qed.

Lemma unlink_union (A B : gset string) (c : Element) :
  unlink B (unlink A c) = unlink (A ∪ B) c.
Proof.
  unfold unlink.
  rewrite prune_organization_items_dependencies, prune_dependencies_union.
  by rewrite prune_organization_items_union.
Qed.

Lemma unlink_shape (ids : gset string) (c : Element) :
  ET.tag (unlink ids c) = ET.tag c ∧ ET.attrib (unlink ids c) = ET.attrib c.
Proof.
  unfold unlink.
  destruct (prune_dependencies_shape ids (prune_organization_items ids true c)) as [-> ->].
  apply prune_organization_items_shape.
Qed.

Lemma remove_references_unfold (ids : gset string) t a x (cs : list Element) :
  ids ≠ ∅ →
  remove_references ids (Elem t a x cs)
  = Elem t a x (map (unlink ids)
                    (List.filter (λ c, negb (is_removed_item ids c)) cs)).
Proof.
  intros Hne. unfold remove_references. rewrite bool_decide_eq_false_2 by done.
  unfold remove_dependencies_referring_to.
  cbn [remove_items_referring_to ET.set_children ET.tag ET.attrib ET.text ET.children].
  f_equal. rewrite retain_spec, map_map. apply map_ext.
  intros c. unfold unlink. by rewrite remove_items_as_prune.
Qed.

End ReferenceFacts.

(** X7. [prune_item_children] reaches its fixed point in one pass: pruning
    what it leaves, with the same set of resource identifiers, removes
    nothing and counts nothing. *)
Theorem prune_item_children_fixpoint (valid : gset string) (e : Element) (n m : nat * nat) :
  prune_item_children valid (prune_item_children valid e n).1 m
  = ((prune_item_children valid e n).1, m).
Proof.
  revert n m. induction e as [t a x cs IH] using ET.Element_tree_ind. intros n m.
  pose proof (prune_each_fixpoint valid cs IH n m) as H.
  cbn [prune_item_children].
  destruct (prune_each valid (prune_item_children valid) cs n) as [cs' n'].
  cbn [fst] in *. cbn [prune_item_children]. by rewrite H.
Qed.

(** X8. Step 8 composes: removing the references to the identifiers of [A]
    and then those to the identifiers of [B] is removing the references to
    those of [A ∪ B]. *)
Theorem remove_references_composable (A B : gset string) (root : Element) :
  remove_references B (remove_references A root) = remove_references (A ∪ B) root.
Proof.
  destruct (decide (A = ∅)) as [-> | HA].
  { rewrite (left_id_L ∅ (∪)). unfold remove_references at 2.
    by rewrite bool_decide_eq_true_2. }
  destruct (decide (B = ∅)) as [-> | HB].
  { rewrite (right_id_L ∅ (∪)). unfold remove_references at 1.
    by rewrite bool_decide_eq_true_2. }
  assert (A ∪ B ≠ ∅) as HAB by (intros H; apply empty_union_L in H as [? ?]; done).
  destruct root as [t a x cs].
  rewrite (remove_references_unfold A), (remove_references_unfold B),
    (remove_references_unfold (A ∪ B)) by done.
  f_equal.
  rewrite filter_map_shape.
  2: { intros c. f_equal. destruct (unlink_shape A c) as [Ht Ha].
       by apply is_removed_item_shape. }
  rewrite map_map, filter_filter_and.
  erewrite map_ext by (intros c; apply unlink_union). f_equal.
  apply List.filter_ext. intros c. rewrite is_removed_item_union.
  by destruct (is_removed_item A c), (is_removed_item B c).
Qed.

Section RemoveChildrenFacts.
Context (test : Element → bool).
Hypothesis test_tag : ∀ a b, ET.tag a = ET.tag b → test a = test b.

Lemma remove_children_tag (e : Element) : ET.tag (remove_children test e) = ET.tag e.
Proof. by destruct e. Qed.

Lemma remove_children_clean (e d : Element) :
  In d (ET.descendants (remove_children test e)) → test d = false.
Proof.
  revert d. induction e as [t a x cs IH] using ET.Element_tree_ind. intros d Hd.
  rewrite List.Forall_forall in IH.
  apply in_descendants in Hd as (k & Hk & Hd).
  cbn [remove_children ET.children] in Hk. rewrite retain_spec in Hk.
  apply in_map_iff in Hk as (c & <- & Hc). apply filter_In in Hc as [Hc Hkeep].
  apply in_iter in Hd as [-> | Hd].
  - rewrite (test_tag _ c) by apply remove_children_tag. by apply negb_true_iff.
  - by apply (IH c).
Qed.

Lemma count_removed_children (cs : list Element) :
  Forall (λ c, count_removed test c = length (List.filter test (ET.descendants c))) cs →
  list_sum (map (λ parent, length (List.filter test (ET.children parent)))
                (flat_map ET.iter cs))
  + length (List.filter test cs)
  = length (List.filter test (flat_map ET.iter cs)).
Proof.
  induction 1 as [|c r Hc Hr IH]; [done|].
  cbn [flat_map]. rewrite map_app, list_sum_app, List.filter_app, length_app.
  unfold count_removed in Hc. rewrite iter_unfold in *.
  cbn [map list_sum] in *. cbn [List.filter].
  destruct (test c); cbn [length]; lia.
Qed.

(** The counter is the number of elements below the root that pass the
    test. *)
Lemma count_removed_descendants (e : Element) :
  count_removed test e = length (List.filter test (ET.descendants e)).
Proof.
  induction e as [t a x cs IH] using ET.Element_tree_ind.
  pose proof (count_removed_children cs IH) as H.
  unfold count_removed, ET.descendants. cbn [ET.iter ET.children map list_sum].
  cbn [ET.children] in H. unfold list_sum in *. cbn [fold_right]. lia.
Qed.

Lemma remove_children_none (e : Element) :
  List.filter test (ET.descendants e) = [] → remove_children test e = e.
Proof.
  induction e as [t a x cs IH] using ET.Element_tree_ind. intros Hnone.
  rewrite List.Forall_forall in IH.
  assert (∀ d, In d (ET.descendants (Elem t a x cs)) → test d = false) as Hall.
  { intros d Hd. destruct (test d) eqn:E; [|done].
    assert (In d (List.filter test (ET.descendants (Elem t a x cs)))) as Hin
      by (by apply filter_In).
    by rewrite Hnone in Hin. }
  cbn [remove_children]. f_equal. rewrite retain_all.
  - rewrite <- (map_id cs) at 2. apply map_ext_in. intros c Hc. apply IH; [done|].
    destruct (List.filter test (ET.descendants c)) as [|d l] eqn:E; [done|].
    assert (In d (List.filter test (ET.descendants c))) as Hd by (rewrite E; by left).
    apply filter_In in Hd as [Hd Ht].
    rewrite Hall in Ht; [done|].
    apply in_descendants. exists c. split; [done|]. apply in_iter. by right.
  - intros c Hc. apply negb_true_iff, Hall.
    apply in_descendants. exists c. split; [done | apply in_iter_self].
Qed.

Lemma filter_none {A} (p : A → bool) (l : list A) :
  (∀ d, In d l → p d = false) → List.filter p l = [].
Proof.
  induction l as [|c r IH]; intros H; [done|]. cbn.
  rewrite (H c) by (by left). apply IH. intros d Hd. apply H. by right.
Qed.

Lemma remove_children_spec (root : Element) :
  let r := (remove_children test root, count_removed test root) in
  Forall (λ d, test d = false) (ET.descendants r.1) ∧
  r.2 = length (List.filter test (ET.descendants root)) ∧
  (r.2 = 0 → r.1 = root) ∧
  (remove_children test r.1, count_removed test r.1) = (r.1, 0).
Proof.
  cbn zeta. cbn [fst snd].
  assert (∀ d, In d (ET.descendants (remove_children test root)) → test d = false)
    as Hclean by (intros d; apply remove_children_clean).
  split; [by apply List.Forall_forall|]. split; [apply count_removed_descendants|].
  split.
  - rewrite count_removed_descendants. intros H. apply remove_children_none.
    by apply length_zero_iff_nil.
  - pose proof (filter_none test _ Hclean) as Hnone.
    rewrite remove_children_none by done.
    by rewrite count_removed_descendants, Hnone.
Qed.

End RemoveChildrenFacts.

Example prune_curriculum_standards_sample :
  prune_curriculum_standards
    (Elem "{http://www.imsglobal.org/xsd/imsccv1p2/imscp_v1p1}manifest" [] None
       [Elem "{http://www.imsglobal.org/xsd/imsccv1p2/imscp_v1p1}metadata" [] None
          [Elem "{http://www.imsglobal.org/xsd/imscsmd_v1p0}curriculumStandardsMetadataSet"
             [] None
             [Elem "{http://www.imsglobal.org/xsd/imscsmd_v1p0}curriculumStandardsMetadata"
                [] None []];
           Elem "imscsmd" [] None []]])
  = (Elem "{http://www.imsglobal.org/xsd/imsccv1p2/imscp_v1p1}manifest" [] None
       [Elem "{http://www.imsglobal.org/xsd/imsccv1p2/imscp_v1p1}metadata" [] None
          [Elem "imscsmd" [] None []]],
     2).
Proof. reflexivity. Qed.

(** X9. After [prune_curriculum_standards] no element below the root is in
    a namespace that holds [imscsmd]. The number added to the log is the
    number of such elements in the manifest as it was, those inside a
    removed block counted as well. A manifest that has none is returned as
    it is, and a second run removes nothing. *)
Theorem prune_curriculum_standards_spec (root : Element) :
  let r := prune_curriculum_standards root in
  Forall (λ d, in_curriculum_standards d = false) (ET.descendants r.1) ∧
  r.2 = length (List.filter in_curriculum_standards (ET.descendants root)) ∧
  (r.2 = 0 → r.1 = root) ∧
  prune_curriculum_standards r.1 = (r.1, 0).
Proof.
  apply (remove_children_spec in_curriculum_standards).
  intros a b H. unfold in_curriculum_standards. by rewrite H.
Qed.

(** X10. After [drop_cp_variants] no element below the root is a
    [variant]. The number returned is the number of [variant] elements of
    the manifest as it was, those inside a removed one counted as well. A
    manifest that has none is returned as it is, and a second run removes
    nothing. *)
Theorem drop_cp_variants_spec (root : Element) :
  let r := drop_cp_variants root in
  Forall (λ d, is_variant d = false) (ET.descendants r.1) ∧
  r.2 = length (List.filter is_variant (ET.descendants root)) ∧
  (r.2 = 0 → r.1 = root) ∧
  drop_cp_variants r.1 = (r.1, 0).
Proof.
  apply (remove_children_spec is_variant).
  intros a b H. unfold is_variant. by rewrite H.
Qed.

Section UpdateAllFacts.
Context (p : Element → bool) (g : Element → Element).
Hypothesis p_tag : ∀ a b, ET.tag a = ET.tag b → p a = p b.
Hypothesis g_tag : ∀ e, ET.tag (g e) = ET.tag e.
Hypothesis g_children : ∀ e, ET.children (g e) = ET.children e.

Lemma update_all_children (e : Element) :
  ET.children (ET.update_all p g e) = map (updated p g) (ET.children e).
Proof.
  destruct e as [t a x cs]. cbn [ET.update_all ET.children]. rewrite map_map.
  apply map_ext. intros c. unfold updated.
  by rewrite (p_tag (ET.update_all p g c) c) by apply update_all_tag.
Qed.

Lemma updated_tag (c : Element) : ET.tag (updated p g c) = ET.tag c.
Proof. unfold updated. destruct (p c); by rewrite ?g_tag, update_all_tag. Qed.

Lemma updated_children (c : Element) :
  ET.children (updated p g c) = map (updated p g) (ET.children c).
Proof.
  unfold updated at 1. destruct (p c); by rewrite ?g_children, update_all_children.
Qed.

Lemma iter_updated (c : Element) : ET.iter (updated p g c) = map (updated p g) (ET.iter c).
Proof.
  induction c as [t a x cs IH] using ET.Element_tree_ind.
  rewrite List.Forall_forall in IH.
  rewrite (iter_unfold (updated p g _)), (iter_unfold (Elem t a x cs)). cbn [map]. f_equal.
  unfold ET.descendants. rewrite updated_children. cbn [ET.children].
  rewrite flat_map_of_map, map_of_flat_map. by apply flat_map_ext_in.
Qed.

Lemma descendants_update_all (e : Element) :
  ET.descendants (ET.update_all p g e) = map (updated p g) (ET.descendants e).
Proof.
  unfold ET.descendants. rewrite update_all_children.
  rewrite flat_map_of_map, map_of_flat_map. apply flat_map_ext_in.
  intros c _. apply iter_updated.
Qed.

Lemma findall_desc_update_all (name : string) (e : Element) :
  ET.findall_desc name (ET.update_all p g e) = map (updated p g) (ET.findall_desc name e).
Proof.
  unfold ET.findall_desc. rewrite descendants_update_all.
  apply filter_map_tag, updated_tag.
Qed.

Hypothesis g_idem : ∀ e, g (g e) = g e.

Lemma update_all_unfold (y : Element) :
  ET.update_all p g y
  = Elem (ET.tag y) (ET.attrib y) (ET.text y) (map (updated p g) (ET.children y)).
Proof. rewrite <- update_all_children. by destruct y. Qed.

Lemma update_all_fixed (e : Element) :
  Forall (λ c, updated p g (updated p g c) = updated p g c) (ET.children e) →
  ET.update_all p g (ET.update_all p g e) = ET.update_all p g e.
Proof.
  intros H. rewrite List.Forall_forall in H.
  rewrite (update_all_unfold (ET.update_all p g e)).
  rewrite update_all_children, map_map.
  rewrite (update_all_unfold e) at 4.
  rewrite update_all_tag, update_all_attrib, update_all_text.
  f_equal. by apply map_ext_in.
Qed.

Lemma updated_idem (c : Element) : updated p g (updated p g c) = updated p g c.
Proof.
  induction c as [t a x cs IH] using ET.Element_tree_ind.
  assert (ET.update_all p g (ET.update_all p g (Elem t a x cs))
          = ET.update_all p g (Elem t a x cs)) as Hfix by (by apply update_all_fixed).
  set (e := Elem t a x cs) in *.
  assert (ET.update_all p g (updated p g e) = updated p g e) as Hu.
  { unfold updated. destruct (p e); [|done].
    set (y := ET.update_all p g e) in *.
    assert (map (updated p g) (ET.children y) = ET.children y) as Hc
      by (by rewrite <- update_all_children, Hfix).
    rewrite update_all_unfold, g_children, Hc, <- (g_children y). by destruct (g y). }
  unfold updated at 1. rewrite Hu.
  rewrite (p_tag (updated p g e) e) by apply updated_tag.
  unfold updated. destruct (p e); [apply g_idem | done].
Qed.

Lemma update_all_idem (e : Element) :
  ET.update_all p g (ET.update_all p g e) = ET.update_all p g e.
Proof. apply update_all_fixed, List.Forall_forall. intros c _. apply updated_idem. Qed.

End UpdateAllFacts.

Section IntendedUseFacts.

Lemma patch_attr_shape (x : Element) (attr : string) :
  ET.tag (patch_attr x attr) = ET.tag x ∧ ET.children (patch_attr x attr) = ET.children x.
Proof. unfold patch_attr. destruct (is_assignment_use _); by destruct x. Qed.

Lemma patch_resource_tag (x : Element) : ET.tag (patch_resource x) = ET.tag x.
Proof.
  unfold patch_resource. cbn [fold_left intended_use_attrs].
  by rewrite !(proj1 (patch_attr_shape _ _)).
Qed.

Lemma patch_resource_children (x : Element) :
  ET.children (patch_resource x) = ET.children x.
Proof.
  unfold patch_resource. cbn [fold_left intended_use_attrs].
  by rewrite !(proj2 (patch_attr_shape _ _)).
Qed.

Lemma get_patch_attr (x : Element) (attr k : string) :
  ET.get (patch_attr x attr) k
  = if String.eqb k attr && is_assignment_use (ET.get x k)
    then Some "unspecified" else ET.get x k.
Proof.
  unfold patch_attr. destruct (String.eqb_spec k attr) as [-> | Hne]; cbn [andb].
  - destruct (is_assignment_use (ET.get x attr)); [|done].
    unfold ET.get, ET.set. cbn [ET.attrib]. apply dict_get_set.
  - destruct (is_assignment_use (ET.get x attr)); [|done].
    unfold ET.get, ET.set. cbn [ET.attrib]. by apply dict_get_set_ne.
Qed.

(** The attributes of a patched resource. *)
Lemma get_patch_resource (x : Element) (k : string) :
  ET.get (patch_resource x) k
  = if existsb (String.eqb k) intended_use_attrs && is_assignment_use (ET.get x k)
    then Some "unspecified" else ET.get x k.
Proof.
  unfold patch_resource. cbn [fold_left intended_use_attrs existsb].
  rewrite !get_patch_attr.
  destruct (String.eqb_spec k "intendedUse") as [E1 | H1];
    destruct (String.eqb_spec k "intendeduse") as [E2 | H2];
    cbn [andb orb]; try done.
  subst k. discriminate E2.
Qed.

Lemma patch_resource_clean (x : Element) :
  Forall (λ attr, is_assignment_use (ET.get (patch_resource x) attr) = false)
         intended_use_attrs.
Proof.
  apply List.Forall_forall. intros attr Hin. rewrite get_patch_resource.
  assert (existsb (String.eqb attr) intended_use_attrs = true) as ->.
  { apply existsb_exists. exists attr. split; [done | apply String.eqb_refl]. }
  cbn [andb]. by destruct (is_assignment_use (ET.get x attr)) eqn:E.
Qed.

Lemma patch_resource_none (x : Element) :
  Forall (λ attr, is_assignment_use (ET.get x attr) = false) intended_use_attrs →
  patch_resource x = x ∧ intended_use_changes x = [].
Proof.
  intros H. rewrite List.Forall_forall in H.
  pose proof (H "intendedUse" (or_introl eq_refl)) as H1.
  pose proof (H "intendeduse" (or_intror (or_introl eq_refl))) as H2.
  unfold patch_resource, intended_use_changes, patch_attr.
  cbn [fold_left flat_map intended_use_attrs]. rewrite H1, H2. split; [done|].
  destruct (ET.get x "intendedUse"), (ET.get x "intendeduse");
    rewrite ?H1, ?H2; done.
Qed.

Lemma patch_resource_idem (x : Element) : patch_resource (patch_resource x) = patch_resource x.
Proof. apply patch_resource_none, patch_resource_clean. Qed.

Lemma flat_map_none {A B} (h : A → list B) (l : list A) :
  (∀ x, In x l → h x = []) → flat_map h l = [].
Proof.
  induction l as [|c r IH]; intros H; [done|]. cbn [flat_map].
  rewrite (H c) by (by left). apply IH. intros x Hx. apply H. by right.
Qed.

Lemma get_update_all (p : Element → bool) (g : Element → Element) (e : Element) (k : string) :
  ET.get (ET.update_all p g e) k = ET.get e k.
Proof. unfold ET.get. by rewrite update_all_attrib. Qed.

End IntendedUseFacts.

(** X11. [patch_intended_use] rewrites the attributes [intendedUse] and
    [intendeduse] that read [assignment], in any case of the letters, to
    [unspecified], and leaves every other attribute of every resource as it
    is. Afterwards no resource has such an attribute, and a second run
    changes nothing and logs nothing. *)
Theorem patch_intended_use_spec (root : Element) :
  let r := patch_intended_use root in
  (∀ k, map (λ res, ET.get res k) (ET.findall_desc "resource" r.1)
        = map (λ res, if existsb (String.eqb k) intended_use_attrs &&
                         is_assignment_use (ET.get res k)
                      then Some "unspecified" else ET.get res k)
              (ET.findall_desc "resource" root)) ∧
  Forall (λ res, Forall (λ attr, is_assignment_use (ET.get res attr) = false)
                        intended_use_attrs)
         (ET.findall_desc "resource" r.1) ∧
  patch_intended_use r.1 = (r.1, []).
Proof.
  cbn zeta. unfold patch_intended_use. cbn [fst snd].
  pose proof (findall_desc_update_all (ET.matches "resource") patch_resource
                (matches_shape "resource") patch_resource_tag patch_resource_children
                "resource" root) as Hres.
  assert (∀ d, In d (ET.findall_desc "resource" root) →
               updated (ET.matches "resource") patch_resource d
               = patch_resource (ET.update_all (ET.matches "resource") patch_resource d))
    as Hup.
  { intros d Hd. apply in_findall_desc in Hd as [_ Hm]. unfold updated. by rewrite Hm. }
  assert (Forall (λ res, Forall (λ attr, is_assignment_use (ET.get res attr) = false)
                                intended_use_attrs)
                 (ET.findall_desc "resource"
                    (ET.update_all (ET.matches "resource") patch_resource root)))
    as Hclean.
  { rewrite Hres. apply List.Forall_forall. intros res Hin.
    apply in_map_iff in Hin as (d & <- & Hd). rewrite (Hup d Hd).
    apply patch_resource_clean. }
  split; [|split; [exact Hclean|]].
  - intros k. rewrite Hres, map_map. apply map_ext_in. intros d Hd.
    rewrite (Hup d Hd), get_patch_resource. by rewrite get_update_all.
  - f_equal.
    + apply update_all_idem.
      * apply matches_shape.
      * apply patch_resource_tag.
      * apply patch_resource_children.
      * apply patch_resource_idem.
    + rewrite List.Forall_forall in Hclean. apply flat_map_none.
      intros res Hres'. by apply patch_resource_none, Hclean.
Qed.

Section QtiHrefFacts.

Lemma fix_qti_resource_href_tag (x : Element) :
  ET.tag (fix_qti_resource_href x) = ET.tag x.
Proof. unfold fix_qti_resource_href. destruct (missing_href x); by destruct x. Qed.

Lemma fix_qti_resource_href_children (x : Element) :
  ET.children (fix_qti_resource_href x) = ET.children x.
Proof. unfold fix_qti_resource_href. destruct (missing_href x); by destruct x. Qed.

(** The reference that is filled in is that of a listed file, and it is
    filled in only where a QTI assessment had none. *)
Lemma missing_href_some (x : Element) (cand : string) :
  missing_href x = Some cand →
  is_qti_assessment x = true ∧ PyStr.truthy (ET.get x "href") = false ∧
  PyStr.nonempty cand = true ∧
  PyStr.endswith cand "/assessment_qti.xml" = true ∧
  In cand (map (λ f, PyStr.or_empty (ET.get f "href")) (ET.findall_child "file" x)).
Proof.
  unfold missing_href. destruct (is_qti_assessment x); [|done]. cbn [negb].
  destruct (PyStr.truthy (ET.get x "href")); [done|].
  unfold qti_candidate. destruct (List.find _ _) as [c|] eqn:E; [|done].
  destruct (PyStr.nonempty c) eqn:Ec; [|done]. intros [= <-].
  apply find_some in E as [Hin He]. done.
Qed.

Lemma missing_href_set (x : Element) (cand : string) :
  PyStr.nonempty cand = true → missing_href (ET.set x "href" cand) = None.
Proof.
  intros Hc. unfold missing_href. destruct (negb _); [done|].
  unfold ET.get, ET.set. cbn [ET.attrib]. rewrite dict_get_set.
  destruct cand; [done|]. done.
Qed.

Lemma missing_href_fixed (x : Element) : missing_href (fix_qti_resource_href x) = None.
Proof.
  unfold fix_qti_resource_href. destruct (missing_href x) as [cand|] eqn:E; [|done].
  apply missing_href_set. by apply missing_href_some in E as (_ & _ & ? & _).
Qed.

Lemma fix_qti_resource_href_idem (x : Element) :
  fix_qti_resource_href (fix_qti_resource_href x) = fix_qti_resource_href x.
Proof. unfold fix_qti_resource_href at 1. by rewrite missing_href_fixed. Qed.

Let U := ET.update_all (ET.matches "resource") fix_qti_resource_href.

(** The turns of the other resources do not change what a turn reads. *)
Lemma file_hrefs_update_all (d : Element) :
  map (λ f, PyStr.or_empty (ET.get f "href")) (ET.findall_child "file" (U d))
  = map (λ f, PyStr.or_empty (ET.get f "href")) (ET.findall_child "file" d).
Proof.
  unfold ET.findall_child, U.
  rewrite (update_all_children _ _ (matches_shape "resource")).
  rewrite filter_map_tag by apply updated_tag, fix_qti_resource_href_tag.
  rewrite map_map. apply map_ext_in. intros f Hf. apply filter_In in Hf as [_ Hf].
  unfold updated.
  rewrite (matches_exclusive "file" "resource" f) by done.
  by rewrite get_update_all.
Qed.

Lemma missing_href_update_all (d : Element) : missing_href (U d) = missing_href d.
Proof.
  unfold missing_href, is_qti_assessment, qti_candidate.
  rewrite file_hrefs_update_all. unfold U. by rewrite !get_update_all.
Qed.

End QtiHrefFacts.

(** X12. [fix_qti_resource_hrefs] gives a reference to the QTI assessment
    resources that have none and list a file [.../assessment_qti.xml], the
    reference of the first such file, and changes no other reference.
    Afterwards every QTI assessment resource that lists such a file has a
    reference, and a second run patches nothing. *)
Theorem fix_qti_resource_hrefs_spec (root : Element) :
  let r := fix_qti_resource_hrefs root in
  map (λ res, ET.get res "href") (ET.findall_desc "resource" r.1)
  = map (λ res, match missing_href res with
                | Some cand => Some cand
                | None => ET.get res "href"
                end)
        (ET.findall_desc "resource" root) ∧
  Forall (λ res, is_qti_assessment res = true → qti_candidate res ≠ None →
                 PyStr.truthy (ET.get res "href") = true)
         (ET.findall_desc "resource" r.1) ∧
  fix_qti_resource_hrefs r.1 = (r.1, 0).
Proof.
  cbn zeta. unfold fix_qti_resource_hrefs. cbn [fst snd].
  pose proof (findall_desc_update_all (ET.matches "resource") fix_qti_resource_href
                (matches_shape "resource") fix_qti_resource_href_tag
                fix_qti_resource_href_children "resource" root) as Hres.
  assert (∀ d, In d (ET.findall_desc "resource" root) →
               updated (ET.matches "resource") fix_qti_resource_href d
               = fix_qti_resource_href
                   (ET.update_all (ET.matches "resource") fix_qti_resource_href d))
    as Hup.
  { intros d Hd. apply in_findall_desc in Hd as [_ Hm]. unfold updated. by rewrite Hm. }
  assert (Forall (λ res, missing_href res = None)
                 (ET.findall_desc "resource"
                    (ET.update_all (ET.matches "resource") fix_qti_resource_href root)))
    as Hnone.
  { rewrite Hres. apply List.Forall_forall. intros res Hin.
    apply in_map_iff in Hin as (d & <- & Hd). rewrite (Hup d Hd).
    apply missing_href_fixed. }
  split; [|split].
  - rewrite Hres, map_map. apply map_ext_in. intros d Hd. rewrite (Hup d Hd).
    unfold fix_qti_resource_href. rewrite missing_href_update_all.
    destruct (missing_href d) as [cand|].
    + unfold ET.get, ET.set. cbn [ET.attrib]. apply dict_get_set.
    + apply get_update_all.
  - eapply List.Forall_impl; [|exact Hnone]. intros res H Hq Hc.
    unfold missing_href in H. rewrite Hq in H. cbn [negb] in H.
    destruct (PyStr.truthy (ET.get res "href")); [done|].
    destruct (qti_candidate res) as [cand|] eqn:E; [|done].
    unfold qti_candidate in E. apply find_some in E as [_ E].
    destruct cand; [discriminate E | discriminate H].
  - f_equal.
    + apply update_all_idem.
      * apply matches_shape.
      * apply fix_qti_resource_href_tag.
      * apply fix_qti_resource_href_children.
      * apply fix_qti_resource_href_idem.
    + rewrite List.Forall_forall in Hnone. apply length_zero_iff_nil, filter_none.
      intros d Hd. rewrite (Hnone d Hd). apply bool_decide_eq_false_2. by intros [? ?].
Qed.

Section UpdateFirstFacts.
Context (p : Element → bool) (g : Element → Element).
Hypothesis p_tag : ∀ a b, ET.tag a = ET.tag b → p a = p b.
Hypothesis g_tag : ∀ e, ET.tag (g e) = ET.tag e.

Lemma update_first_desc_tag (e e' : Element) :
  ET.update_first_desc p g e = Some e' → ET.tag e' = ET.tag e.
Proof.
  destruct e as [t a x cs]. cbn [ET.update_first_desc].
  destruct (ET.scan_first _ _ _ cs); [|done]. by intros [= <-].
Qed.

Lemma head_app_some {A} (l1 l2 : list A) (d : A) :
  head l1 = Some d → head (l1 ++ l2) = Some d.
Proof. by destruct l1. Qed.

Lemma scan_first_spec (cs : list Element) :
  Forall (λ c, first_updated p g c (ET.update_first_desc p g c)) cs →
  match ET.scan_first p g (ET.update_first_desc p g) cs with
  | None => List.filter p (flat_map ET.iter cs) = []
  | Some cs' =>
      ∃ d, head (List.filter p (flat_map ET.iter cs)) = Some d ∧
           head (List.filter p (flat_map ET.iter cs')) = Some (g d)
  end.
Proof.
  induction 1 as [|c r Hc Hr IH]; [done|].
  cbn [ET.scan_first flat_map]. rewrite (iter_unfold c).
  destruct (p c) eqn:Ec.
  - exists c. cbn [flat_map]. rewrite (iter_unfold (g c)). cbn [app List.filter].
    rewrite Ec, (p_tag (g c) c), Ec by apply g_tag. done.
  - cbn [app List.filter]. rewrite Ec, List.filter_app.
    destruct (ET.update_first_desc p g c) as [c'|] eqn:Eu.
    + destruct Hc as (d & Hd & Hd'). exists d. split; [by apply head_app_some|].
      cbn [flat_map]. rewrite (iter_unfold c'). cbn [app List.filter].
      rewrite (p_tag c' c), Ec by (by apply update_first_desc_tag).
      rewrite List.filter_app. by apply head_app_some.
    + cbn in Hc. rewrite Hc. cbn [app].
      destruct (ET.scan_first p g (ET.update_first_desc p g) r) as [r'|]; cbn [option_map].
      * destruct IH as (d & Hd & Hd'). exists d. split; [done|].
        cbn [flat_map]. rewrite (iter_unfold c). cbn [app List.filter].
        by rewrite Ec, List.filter_app, Hc.
      * done.
Qed.

Lemma update_first_desc_spec (e : Element) :
  first_updated p g e (ET.update_first_desc p g e).
Proof.
  induction e as [t a x cs IH] using ET.Element_tree_ind.
  pose proof (scan_first_spec cs IH) as H.
  cbn [ET.update_first_desc].
  destruct (ET.scan_first p g (ET.update_first_desc p g) cs); cbn [option_map first_updated].
  - exact H.
  - exact H.
Qed.

End UpdateFirstFacts.

Lemma find_desc_update_first_desc (name : string) (g : Element → Element) (e d : Element) :
  (∀ x, ET.tag (g x) = ET.tag x) →
  ET.find_desc name e = Some d →
  ∃ e', ET.update_first_desc (ET.matches name) g e = Some e' ∧
        ET.find_desc name e' = Some (g d).
Proof.
  intros Hg Hd.
  pose proof (update_first_desc_spec (ET.matches name) g (matches_shape name) Hg e) as H.
  unfold ET.find_desc, ET.findall_desc in *.
  destruct (ET.update_first_desc (ET.matches name) g e) as [e'|]; cbn in H.
  - destruct H as (d' & H1 & H2). exists e'. split; [done|]. congruence.
  - by rewrite H in Hd.
Qed.

Section AssignmentFacts.

Lemma contains_cons (s p : string) (a : ascii) :
  PyStr.contains s (String a p) = true → PyStr.contains s p = true.
Proof.
  induction s as [|b s IH]; cbn [PyStr.contains PyStr.startswith].
  - by rewrite orb_false_r.
  - intros H. apply orb_prop in H as [H | H].
    + apply andb_prop in H as [_ H]. apply contains_tail, contains_head, H.
    + apply contains_tail, IH, H.
Qed.

(** The first hint adds nothing to the second. *)
Lemma href_hit_simpler (href : string) :
  existsb (PyStr.contains href) ASSIGNMENT_HREF_HINTS = PyStr.contains href "assignment.xml".
Proof.
  cbn [existsb ASSIGNMENT_HREF_HINTS]. rewrite orb_false_r.
  destruct (PyStr.contains href "/assignment.xml") eqn:E; [|done].
  symmetry. by apply (contains_cons href "assignment.xml" "/").
Qed.

Lemma resource_id_nonempty (res : Element) : resource_id res ≠ "".
Proof. unfold resource_id. by destruct (ET.get res "identifier") as [[|? ?]|]. Qed.

End AssignmentFacts.

(** X13. [remove_assignment_extension_resources]: without a [resources]
    element nothing happens. With one, its resources that are not
    assignments stay, in their order, and its other children stay; the set
    returned holds the identifiers of the resources removed, [UNKNOWN] for
    one without identifier, and never the empty string. The test of the
    reference comes to [assignment.xml] being part of it: the other hint
    adds nothing. *)
Theorem remove_assignment_extension_resources_spec (root : Element) :
  let r := remove_assignment_extension_resources root in
  match ET.find_desc "resources" root with
  | None => r = (root, ∅)
  | Some resources_parent =>
      (∃ parent', ET.find_desc "resources" r.1 = Some parent' ∧
         ET.findall_child "resource" parent'
         = List.filter (λ res, negb (is_assignment_resource res))
                       (ET.findall_child "resource" resources_parent) ∧
         List.filter (λ c, negb (ET.matches "resource" c)) (ET.children parent')
         = List.filter (λ c, negb (ET.matches "resource" c))
                       (ET.children resources_parent)) ∧
      (∀ rid, rid ∈ r.2 ↔
              ∃ res, In res (ET.findall_child "resource" resources_parent) ∧
                     is_assignment_resource res = true ∧ resource_id res = rid) ∧
      "" ∉ r.2
  end ∧
  ∀ res, is_assignment_resource res
         = existsb (PyStr.startswith (PyStr.lower (PyStr.or_empty (ET.get res "type"))))
                   ASSIGNMENT_TYPE_PREFIXES ||
           PyStr.contains (PyStr.lower (PyStr.or_empty (ET.get res "href"))) "assignment.xml".
Proof.
  cbn zeta. split.
  2: { intros res. unfold is_assignment_resource. by rewrite href_hit_simpler. }
  unfold remove_assignment_extension_resources.
  destruct (ET.find_desc "resources" root) as [rp|] eqn:Ef; [|done].
  cbn [fst snd].
  assert (∀ rid, rid ∈ (list_to_set (map resource_id
                  (List.filter is_assignment_resource (ET.findall_child "resource" rp)))
                  : gset string) ↔
                 ∃ res, In res (ET.findall_child "resource" rp) ∧
                        is_assignment_resource res = true ∧ resource_id res = rid) as Hids.
  { intros rid. rewrite elem_of_list_to_set, list_elem_of_In, in_map_iff.
    split.
    - intros (res & <- & Hin). apply filter_In in Hin as [Hin Hhit]. by exists res.
    - intros (res & Hin & Hhit & <-). exists res. split; [done|]. by apply filter_In. }
  split; [|split; [exact Hids|]].
  - destruct (find_desc_update_first_desc "resources" delete_assignments root rp)
      as (root' & -> & Hf); [by intros [] | done |].
    exists (delete_assignments rp). cbn [default]. split; [done|].
    unfold ET.findall_child, delete_assignments. cbn [ET.children ET.set_children].
    split.
    + rewrite !filter_filter_and. apply List.filter_ext. intros c.
      by destruct (ET.matches "resource" c), (is_assignment_resource c).
    + rewrite filter_filter_and. apply List.filter_ext. intros c.
      by destruct (ET.matches "resource" c), (is_assignment_resource c).
  - intros Hin. apply Hids in Hin as (res & _ & _ & Hid).
    by apply (resource_id_nonempty res).
Qed.

Section CollapseFacts.

Lemma select_none {A} (keep : nat → bool) (i0 : nat) (l : list A) :
  (∀ k, i0 ≤ k → keep k = false) → select keep i0 l = [].
Proof.
  revert i0. induction l as [|c r IH]; intros i0 H; [done|].
  cbn [select]. rewrite H by lia. apply IH. intros k Hk. apply H. lia.
Qed.

Lemma select_one {A} (d : A) (keep : nat → bool) (j : nat) (l : list A) :
  ∀ i0, i0 ≤ j < i0 + length l →
  (∀ k, i0 ≤ k → keep k = Nat.eqb k j) →
  select keep i0 l = [nth (j - i0) l d].
Proof.
  induction l as [|c r IH]; intros i0 Hj H; [cbn in Hj; lia|].
  cbn [select length] in *. rewrite H by lia.
  destruct (Nat.eqb_spec i0 j) as [-> | Hne].
  - rewrite Nat.sub_diag. cbn [nth]. f_equal. apply select_none.
    intros k Hk. rewrite H by lia. apply Nat.eqb_neq. lia.
  - rewrite (IH (S i0)) by (lia || (intros k Hk; apply H; lia)).
    replace (j - i0) with (S (j - S i0)) by lia. done.
Qed.

Lemma select_two {A} (d : A) (i j : nat) (l : list A) :
  ∀ i0, i0 ≤ i → i < j → j < i0 + length l →
  select (λ k, Nat.eqb k i || Nat.eqb k j) i0 l = [nth (i - i0) l d; nth (j - i0) l d].
Proof.
  induction l as [|c r IH]; intros i0 Hi Hij Hj; [cbn in Hj; lia|].
  cbn [select length] in *.
  destruct (Nat.eqb_spec i0 i) as [-> | Hne]; cbn [orb].
  - rewrite Nat.sub_diag. cbn [nth]. f_equal.
    rewrite (select_one d _ j) by
      (lia || (intros k Hk; destruct (Nat.eqb_spec k i); [lia | done])).
    replace (j - i) with (S (j - S i)) by lia. done.
  - destruct (Nat.eqb_spec i0 j) as [-> | Hne']; [lia|].
    rewrite (IH (S i0)) by lia.
    replace (i - i0) with (S (i - S i0)) by lia.
    replace (j - i0) with (S (j - S i0)) by lia. done.
Qed.

Lemma select_ext {A} (keep keep' : nat → bool) (l : list A) :
  (∀ k, keep k = keep' k) → ∀ i0, select keep i0 l = select keep' i0 l.
Proof.
  intros H. induction l as [|c r IH]; intros i0; [done|].
  cbn [select]. by rewrite H, IH.
Qed.

Lemma filter_map_labels (keep : nat → bool) (cs : list Element) :
  ∀ i0,
    List.filter (ET.matches "response_label")
      (map_labels (λ k l, if keep k then Some l else None) i0 cs)
    = select keep i0 (List.filter (ET.matches "response_label") cs).
Proof.
  induction cs as [|c r IH]; intros i0; [done|].
  cbn [map_labels List.filter]. destruct (ET.matches "response_label" c) eqn:E.
  - cbn [select]. destruct (keep i0); cbn [List.filter]; rewrite ?E, IH; done.
  - cbn [List.filter]. by rewrite E, IH.
Qed.

(** The labels of an item some of whose labels were removed. *)
Lemma labels_of_with_labels (keep : nat → bool) (item : Element) :
  labels_of (with_labels (λ k l, if keep k then Some l else None) item)
  = select keep 0 (labels_of item).
Proof.
  unfold labels_of, response_lid, with_labels.
  destruct (ET.find_desc "response_lid" item) as [rl|] eqn:Ef.
  - destruct (find_desc_update_first_desc "response_lid"
                (λ rl, ET.set_children rl
                         (map_labels (λ k l, if keep k then Some l else None) 0
                            (ET.children rl)))
                item rl) as (item' & Hu & Hf); [by intros [] | done |].
    rewrite Hu. cbn [default from_option id]. rewrite Hf.
    unfold ET.findall_child. cbn [ET.children ET.set_children].
    apply filter_map_labels.
  - pose proof (update_first_desc_spec (ET.matches "response_lid")
                  (λ rl, ET.set_children rl
                           (map_labels (λ k l, if keep k then Some l else None) 0
                              (ET.children rl)))
                  (matches_shape "response_lid") (ltac:(by intros [])) item) as H.
    destruct (ET.update_first_desc _ _ item) as [item'|]; cbn in H.
    + destruct H as (d & Hd & _). unfold ET.find_desc, ET.findall_desc in Ef. congruence.
    + cbn [default]. by rewrite Ef.
Qed.

Lemma index_of_text_spec (w : string) (labels : list Element) (d : Element) :
  ∀ i0 i, index_of_text w i0 labels = Some i →
          i0 ≤ i < i0 + length labels ∧ mattext_lower (nth (i - i0) labels d) = w.
Proof.
  induction labels as [|l r IH]; intros i0 i; [done|].
  cbn [index_of_text length]. destruct (String.eqb_spec (mattext_lower l) w) as [E | E].
  - intros [= <-]. rewrite Nat.sub_diag. cbn [nth]. split; [lia | done].
  - intros H. apply IH in H as [H1 H2]. split; [lia|].
    replace (i - i0) with (S (i - S i0)) by lia. done.
Qed.

(** The two labels [keep] names are two labels of the item. *)
Lemma keep_indices_spec (labels : list Element) :
  2 < length labels →
  (keep_indices labels).1 ≠ (keep_indices labels).2 ∧
  (keep_indices labels).1 < length labels ∧ (keep_indices labels).2 < length labels.
Proof.
  intros Hn. unfold keep_indices.
  destruct (index_of_text "true" 0 labels) as [i|] eqn:Ei; [|cbn; lia].
  destruct (index_of_text "false" 0 labels) as [j|] eqn:Ej; [|cbn; lia].
  apply (index_of_text_spec _ _ (Elem "" [] None [])) in Ei as [Hi Ti].
  apply (index_of_text_spec _ _ (Elem "" [] None [])) in Ej as [Hj Tj].
  cbn [fst snd]. split; [|lia]. intros ->. rewrite Ti in Tj. discriminate Tj.
Qed.

End CollapseFacts.

(** X14. With the fallback off, an item with more than two choices goes on
    to the normalization with exactly two of them: the first that reads
    true and the first that reads false when both exist, else the first
    two, in the order of the document. [swapped] tells that the choice that
    reads false comes first. *)
Theorem collapse_keeps_two_labels (item : Element) :
  2 < length (labels_of item) →
  let i := (keep_indices (labels_of item)).1 in
  let j := (keep_indices (labels_of item)).2 in
  ∃ item1,
    validate_shape false item = Normalize item1 (Nat.ltb j i) true ∧
    labels_of item1 = [label_at (Nat.min i j) item; label_at (Nat.max i j) item].
Proof.
  intros Hn. cbn zeta.
  destruct (keep_indices_spec (labels_of item) Hn) as (Hne & Hi & Hj).
  unfold validate_shape.
  destruct (response_lid item) as [rl|] eqn:Er.
  2: { unfold labels_of in Hn. rewrite Er in Hn. cbn in Hn. lia. }
  destruct (Nat.eqb_spec (length (labels_of item)) 2) as [E | _]; [lia|].
  destruct (Nat.ltb_spec 2 (length (labels_of item))) as [_ | E]; [|lia].
  destruct (keep_indices (labels_of item)) as [i j]. cbn [fst snd] in *.
  eexists. split; [reflexivity|].
  rewrite (labels_of_with_labels (λ k, Nat.eqb k i || Nat.eqb k j)).
  unfold label_at.
  destruct (Nat.lt_ge_cases i j) as [Hlt | Hge].
  - rewrite Nat.min_l, Nat.max_r by lia.
    rewrite (select_two (Elem "" [] None []) i j) by lia. by rewrite !Nat.sub_0_r.
  - rewrite Nat.min_r, Nat.max_l by lia.
    rewrite (select_ext _ (λ k, Nat.eqb k j || Nat.eqb k i))
      by (intros k; apply orb_comm).
    rewrite (select_two (Elem "" [] None []) j i) by lia. by rewrite !Nat.sub_0_r.
Qed.

Lemma collapse_keeps_two_labels_witness :
  let item := tf_item [("a", "Yes"); ("b", "False"); ("c", "True")] ["a"] in
  ∃ item1,
    validate_shape false item = Normalize item1 true true ∧
    labels_of item1 = [label_at 1 item; label_at 2 item].
Proof.
  apply (collapse_keeps_two_labels
           (tf_item [("a", "Yes"); ("b", "False"); ("c", "True")] ["a"])).
  vm_compute. lia.
Defined.

Section WriteFacts.
Context (X : Externals) (fallback : bool).

Lemma normalize_file_keeps (acc : Files * ChangeLog) (path : string) :
  dom (normalize_file X fallback acc path).1 = dom acc.1 ∧
  ∀ p, p ≠ path → (normalize_file X fallback acc path).1 !! p = acc.1 !! p.
Proof.
  unfold normalize_file. destruct (acc.1 !! path) as [txt|] eqn:E; [|done].
  destruct (parse_xml X txt) as [root|]; [|done].
  destruct (fix_qti_true_false_in_place fallback root acc.2) as [items' [log' changed]].
  cbn [fst]. destruct changed; [|done]. split.
  - apply dom_insert_lookup_L. by rewrite E.
  - intros p Hp. by rewrite lookup_insert_ne.
Qed.

Lemma fold_normalize_file_keeps (paths : list string) (acc : Files * ChangeLog) :
  dom (fold_left (normalize_file X fallback) paths acc).1 = dom acc.1 ∧
  ∀ p, ¬ In p paths →
       (fold_left (normalize_file X fallback) paths acc).1 !! p = acc.1 !! p.
Proof.
  revert acc. induction paths as [|path rest IH]; intros acc; [done|].
  cbn [fold_left].
  destruct (IH (normalize_file X fallback acc path)) as [I1 I2].
  destruct (normalize_file_keeps acc path) as [H1 H2].
  split; [by rewrite I1|].
  intros p Hp. rewrite I2 by (intros H; apply Hp; by right).
  apply H2. intros ->. apply Hp. by left.
Qed.

End WriteFacts.

Section TitleFacts.

Lemma add_title_spec (m : gmap string (gset string)) (e : string * string) (rid t : string) :
  has_title (add_title m e) rid t ↔ has_title m rid t ∨ e = (rid, t).
Proof.
  destruct e as [r x]. unfold has_title, add_title. cbn [fst snd].
  destruct (decide (r = rid)) as [-> | Hne].
  - rewrite lookup_insert_eq. split.
    + intros (s & [= <-] & Ht). apply elem_of_union in Ht as [Ht | Ht].
      * left. destruct (m !! rid) as [s|]; [by exists s | set_solver].
      * right. apply elem_of_singleton in Ht. by subst.
    + intros [(s & Hs & Ht) | [= ->]]; eexists; (split; [done|]).
      * rewrite Hs. set_solver.
      * set_solver.
  - rewrite lookup_insert_ne by done. split; [by left|].
    intros [H | [= ? ?]]; [done | congruence].
Qed.

Lemma fold_add_title_spec (l : list (string * string)) :
  ∀ m rid t, has_title (fold_left add_title l m) rid t ↔ has_title m rid t ∨ In (rid, t) l.
Proof.
  induction l as [|e r IH]; intros m rid t; cbn [fold_left In].
  - tauto.
  - rewrite IH, add_title_spec. tauto.
Qed.

Lemma add_title_nonempty (m : gmap string (gset string)) (e : string * string) :
  (∀ rid s, m !! rid = Some s → s ≠ ∅) →
  ∀ rid s, add_title m e !! rid = Some s → s ≠ ∅.
Proof.
  intros H rid s. unfold add_title. destruct (decide (e.1 = rid)) as [<- | Hne].
  - rewrite lookup_insert_eq. intros [= <-]. set_solver.
  - rewrite lookup_insert_ne by done. apply H.
Qed.

Lemma fold_add_title_nonempty (l : list (string * string)) :
  ∀ m, (∀ rid s, m !! rid = Some s → s ≠ ∅) →
       ∀ rid s, fold_left add_title l m !! rid = Some s → s ≠ ∅.
Proof.
  induction l as [|e r IH]; intros m H; [done|].
  cbn [fold_left]. by apply IH, add_title_nonempty.
Qed.

Lemma item_title_spec (item : Element) (rid t : string) :
  item_title item = Some (rid, t) ↔
  ET.get item "identifierref" = Some rid ∧ rid ≠ "" ∧
  ∃ title_el, ET.find_child "title" item = Some title_el ∧
              PyStr.truthy (ET.text title_el) = true ∧ t = text_stripped title_el.
Proof.
  unfold item_title. split.
  - destruct (ET.get item "identifierref") as [r|]; [|done].
    destruct (ET.find_child "title" item) as [el|]; [|done].
    destruct (PyStr.nonempty r) eqn:Er; [|done].
    destruct (PyStr.truthy (ET.text el)) eqn:Et; [|done].
    intros [= <- <-]. split; [done|]. split; [by destruct r|]. by exists el.
  - intros (-> & Hr & el & -> & Ht & ->). rewrite Ht.
    by destruct rid.
Qed.

End TitleFacts.

(** X15. [normalize_true_false_qti] creates no file and deletes none, and
    writes XML payload files only: a path that is not among [xml_payloads],
    a manifest in particular, keeps its content. *)
Theorem normalize_true_false_qti_writes (X : Externals) (fallback : bool)
    (files : Files) (log : ChangeLog) :
  let r := normalize_true_false_qti X fallback files log in
  dom r.1 = dom files ∧
  (∀ p, ¬ In p (xml_payloads X files) → r.1 !! p = files !! p) ∧
  (∀ p, PyStr.lower (basename p) = "imsmanifest.xml" → r.1 !! p = files !! p).
Proof.
  cbn zeta. unfold normalize_true_false_qti.
  destruct (fold_normalize_file_keeps X fallback (xml_payloads X files) (files, log))
    as [H1 H2].
  split; [done|]. split; [done|].
  intros p Hp. apply H2. unfold xml_payloads. intros Hin.
  apply filter_In in Hin as [_ Hin]. apply andb_prop in Hin as [_ Hin].
  rewrite Hp in Hin. discriminate Hin.
Qed.

(** X16. [build_res_id_to_item_titles] records the title [t] for the
    identifier [rid] exactly when an item of an organization refers to [rid]
    and has a first [title] child with a text that strips to [t]. No entry
    is for the empty identifier, and no entry is an empty set. *)
Theorem build_res_id_to_item_titles_spec (root : Element) :
  let m := build_res_id_to_item_titles root in
  (∀ rid t,
     (∃ s, m !! rid = Some s ∧ t ∈ s) ↔
     ∃ org item title_el,
       In org (ET.findall_desc "organization" root) ∧
       In item (ET.findall_desc "item" org) ∧
       ET.get item "identifierref" = Some rid ∧ rid ≠ "" ∧
       ET.find_child "title" item = Some title_el ∧
       PyStr.truthy (ET.text title_el) = true ∧ t = text_stripped title_el) ∧
  (∀ rid s, m !! rid = Some s → rid ≠ "" ∧ s ≠ ∅).
Proof.
  cbn zeta. unfold build_res_id_to_item_titles.
  set (items := flat_map (ET.findall_desc "item") (ET.findall_desc "organization" root)).
  assert (∀ rid t, In (rid, t) (omap item_title items) ↔
            ∃ org item title_el,
              In org (ET.findall_desc "organization" root) ∧
              In item (ET.findall_desc "item" org) ∧
              ET.get item "identifierref" = Some rid ∧ rid ≠ "" ∧
              ET.find_child "title" item = Some title_el ∧
              PyStr.truthy (ET.text title_el) = true ∧ t = text_stripped title_el) as Hin.
  { intros rid t. rewrite <- list_elem_of_In, list_elem_of_omap. split.
    - intros (item & Hitem & Ht). apply list_elem_of_In in Hitem.
      apply in_flat_map in Hitem as (org & Horg & Hitem).
      apply item_title_spec in Ht as (Hr & Hne & el & Hel & Htx & ->).
      by exists org, item, el.
    - intros (org & item & el & Horg & Hitem & Hr & Hne & Hel & Htx & ->).
      exists item. split.
      + apply list_elem_of_In, in_flat_map. by exists org.
      + apply item_title_spec. split; [done|]. split; [done|]. by exists el. }
  assert (∀ rid t, has_title (fold_left add_title (omap item_title items) ∅) rid t ↔
                   In (rid, t) (omap item_title items)) as Hfold.
  { intros rid t. rewrite fold_add_title_spec. split; [|by right].
    intros [(s & Hs & _) | H]; [by rewrite lookup_empty in Hs | done]. }
  split.
  - intros rid t. rewrite <- Hin. apply Hfold.
  - intros rid s Hs.
    assert (s ≠ ∅) as Hne.
    { apply (fold_add_title_nonempty (omap item_title items) ∅) with rid; [|done].
      intros ? ?. by rewrite lookup_empty. }
    split; [|done].
    apply set_choose_L in Hne as [t Ht].
    assert (has_title (fold_left add_title (omap item_title items) ∅) rid t) as H
      by (by exists s).
    apply Hfold, Hin in H as (_ & _ & _ & _ & _ & _ & H & _). done.
Qed.

Section ForceFacts.

Lemma length_filter_in {A} (p : A → bool) (l : list A) (x : A) :
  In x l → p x = true → Nat.eqb (length (List.filter p l)) 0 = false.
Proof.
  intros Hin Hp.
  assert (In x (List.filter p l)) as H by (by apply filter_In).
  by destruct (List.filter p l).
Qed.

Lemma length_app_in {A} (l1 l2 : list A) :
  Nat.eqb (length l1) 0 = false → Nat.eqb (length (l1 ++ l2)) 0 = false.
Proof. by destruct l1. Qed.

(** A [file] entry of a Canvas assessment makes the answer true, when the
    function answers. *)
Lemma detect_canvas_qti_artifacts_file (root : Element) (extracted : Files)
    (f : Element) (force : bool) :
  In f (ET.findall_desc "file" root) →
  is_non_cc_qti (PyStr.or_empty (ET.get f "href")) = true ∨
  (PyStr.endswith (PyStr.or_empty (ET.get f "href")) "/assessment_qti.xml" = true ∧
   exists_file extracted (PyStr.or_empty (ET.get f "href")) = true) →
  detect_canvas_qti_artifacts root extracted = inr force → force = true.
Proof.
  intros Hf Hhit. unfold detect_canvas_qti_artifacts.
  destruct (dependency_reasons root (ET.findall_desc "dependency" root)) as [e|reasons2];
    [done|]. cbn [bind_exc]. intros [= <-].
  set (hrefs := map (λ f, PyStr.or_empty (ET.get f "href")) (ET.findall_desc "file" root)).
  assert (In (PyStr.or_empty (ET.get f "href")) hrefs) as Hin
    by (apply in_map_iff; by exists f).
  apply orb_true_iff. destruct Hhit as [Hq | [He Hx]].
  - left. apply negb_true_iff, length_app_in. by eapply length_filter_in.
  - right. apply negb_true_iff.
    rewrite !List.filter_app, !length_app.
    assert (Nat.eqb (length (List.filter (exists_file extracted)
              (List.filter (λ h, PyStr.endswith h "/assessment_qti.xml") hrefs))) 0 = false)
      as H.
    { eapply length_filter_in; [|exact Hx]. by apply filter_In. }
    apply Nat.eqb_neq in H. apply Nat.eqb_neq. lia.
Qed.

End ForceFacts.

(** X17. A manifest that lists a Canvas assessment file, that is a
    reference under [non_cc_assessments/] that ends with [.xml.qti], or a
    reference that ends with [/assessment_qti.xml] to a file of the
    package, is never passed through: [detect_canvas_qti_artifacts] does not
    answer false, and [process_cartridge] goes on to the conversion whatever
    the schema version is. *)
Theorem canvas_qti_file_forces_conversion (X : Externals) (input_zip : Archive)
    (output_dir : string) (fallback : bool) (exclude_kinds : gset string)
    (manifest_path : string) (tree0 f : Element) :
  locate_manifest X (members input_zip) = inr manifest_path →
  load_manifest X (members input_zip) manifest_path = inr tree0 →
  In f (ET.findall_desc "file" tree0) →
  is_non_cc_qti (PyStr.or_empty (ET.get f "href")) = true ∨
  (PyStr.endswith (PyStr.or_empty (ET.get f "href")) "/assessment_qti.xml" = true ∧
   exists_file (members input_zip) (PyStr.or_empty (ET.get f "href")) = true) →
  detect_canvas_qti_artifacts tree0 (members input_zip) ≠ inr false ∧
  process_cartridge X input_zip output_dir fallback exclude_kinds
  = (do _ <- detect_canvas_qti_artifacts tree0 (members input_zip);
     do pkg <- convert_until_verifier X manifest_path tree0 (members input_zip)
                 fallback exclude_kinds;
     do _ <- verify_markers pkg;
     convert_after_verifier X manifest_path input_zip output_dir pkg).
Proof.
  intros Hloc Hload Hf Hhit.
  pose proof (detect_canvas_qti_artifacts_file tree0 (members input_zip) f) as Hforce.
  split.
  - intros H. by specialize (Hforce false Hf Hhit H).
  - unfold process_cartridge. rewrite Hloc. cbn [bind_exc]. rewrite Hload. cbn [bind_exc].
    destruct (detect_canvas_qti_artifacts tree0 (members input_zip)) as [e|force] eqn:Ed;
      [done|].
    cbn [bind_exc]. rewrite (Hforce force Hf Hhit eq_refl). cbn [negb].
    by rewrite andb_false_r.
Qed.

Lemma canvas_qti_file_forces_conversion_witness :
  let X := sample_externals [canvas_manifest] in
  let input_zip :=
    mkArchive "course.imscc"
      {["imsmanifest.xml" := render canvas_manifest;
        "q1/assessment_qti.xml" := "<questestinterop></questestinterop>"]} in
  detect_canvas_qti_artifacts canvas_manifest (members input_zip) ≠ inr false ∧
  process_cartridge X input_zip "out" false ∅
  = (do _ <- detect_canvas_qti_artifacts canvas_manifest (members input_zip);
     do pkg <- convert_until_verifier X "imsmanifest.xml" canvas_manifest (members input_zip)
                 false ∅;
     do _ <- verify_markers pkg;
     convert_after_verifier X "imsmanifest.xml" input_zip "out" pkg).
Proof.
  apply (canvas_qti_file_forces_conversion (sample_externals [canvas_manifest])
           (mkArchive "course.imscc"
              {["imsmanifest.xml" := render canvas_manifest;
                "q1/assessment_qti.xml" := "<questestinterop></questestinterop>"]})
           "out" false ∅ "imsmanifest.xml" canvas_manifest
           (Elem "file" [("href", "q1/assessment_qti.xml")] None [])).
  - vm_compute. reflexivity.
  - vm_compute. reflexivity.
  - vm_compute. auto.
  - right. split; vm_compute; reflexivity.
Defined.

Section StandardItemFacts.

Lemma tf_item_with (a ta b tb : string) (refs : list string) :
  tf_item [(a, ta); (b, tb)] refs = item_with [qti_label a ta; qti_label b tb] refs.
Proof. reflexivity. Qed.

Lemma respconditions_standard (refs : list string) :
  List.filter (ET.matches "respcondition") (ET.iter (qti_resprocessing refs))
  = map (λ r, Elem "respcondition" [] None [Elem "conditionvar" [] None [answer_ref r]]) refs.
Proof.
  unfold qti_resprocessing. rewrite iter_unfold. cbn [List.filter].
  change (ET.matches "respcondition" (Elem "resprocessing" [] None _)) with false.
  unfold ET.descendants. cbn [ET.children].
  induction refs as [|r rest IH]; [done|].
  cbn [map flat_map]. rewrite List.filter_app, IH. reflexivity.
Qed.

Lemma varequals_standard (a ta b tb : string) (refs : list string) :
  varequals (item_with [qti_label a ta; qti_label b tb] refs) = map answer_ref refs.
Proof.
  unfold varequals, ET.findall_desc, ET.descendants, item_with. cbn [ET.children flat_map].
  rewrite app_nil_r, !List.filter_app, respconditions_standard.
  change (List.filter (ET.matches "respcondition") (ET.iter (qti_metadata _))) with (@nil Element).
  change (List.filter (ET.matches "respcondition") (ET.iter (Elem "presentation" _ _ _)))
    with (@nil Element).
  cbn [app]. induction refs as [|r rest IH]; [done|].
  cbn [map flat_map]. rewrite IH. reflexivity.
Qed.

Lemma with_varequals_resprocessing (f : Element → Element) (h : string → string)
    (refs : list string) :
  (∀ r, f (answer_ref r) = answer_ref (h r)) →
  ET.update_all (ET.matches "respcondition")
    (λ rc, ET.set_children rc
       (map (λ cv, if ET.matches "conditionvar" cv
                   then ET.set_children cv
                          (map (λ ve, if ET.matches "varequal" ve then f ve else ve)
                               (ET.children cv))
                   else cv)
            (ET.children rc)))
    (qti_resprocessing refs)
  = qti_resprocessing (map h refs).
Proof.
  intros Hf. unfold qti_resprocessing. cbn [ET.update_all]. f_equal.
  rewrite !map_map. apply map_ext. intros r. cbn.
  specialize (Hf r). unfold answer_ref in Hf. by rewrite Hf.
Qed.

Lemma with_varequals_standard (f : Element → Element) (h : string → string)
    (a ta b tb : string) (refs : list string) :
  (∀ r, f (answer_ref r) = answer_ref (h r)) →
  with_varequals f (item_with [qti_label a ta; qti_label b tb] refs)
  = item_with [qti_label a ta; qti_label b tb] (map h refs).
Proof.
  intros Hf. unfold with_varequals, item_with.
  rewrite <- (with_varequals_resprocessing f h refs Hf). reflexivity.
Qed.

Lemma drop_other_standard (a ta b tb : string) (refs : list string) :
  drop_other (item_with [qti_label a ta; qti_label b tb] refs)
  = item_with [qti_label a ta; qti_label b tb] refs.
Proof.
  unfold drop_other, item_with. cbn [ET.update_all map]. f_equal. f_equal. f_equal. f_equal.
  unfold qti_resprocessing. cbn [ET.update_all]. f_equal.
  rewrite !map_map. apply map_ext. intros r. reflexivity.
Qed.

Lemma is_bad_standard (a ta b tb : string) (refs : list string) :
  is_bad_tf_item (item_with [qti_label a ta; qti_label b tb] refs)
  = negb (is_tf_pair (PyStr.lower a) (PyStr.lower b)) ||
    existsb (λ r, negb (is_tf_word (PyStr.lower (PyStr.strip r)))) refs.
Proof.
  unfold is_bad_tf_item. rewrite varequals_standard.
  change (qtype (item_with [qti_label a ta; qti_label b tb] refs)) with "true_false_question".
  change (response_lid (item_with [qti_label a ta; qti_label b tb] refs))
    with (Some (Elem "response_lid" [("ident", "response1")] None
                  [qti_label a ta; qti_label b tb])).
  change (labels_of (item_with [qti_label a ta; qti_label b tb] refs))
    with [qti_label a ta; qti_label b tb].
  change (String.eqb "true_false_question" "true_false_question") with true.
  cbn [orb andb].
  change (ident_of (qti_label a ta)) with a. change (ident_of (qti_label b tb)) with b.
  f_equal. induction refs as [|r rest IH]; [done|]. cbn [map existsb]. by rewrite IH.
Qed.

End StandardItemFacts.

Section NormalizedItemFacts.

Lemma with_labels_idents (a ta b tb m1 m2 : string) (refs : list string) :
  with_labels (λ k l, if Nat.eqb k 0 then Some (ET.set l "ident" m1)
                      else if Nat.eqb k 1 then Some (ET.set l "ident" m2)
                      else Some l)
    (item_with [qti_label a ta; qti_label b tb] refs)
  = item_with [qti_label m1 ta; qti_label m2 tb] refs.
Proof. reflexivity. Qed.

Lemma with_labels_first_two (a ta b tb : string) (refs : list string) :
  with_labels (λ k l, if Nat.ltb k 2 then Some l else None)
    (item_with [qti_label a ta; qti_label b tb] refs)
  = item_with [qti_label a ta; qti_label b tb] refs.
Proof. reflexivity. Qed.

(** The item the part under [# now exactly two] leaves of an item of the
    usual layout with two choices. *)
Lemma normalize_item_standard (a ta b tb : string) (refs : list string) :
  let item := item_with [qti_label a ta; qti_label b tb] refs in
  let mapping :=
    answer_mapping a b (mattext_lower (qti_label a ta)) (mattext_lower (qti_label b tb))
      (correct_ident item) in
  let m1 := default "" (mapping !! a) in
  let m2 := default "" (mapping !! b) in
  let refs3 := map (λ r, retarget mapping (PyStr.strip r)) refs in
  (normalize_item item false).1
  = if is_tf_pair (PyStr.lower m1) (PyStr.lower m2)
    then item_with [qti_label m1 ta; qti_label m2 tb] refs3
    else item_with [qti_label "true" ta; qti_label "false" tb] (map forced_ref refs3).
Proof.
  intros item mapping m1 m2 refs3. unfold normalize_item. cbv beta iota zeta. cbn [fst].
  change (label_at 0 item) with (qti_label a ta).
  change (label_at 1 item) with (qti_label b tb).
  change (ident_of (qti_label a ta)) with a. change (ident_of (qti_label b tb)) with b.
  fold mapping. fold m1 m2. unfold item.
  rewrite with_labels_idents. unfold retarget_varequals.
  rewrite (with_varequals_standard _ (λ r, retarget mapping (PyStr.strip r)))
    by reflexivity.
  fold refs3. rewrite with_labels_first_two.
  change (label_at 0 (item_with [qti_label m1 ta; qti_label m2 tb] refs3))
    with (qti_label m1 ta).
  change (label_at 1 (item_with [qti_label m1 ta; qti_label m2 tb] refs3))
    with (qti_label m2 tb).
  change (ident_of (qti_label m1 ta)) with m1. change (ident_of (qti_label m2 tb)) with m2.
  destruct (is_tf_pair (PyStr.lower m1) (PyStr.lower m2)).
  - apply drop_other_standard.
  - rewrite with_labels_idents.
    rewrite (with_varequals_standard _ forced_ref) by reflexivity.
    apply drop_other_standard.
Qed.

Lemma with_labels_idents_swapped (a ta b tb m1 m2 : string) (refs : list string) :
  with_labels (λ k l, if Nat.eqb k 1 then Some (ET.set l "ident" m1)
                      else if Nat.eqb k 0 then Some (ET.set l "ident" m2)
                      else Some l)
    (item_with [qti_label a ta; qti_label b tb] refs)
  = item_with [qti_label m2 ta; qti_label m1 tb] refs.
Proof. reflexivity. Qed.

(** The same when [l1] is the second choice of the document. *)
Lemma normalize_item_swapped (a ta b tb : string) (refs : list string) :
  let item := item_with [qti_label a ta; qti_label b tb] refs in
  let mapping :=
    answer_mapping b a (mattext_lower (qti_label b tb)) (mattext_lower (qti_label a ta))
      (correct_ident item) in
  let m1 := default "" (mapping !! b) in
  let m2 := default "" (mapping !! a) in
  let refs3 := map (λ r, retarget mapping (PyStr.strip r)) refs in
  (normalize_item item true).1
  = if is_tf_pair (PyStr.lower m1) (PyStr.lower m2)
    then item_with [qti_label m2 ta; qti_label m1 tb] refs3
    else item_with [qti_label "false" ta; qti_label "true" tb] (map forced_ref refs3).
Proof.
  intros item mapping m1 m2 refs3. unfold normalize_item. cbv beta iota zeta. cbn [fst].
  change (label_at 0 item) with (qti_label a ta).
  change (label_at 1 item) with (qti_label b tb).
  change (ident_of (qti_label a ta)) with a. change (ident_of (qti_label b tb)) with b.
  fold mapping. fold m1 m2. unfold item.
  rewrite with_labels_idents_swapped. unfold retarget_varequals.
  rewrite (with_varequals_standard _ (λ r, retarget mapping (PyStr.strip r)))
    by reflexivity.
  fold refs3. rewrite with_labels_first_two.
  change (label_at 0 (item_with [qti_label m2 ta; qti_label m1 tb] refs3))
    with (qti_label m2 ta).
  change (label_at 1 (item_with [qti_label m2 ta; qti_label m1 tb] refs3))
    with (qti_label m1 tb).
  change (ident_of (qti_label m1 tb)) with m1. change (ident_of (qti_label m2 ta)) with m2.
  destruct (is_tf_pair (PyStr.lower m1) (PyStr.lower m2)).
  - apply drop_other_standard.
  - rewrite with_labels_idents_swapped.
    rewrite (with_varequals_standard _ forced_ref) by reflexivity.
    apply drop_other_standard.
Qed.

Lemma is_tf_pair_words (t1 t2 : string) :
  is_tf_pair t1 t2 = true →
  (t1 = "true" ∧ t2 = "false") ∨ (t1 = "false" ∧ t2 = "true").
Proof.
  unfold is_tf_pair. intros H. apply orb_prop in H as [H | H];
    apply andb_prop in H as [H1 H2];
    apply String.eqb_eq in H1; apply String.eqb_eq in H2; auto.
Qed.

(** The map step gives canonical words only. *)
Lemma answer_mapping_words (id1 id2 t1 t2 : string) (correct : option string)
    (k v : string) :
  answer_mapping id1 id2 t1 t2 correct !! k = Some v → v = "true" ∨ v = "false".
Proof.
  assert (∀ x y : string, x = "true" ∨ x = "false" → y = "true" ∨ y = "false" →
            ∀ k1 k2, (<[k2 := y]> (<[k1 := x]> ∅) : gmap string string) !! k = Some v →
                     v = "true" ∨ v = "false") as Hins.
  { intros x y Hx Hy k1 k2 H.
    apply lookup_insert_Some in H as [[_ <-] | [_ H]]; [done|].
    apply lookup_insert_Some in H as [[_ <-] | [_ H]]; [done|].
    by rewrite lookup_empty in H. }
  unfold answer_mapping.
  assert ((if is_tf_pair t1 t2
           then (<[id2 := t2]> (<[id1 := t1]> ∅) : gmap string string)
           else <[id2 := "false"]> (<[id1 := "true"]> ∅)) !! k = Some v →
          v = "true" ∨ v = "false") as Hrest.
  { destruct (is_tf_pair t1 t2) eqn:E.
    - apply is_tf_pair_words in E as [[-> ->] | [-> ->]]; apply Hins; auto.
    - apply Hins; auto. }
  destruct correct as [c|]; [|exact Hrest].
  destruct (String.eqb c id1 || String.eqb c id2); [|exact Hrest].
  apply Hins; auto.
Qed.

(** Both identifiers are keys of the map. *)
Lemma answer_mapping_defined (id1 id2 t1 t2 : string) (correct : option string) :
  is_Some (answer_mapping id1 id2 t1 t2 correct !! id1) ∧
  is_Some (answer_mapping id1 id2 t1 t2 correct !! id2).
Proof.
  assert (∀ x y : string,
            is_Some ((<[id2 := y]> (<[id1 := x]> ∅) : gmap string string) !! id1) ∧
            is_Some ((<[id2 := y]> (<[id1 := x]> ∅) : gmap string string) !! id2)) as Hins.
  { intros x y. split.
    - destruct (decide (id2 = id1)) as [-> | Hne].
      + rewrite lookup_insert_eq. eauto.
      + rewrite lookup_insert_ne, lookup_insert_eq by done. eauto.
    - rewrite lookup_insert_eq. eauto. }
  unfold answer_mapping.
  assert (is_Some ((if is_tf_pair t1 t2
                    then (<[id2 := t2]> (<[id1 := t1]> ∅) : gmap string string)
                    else <[id2 := "false"]> (<[id1 := "true"]> ∅)) !! id1) ∧
          is_Some ((if is_tf_pair t1 t2
                    then (<[id2 := t2]> (<[id1 := t1]> ∅) : gmap string string)
                    else <[id2 := "false"]> (<[id1 := "true"]> ∅)) !! id2)) as Hrest
    by (destruct (is_tf_pair t1 t2); apply Hins).
  destruct correct as [c|]; [|exact Hrest].
  destruct (String.eqb_spec c id1) as [-> | H1]; cbn [orb].
  - destruct (String.eqb_spec id1 id2) as [<- | H2].
    + rewrite lookup_insert_eq. eauto.
    + split.
      * rewrite lookup_insert_ne, lookup_insert_eq by done. eauto.
      * rewrite lookup_insert_eq. eauto.
  - destruct (String.eqb_spec c id2) as [-> | H2]; [|exact Hrest].
    split.
    + rewrite lookup_insert_eq. eauto.
    + rewrite lookup_insert_ne, lookup_insert_eq by done. eauto.
Qed.

Lemma retarget_word (mapping : gmap string string) (val : string) :
  (∀ k v, mapping !! k = Some v → v = "true" ∨ v = "false") →
  retarget mapping val = "true" ∨ retarget mapping val = "false".
Proof.
  intros H. unfold retarget. destruct (mapping !! val) as [v|] eqn:E; [by eapply H|].
  unfold is_tf_word. destruct (String.eqb_spec (PyStr.lower val) "true") as [-> | _]; [auto|].
  cbn [orb]. destruct (String.eqb_spec (PyStr.lower val) "false") as [-> | _]; auto.
Qed.

(** What the normalization leaves of an item of the usual layout with two
    choices: the layout and the texts of the choices, identifiers that are
    the two canonical words, and answer-key references that are canonical
    words. *)
Lemma normalize_item_canonical (swapped : bool) (a ta b tb : string) (refs : list string) :
  ∃ i1 i2 refs',
    (normalize_item (item_with [qti_label a ta; qti_label b tb] refs) swapped).1
    = item_with [qti_label i1 ta; qti_label i2 tb] refs' ∧
    is_tf_pair i1 i2 = true ∧
    length refs' = length refs ∧
    Forall (λ r, is_tf_word r = true) refs'.
Proof.
  set (item := item_with [qti_label a ta; qti_label b tb] refs).
  assert (∀ mapping : gmap string string,
            (∀ k v, mapping !! k = Some v → v = "true" ∨ v = "false") →
            Forall (λ r, is_tf_word r = true)
                   (map (λ r, retarget mapping (PyStr.strip r)) refs)) as Hrefs.
  { intros mapping Hw. apply List.Forall_forall. intros r Hr.
    apply in_map_iff in Hr as (r0 & <- & _).
    destruct (retarget_word mapping (PyStr.strip r0) Hw) as [-> | ->]; done. }
  assert (∀ l : list string, Forall (λ r, is_tf_word r = true) (map forced_ref l))
    as Hforced.
  { intros l. apply List.Forall_forall. intros r Hr.
    apply in_map_iff in Hr as (r0 & <- & _).
    unfold forced_ref. by destruct (String.eqb _ "true"). }
  destruct swapped.
  - pose proof (normalize_item_swapped a ta b tb refs) as Hn. cbv zeta in Hn.
    fold item in Hn. rewrite Hn. clear Hn.
    set (mapping := answer_mapping b a (mattext_lower (qti_label b tb))
                      (mattext_lower (qti_label a ta)) (correct_ident item)).
    pose proof (answer_mapping_words b a (mattext_lower (qti_label b tb))
                  (mattext_lower (qti_label a ta)) (correct_ident item)) as Hw.
    destruct (answer_mapping_defined b a (mattext_lower (qti_label b tb))
                (mattext_lower (qti_label a ta)) (correct_ident item))
      as [[v1 H1] [v2 H2]].
    fold mapping in Hw, H1, H2. rewrite H1, H2. cbn [default from_option id].
    destruct (is_tf_pair (PyStr.lower v1) (PyStr.lower v2)) eqn:Ec.
    + exists v2, v1, (map (λ r, retarget mapping (PyStr.strip r)) refs).
      split; [done|]. split; [|split; [by rewrite length_map | by apply Hrefs]].
      destruct (Hw _ _ H1) as [-> | ->], (Hw _ _ H2) as [-> | ->]; done.
    + exists "false", "true",
        (map forced_ref (map (λ r, retarget mapping (PyStr.strip r)) refs)).
      split; [done|]. split; [done|]. split; [by rewrite !length_map | apply Hforced].
  - pose proof (normalize_item_standard a ta b tb refs) as Hn. cbv zeta in Hn.
    fold item in Hn. rewrite Hn. clear Hn.
    set (mapping := answer_mapping a b (mattext_lower (qti_label a ta))
                      (mattext_lower (qti_label b tb)) (correct_ident item)).
    pose proof (answer_mapping_words a b (mattext_lower (qti_label a ta))
                  (mattext_lower (qti_label b tb)) (correct_ident item)) as Hw.
    destruct (answer_mapping_defined a b (mattext_lower (qti_label a ta))
                (mattext_lower (qti_label b tb)) (correct_ident item))
      as [[v1 H1] [v2 H2]].
    fold mapping in Hw, H1, H2. rewrite H1, H2. cbn [default from_option id].
    destruct (is_tf_pair (PyStr.lower v1) (PyStr.lower v2)) eqn:Ec.
    + exists v1, v2, (map (λ r, retarget mapping (PyStr.strip r)) refs).
      split; [done|]. split; [|split; [by rewrite length_map | by apply Hrefs]].
      destruct (Hw _ _ H1) as [-> | ->], (Hw _ _ H2) as [-> | ->]; done.
    + exists "true", "false",
        (map forced_ref (map (λ r, retarget mapping (PyStr.strip r)) refs)).
      split; [done|]. split; [done|]. split; [by rewrite !length_map | apply Hforced].
Qed.

(** Such an item passes the check of step 12c. *)
Lemma canonical_item_passes (i1 ta i2 tb : string) (refs : list string) :
  is_tf_pair i1 i2 = true → Forall (λ r, is_tf_word r = true) refs →
  is_bad_tf_item (item_with [qti_label i1 ta; qti_label i2 tb] refs) = false.
Proof.
  intros Hp Hr. rewrite is_bad_standard. apply orb_false_iff. split.
  - apply negb_false_iff.
    apply is_tf_pair_words in Hp as [[-> ->] | [-> ->]]; reflexivity.
  - rewrite List.Forall_forall in Hr. apply not_true_is_false. intros He.
    apply existsb_exists in He as (r & Hin & Hbad).
    specialize (Hr r Hin). unfold is_tf_word in Hr.
    apply orb_prop in Hr as [Hr | Hr]; apply String.eqb_eq in Hr; subst r; discriminate Hbad.
Qed.

Lemma fix_item_two_choices (fallback : bool) (a ta b tb : string) (refs : list string)
    (st : ChangeLog * bool) :
  (fix_item fallback (tf_item [(a, ta); (b, tb)] refs) st).1
  = (normalize_item (item_with [qti_label a ta; qti_label b tb] refs) false).1.
Proof.
  unfold fix_item. destruct st as [log changed_any].
  change (is_tf (tf_item [(a, ta); (b, tb)] refs)) with true. cbn [negb].
  change (validate_shape fallback (tf_item [(a, ta); (b, tb)] refs))
    with (Normalize (item_with [qti_label a ta; qti_label b tb] refs) false false).
  cbv beta iota.
  by destruct (normalize_item (item_with [qti_label a ta; qti_label b tb] refs) false).
Qed.

Lemma normalized_item_passes_aux (fallback : bool) (a ta b tb : string)
    (refs : list string) (st : ChangeLog * bool) :
  is_bad_tf_item (fix_item fallback (tf_item [(a, ta); (b, tb)] refs) st).1 = false.
Proof.
  rewrite fix_item_two_choices.
  destruct (normalize_item_canonical false a ta b tb refs)
    as (i1 & i2 & refs' & -> & Hp & Hl & Hr).
  by apply canonical_item_passes.
Qed.

End NormalizedItemFacts.

(** X18. An item of the usual layout with two choices, whatever their
    identifiers and texts and whatever the answer-key references: the
    normalizer keeps the layout and the texts of the choices, leaves the two
    canonical words as identifiers and canonical words as references, as
    many as there were, and the item passes the check of step 12c. *)
Theorem normalized_item_passes_check (fallback : bool) (a ta b tb : string)
    (refs : list string) (st : ChangeLog * bool) :
  let item' := (fix_item fallback (tf_item [(a, ta); (b, tb)] refs) st).1 in
  (∃ i1 i2 refs',
     item' = tf_item [(i1, ta); (i2, tb)] refs' ∧
     is_tf_pair i1 i2 = true ∧
     length refs' = length refs ∧
     Forall (λ r, is_tf_word r = true) refs') ∧
  is_bad_tf_item item' = false.
Proof.
  cbn zeta.
  rewrite fix_item_two_choices.
  destruct (normalize_item_canonical false a ta b tb refs)
    as (i1 & i2 & refs' & -> & Hp & Hl & Hr).
  split.
  - exists i1, i2, refs'. by rewrite tf_item_with.
  - by apply canonical_item_passes.
Qed.

Section OutcomeFacts.

Lemma tf_item_choices (labels : list (string * string)) (refs : list string) :
  tf_item labels refs = item_with (choices labels) refs.
Proof. reflexivity. Qed.

Lemma labels_of_choices (labels : list (string * string)) (refs : list string) :
  labels_of (item_with (choices labels) refs) = choices labels.
Proof.
  change (labels_of (item_with (choices labels) refs))
    with (List.filter (ET.matches "response_label") (choices labels)).
  induction labels as [|l r IH]; [done|].
  change (choices (l :: r)) with (qti_label l.1 l.2 :: choices r).
  cbn [List.filter].
  assert (ET.matches "response_label" (qti_label l.1 l.2) = true) as -> by reflexivity.
  by rewrite IH.
Qed.

Lemma map_labels_choices (keep : nat → bool) (labels : list (string * string)) :
  ∀ i0, map_labels (λ k l, if keep k then Some l else None) i0 (choices labels)
        = select keep i0 (choices labels).
Proof.
  induction labels as [|l r IH]; intros i0; [done|].
  change (choices (l :: r)) with (qti_label l.1 l.2 :: choices r).
  cbn [map_labels select].
  assert (ET.matches "response_label" (qti_label l.1 l.2) = true) as -> by reflexivity.
  destruct (keep i0); by rewrite IH.
Qed.

(** The collapse leaves an item of the usual layout with two choices. *)
Lemma collapse_choices (labels : list (string * string)) (refs : list string) (i j : nat) :
  i ≠ j → i < length labels → j < length labels →
  ∃ a ta b tb,
    with_labels (λ k l, if Nat.eqb k i || Nat.eqb k j then Some l else None)
      (item_with (choices labels) refs)
    = item_with [qti_label a ta; qti_label b tb] refs.
Proof.
  intros Hne Hi Hj.
  change (with_labels (λ k l, if Nat.eqb k i || Nat.eqb k j then Some l else None)
            (item_with (choices labels) refs))
    with (item_with (map_labels (λ k l, if Nat.eqb k i || Nat.eqb k j then Some l else None)
                       0 (choices labels)) refs).
  rewrite (map_labels_choices (λ k, Nat.eqb k i || Nat.eqb k j)).
  assert (length (choices labels) = length labels) as Hlen by apply length_map.
  assert (∀ k, nth k (choices labels) (qti_label "" "")
               = qti_label (nth k labels ("", "")).1 (nth k labels ("", "")).2) as Hnth.
  { intros k. unfold choices.
    by rewrite <- (map_nth (λ l : string * string, qti_label l.1 l.2)). }
  destruct (Nat.lt_ge_cases i j) as [Hlt | Hge].
  - rewrite (select_two (qti_label "" "") i j) by lia. rewrite !Nat.sub_0_r, !Hnth.
    by eexists _, _, _, _.
  - rewrite (select_ext _ (λ k, Nat.eqb k j || Nat.eqb k i)) by (intros k; apply orb_comm).
    rewrite (select_two (qti_label "" "") j i) by lia. rewrite !Nat.sub_0_r, !Hnth.
    by eexists _, _, _, _.
Qed.

Lemma map_choices_fixed (F : Element → Element) (labels : list (string * string)) :
  (∀ i t, F (qti_label i t) = qti_label i t) → map F (choices labels) = choices labels.
Proof.
  intros H. unfold choices. rewrite map_map. apply map_ext. intros l. apply H.
Qed.

(** A pass of [ET.update_all] that changes neither a choice nor the answer
    key changes the metadata of an item of the usual layout only. *)
Lemma update_all_item (p : Element → bool) (g : Element → Element) (md : Element)
    (labels : list (string * string)) (refs : list string) :
  (∀ a b, ET.tag a = ET.tag b → p a = p b) →
  p (Elem "presentation" [] None []) = false →
  p (Elem "response_lid" [] None []) = false →
  p (Elem "resprocessing" [] None []) = false →
  (∀ i t, updated p g (qti_label i t) = qti_label i t) →
  (∀ r, updated p g (Elem "respcondition" [] None [Elem "conditionvar" [] None [answer_ref r]])
        = Elem "respcondition" [] None [Elem "conditionvar" [] None [answer_ref r]]) →
  ET.update_all p g
    (Elem "item" [("ident", "q1")] None
       [md;
        Elem "presentation" [] None
          [Elem "response_lid" [("ident", "response1")] None (choices labels)];
        qti_resprocessing refs])
  = Elem "item" [("ident", "q1")] None
      [updated p g md;
       Elem "presentation" [] None
         [Elem "response_lid" [("ident", "response1")] None (choices labels)];
       qti_resprocessing refs].
Proof.
  intros p_tag Hpres Hrl Hrp Hlabel Hrc.
  rewrite (update_all_unfold p g p_tag).
  cbn [ET.tag ET.attrib ET.text ET.children map]. f_equal. f_equal. f_equal; [|f_equal].
  - unfold updated at 1.
    rewrite (p_tag _ (Elem "presentation" [] None [])), Hpres by reflexivity.
    rewrite (update_all_unfold p g p_tag).
    cbn [ET.tag ET.attrib ET.text ET.children map]. f_equal. f_equal.
    unfold updated at 1.
    rewrite (p_tag _ (Elem "response_lid" [] None [])), Hrl by reflexivity.
    rewrite (update_all_unfold p g p_tag).
    cbn [ET.tag ET.attrib ET.text ET.children map]. f_equal.
    by apply map_choices_fixed.
  - unfold updated at 1, qti_resprocessing.
    rewrite (p_tag _ (Elem "resprocessing" [] None [])), Hrp by reflexivity.
    rewrite (update_all_unfold p g p_tag).
    cbn [ET.tag ET.attrib ET.text ET.children map]. f_equal.
    rewrite map_map. apply map_ext. intros r. apply Hrc.
Qed.

Lemma set_multiple_choice_choices (labels : list (string * string)) (refs : list string) :
  drop_other (set_multiple_choice (item_with (choices labels) refs))
  = mc_item (choices labels) refs.
Proof.
  unfold set_multiple_choice, item_with.
  rewrite update_all_item by (reflexivity || apply matches_shape).
  change (updated _ _ (qti_metadata "true_false_question"))
    with (qti_metadata "multiple_choice_question").
  unfold drop_other.
  rewrite update_all_item by (reflexivity || apply matches_shape).
  reflexivity.
Qed.

Lemma mc_item_passes (labels : list (string * string)) (refs : list string) :
  length labels ≠ 2 → is_bad_tf_item (mc_item (choices labels) refs) = false.
Proof.
  intros Hn. destruct labels as [|l0 [|l1 [|l2 r]]]; try reflexivity. done.
Qed.

End OutcomeFacts.

(** X19. For the items of the usual layout, with any number of choices: the
    item the normalizer leaves fails the check of step 12c exactly when the
    fallback is off and the item has fewer than two choices. *)
Theorem tf_item_check_outcome (fallback : bool) (labels : list (string * string))
    (refs : list string) (st : ChangeLog * bool) :
  is_bad_tf_item (fix_item fallback (tf_item labels refs) st).1
  = negb fallback && Nat.ltb (length labels) 2.
Proof.
  destruct st as [log changed_any].
  assert (length (labels_of (tf_item labels refs)) = length labels) as Hlen.
  { rewrite tf_item_choices, labels_of_choices. apply length_map. }
  assert (is_tf (tf_item labels refs) = true) as Htf by reflexivity.
  assert (response_lid (tf_item labels refs)
          = Some (Elem "response_lid" [("ident", "response1")] None (choices labels)))
    as Hrl by reflexivity.
  destruct (Nat.eq_dec (length labels) 2) as [E2 | N2].
  { (* two choices *)
    destruct labels as [|[a ta] [|[b tb] [|? ?]]]; try discriminate E2.
    rewrite andb_false_r.
    apply (normalized_item_passes_aux fallback a ta b tb refs (log, changed_any)). }
  unfold fix_item. rewrite Htf. cbn [negb]. unfold validate_shape. rewrite Hrl, Hlen.
  destruct (Nat.eqb_spec (length labels) 2) as [? | _]; [done|].
  destruct fallback; cbn [negb andb].
  - (* fallback *)
    cbn [fst]. rewrite tf_item_choices, set_multiple_choice_choices.
    by apply mc_item_passes.
  - destruct (Nat.ltb_spec 2 (length labels)) as [Hgt | Hle].
    + (* collapse *)
      destruct (keep_indices_spec (labels_of (tf_item labels refs))) as (Hne & Hi & Hj);
        [lia|].
      destruct (keep_indices (labels_of (tf_item labels refs))) as [i j].
      cbn [fst snd] in *. rewrite Hlen in Hi, Hj.
      destruct (collapse_choices labels refs i j Hne Hi Hj) as (a & ta & b & tb & Hc).
      rewrite tf_item_choices, Hc.
      destruct (normalize_item_canonical (Nat.ltb j i) a ta b tb refs)
        as (i1 & i2 & refs' & Hn & Hp & _ & Hr).
      destruct (normalize_item (item_with [qti_label a ta; qti_label b tb] refs)
                  (Nat.ltb j i)) as [item' changed].
      cbn [fst] in *. subst item'.
      destruct (Nat.ltb_spec (length labels) 2) as [? | _]; [lia|].
      by apply canonical_item_passes.
    + (* skipped *)
      cbn [fst]. destruct (Nat.ltb_spec (length labels) 2) as [_ | ?]; [|lia].
      apply short_item_bad; [done|]. right. lia.
Qed.

Section DetectionFacts.

(** The text of a choice, as the check of step 12c reads it, is
    [mattext_lower]. *)
Lemma mattext_lower_check (l : Element) :
  match ET.find_desc "mattext" l with
  | Some mt => PyStr.lower (text_stripped mt)
  | None => ""
  end = mattext_lower l.
Proof.
  unfold mattext_lower. destruct (ET.find_desc "mattext" l) as [mt|]; [|done].
  unfold text_stripped. by destruct (ET.text mt) as [[|c s]|].
Qed.

Lemma is_tf_pair_word (t1 t2 : string) : is_tf_pair t1 t2 = true → is_tf_word t1 = true.
Proof. intros H. by apply is_tf_pair_words in H as [[-> ->] | [-> ->]]. Qed.

Lemma is_bad_detected (item : Element) : is_bad_tf_item item = true → is_tf item = true.
Proof.
  unfold is_bad_tf_item, is_tf, looks_tf. intros H. apply andb_prop in H as [H _].
  destruct (String.eqb (qtype item) "true_false_question"); [done|]. cbn [orb] in *.
  destruct (response_lid item) as [rl|]; [|done].
  destruct (labels_of item) as [|l0 [|l1 [|l2 r]]]; try done.
  rewrite !mattext_lower_check in H. apply is_tf_pair_word in H. by rewrite H.
Qed.

End DetectionFacts.

(** X20. The check of step 12c only rejects what the normalizer detects: an
    item that fails it is a true/false candidate for
    [fix_qti_true_false_in_place], a file that fails it holds a detected
    item that fails it, and so does every file [assert_no_bad_tf_idents]
    names when it raises. *)
Theorem rejected_items_were_detected :
  (∀ item, is_bad_tf_item item = true → is_tf item = true) ∧
  (∀ root, has_bad_tf_idents root = true →
           ∃ item, In item (detected root) ∧ is_bad_tf_item item = true) ∧
  (∀ files offenders,
     assert_no_bad_tf_idents files = inl offenders →
     Forall (λ path, ∃ root item, In (path, root) files ∧ In item (detected root) ∧
                                  is_bad_tf_item item = true) offenders).
Proof.
  split; [exact is_bad_detected|].
  assert (∀ root, has_bad_tf_idents root = true →
                  ∃ item, In item (detected root) ∧ is_bad_tf_item item = true) as Hroot.
  { intros root H. unfold has_bad_tf_idents in H. apply andb_prop in H as [Hq H].
    apply existsb_exists in H as (item & Hin & Hbad). exists item. split; [|done].
    unfold detected. rewrite Hq. apply filter_In. split; [done|].
    by apply is_bad_detected. }
  split; [exact Hroot|].
  intros files offenders H. unfold assert_no_bad_tf_idents in H.
  destruct (List.filter (λ f, has_bad_tf_idents f.2) files) as [|f0 rest] eqn:E; [done|].
  injection H as <-. apply List.Forall_forall. intros path Hp.
  change (f0.1 :: map fst rest) with (map fst (f0 :: rest)) in Hp.
  apply in_map_iff in Hp as ([path' root] & <- & Hin). rewrite <- E in Hin.
  apply filter_In in Hin as [Hin Hbad]. cbn [fst snd] in *.
  destruct (Hroot root Hbad) as (item & Hi & Hb). by exists root, item.
Qed.

(** ** The namespaces of the manifest *)

Example normalize_default_ns_sample : normalize_default_ns v13_manifest = Some v11_manifest.
Proof. reflexivity. Qed.

Section TraverseFacts.
Context {A B : Type}.

Lemma traverse_some (f : A → option B) (l : list A) (l' : list B) :
  traverse f l = Some l' ↔ Forall2 (λ c c', f c = Some c') l l'.
Proof.
  revert l'. induction l as [|c r IH]; intros l'; cbn [traverse].
  - split; [intros [= <-]; constructor | by inversion 1].
  - destruct (f c) as [c'|] eqn:Ec.
    + destruct (traverse f r) as [r'|] eqn:Er.
      * split.
        -- intros [= <-]. constructor; [done|]. by apply IH.
        -- inversion 1 as [|? y ? ys Hc Hr]; subst. apply IH in Hr.
           injection Hr as <-. congruence.
      * split; [done|]. inversion 1 as [|? y ? ys Hc Hr]; subst.
        apply IH in Hr. done.
    + split; [done|]. inversion 1; congruence.
Qed.

Lemma traverse_none (f : A → option B) (l : list A) :
  traverse f l = None ↔ ∃ c, In c l ∧ f c = None.
Proof.
  induction l as [|c r IH]; cbn [traverse].
  - split; [done | by intros (? & [] & _)].
  - destruct (f c) as [c'|] eqn:Ec.
    + destruct (traverse f r) as [r'|] eqn:Er.
      * split; [done|]. intros (d & [<- | Hd] & Hn); [congruence|].
        assert (Some r' = None) as H by (apply IH; eauto). done.
      * split; [|done]. intros _. destruct (proj1 IH eq_refl) as (d & Hd & Hn).
        exists d. split; [by right | done].
    + split; [|done]. intros _. exists c. split; [by left | done].
Qed.

End TraverseFacts.

Lemma traverse_bind {A B C : Type} (f : A → option B) (g : B → option C)
    (h : A → option C) (l : list A) :
  (∀ c, In c l → f c ≫= g = h c) →
  traverse f l ≫= traverse g = traverse h l.
Proof.
  induction l as [|c r IH]; intros H; [done|]. cbn [traverse].
  pose proof (H c (or_introl eq_refl)) as Hc.
  assert (traverse f r ≫= traverse g = traverse h r) as Hr
    by (apply IH; intros d Hd; apply H; by right).
  destruct (f c) as [c1|]; cbn in Hc.
  - destruct (traverse f r) as [r1|]; cbn in Hr |- *.
    + rewrite Hc, Hr. done.
    + rewrite <- Hc, <- Hr. by destruct (g c1).
  - rewrite <- Hc. done.
Qed.

Section NamespaceFacts.

Lemma endswith_after_brace (r local name : string) :
  ET.after_first_brace r = Some local →
  PyStr.endswith r (String "}" name) =
  String.eqb local name || PyStr.endswith local (String "}" name).
Proof.
  induction r as [|a r IH]; [done|]. cbn [ET.after_first_brace].
  destruct (Ascii.eqb_spec a "}") as [-> | Ha].
  - intros [= ->]. cbn [PyStr.endswith String.eqb]. by rewrite Ascii.eqb_refl.
  - intros H. cbn [PyStr.endswith String.eqb].
    apply Ascii.eqb_neq in Ha. rewrite Ha. cbn [orb]. by apply IH.
Qed.

(** Whether a tag is matched by [{*}lom] is read off its local name. *)
Lemma matches_local (t ns local : string) a x cs a' x' cs' :
  split_tag t = Some (ns, local) →
  ET.matches "lom" (Elem t a x cs) = ET.matches "lom" (Elem local a' x' cs').
Proof.
  unfold split_tag, ET.matches. cbn [ET.tag]. destruct t as [|c r]; [by intros [= _ <-]|].
  destruct (Ascii.eqb_spec c "{") as [-> | Hc]; [|by intros [= _ <-]].
  destruct (ET.after_first_brace r) as [l|] eqn:El; [|done]. intros [= _ <-].
  cbn [String.eqb PyStr.endswith Ascii.eqb Bool.eqb]. cbn [orb].
  by apply endswith_after_brace.
Qed.

Lemma split_tag_lom (local : string) :
  split_tag (qualified LOM_MANIFEST_NS local) = Some (LOM_MANIFEST_NS, local).
Proof. reflexivity. Qed.

Lemma split_tag_imsp (local : string) :
  split_tag (qualified IMSP_V11 local) = Some (IMSP_V11, local).
Proof. reflexivity. Qed.

Lemma traverse_fixed {A : Type} (f : A → option A) (cs cs' : list A) :
  Forall (λ c, ∀ c', f c = Some c' → f c' = Some c') cs →
  Forall2 (λ c c', f c = Some c') cs cs' →
  traverse f cs' = Some cs'.
Proof.
  intros H H2. apply traverse_some. revert H.
  induction H2 as [|c c' r r' Hc Hr IH]; [constructor|].
  intros [Hx Hy]%Forall_cons. constructor; [by apply Hx | by apply IH].
Qed.

(** A [lom] element inside another one is retagged twice, to the same tags. *)
Lemma retag_lom_subtree_again (e e' : Element) :
  retag_lom_subtree e = Some e' → retag_lom_subtree e' = Some e'.
Proof.
  revert e'. induction e as [t a x cs IH] using ET.Element_tree_ind.
  intros e'. cbn [retag_lom_subtree].
  destruct (split_tag t) as [[ns local]|]; [|done].
  destruct (traverse retag_lom_subtree cs) as [cs'|] eqn:Ec; [|done].
  intros [= <-]. cbn [retag_lom_subtree]. rewrite split_tag_lom.
  erewrite traverse_fixed; [done | exact IH | by apply traverse_some].
Qed.

Lemma new_tag_split (here : bool) (t ns local : string) :
  split_tag t = Some (ns, local) →
  ∃ ns', split_tag (new_tag here t ns local) = Some (ns', local) ∧
         new_tag here (new_tag here t ns local) ns' local = new_tag here t ns local ∧
         (ns' = IMSP_V11 ∨ ns' = LOM_MANIFEST_NS ∨ ns' = LOM_RESOURCE_NS ∨
          ns' = ns ∧ is_imscp_ns ns = false) ∧
         (here = true → ns' = LOM_MANIFEST_NS).
Proof.
  intros Ht. unfold new_tag. destruct here.
  - exists LOM_MANIFEST_NS. rewrite split_tag_lom. repeat split; auto.
  - unfold imscp_tag. destruct (is_lom_ns ns) eqn:El.
    + exists ns. rewrite El. split; [done|]. split; [done|]. split; [|done].
      unfold is_lom_ns in El. apply orb_true_iff in El as [E | E];
        apply String.eqb_eq in E; auto.
    + destruct (is_imscp_ns ns) eqn:Ei.
      * exists IMSP_V11. rewrite split_tag_imsp. repeat split; auto; done.
      * exists ns. rewrite El, Ei. repeat split; auto; done.
Qed.

Lemma matches_new_tag (here : bool) (t ns local : string) a x cs cs' :
  split_tag t = Some (ns, local) →
  ET.matches "lom" (Elem (new_tag here t ns local) a x cs') =
  ET.matches "lom" (Elem t a x cs).
Proof.
  intros Ht. destruct (new_tag_split here t ns local Ht) as (ns' & Hs & _).
  rewrite (matches_local _ _ _ a x cs' a x cs Hs).
  symmetry. by apply matches_local with ns.
Qed.

Lemma retag_all_unfold (top inside : bool) t a x cs :
  retag_all top inside (Elem t a x cs) =
  let here := inside || (negb top && ET.matches "lom" (Elem t a x cs)) in
  match split_tag t with
  | Some (ns, local) =>
      option_map (Elem (new_tag here t ns local) a x) (traverse (retag_all false here) cs)
  | None => None
  end.
Proof. reflexivity. Qed.

(** In a [lom] subtree the second pass leaves what the first one made. *)
Lemma retag_lom_then_imscp (e : Element) :
  retag_lom_subtree e ≫= retag_imscp = retag_all false true e.
Proof.
  induction e as [t a x cs IH] using ET.Element_tree_ind.
  rewrite retag_all_unfold. cbn [retag_lom_subtree orb].
  destruct (split_tag t) as [[ns local]|]; [|done].
  rewrite <- (traverse_bind retag_lom_subtree retag_imscp (retag_all false true) cs); last first.
  { intros c Hc. rewrite Forall_forall in IH. apply IH. by apply list_elem_of_In. }
  destruct (traverse retag_lom_subtree cs) as [cs1|]; [|done].
  cbn [option_map mbind option_bind retag_imscp]. by rewrite split_tag_lom.
Qed.

Lemma retag_loms_then_imscp (e : Element) :
  retag_loms e ≫= retag_imscp = retag_all false false e.
Proof.
  induction e as [t a x cs IH] using ET.Element_tree_ind.
  cbn [retag_loms]. destruct (ET.matches "lom" (Elem t a x cs)) eqn:Em.
  - rewrite retag_lom_then_imscp, !retag_all_unfold. by rewrite Em.
  - rewrite retag_all_unfold, Em. cbn [orb negb andb].
    rewrite <- (traverse_bind retag_loms retag_imscp (retag_all false false) cs); last first.
    { intros c Hc. rewrite Forall_forall in IH. apply IH. by apply list_elem_of_In. }
    destruct (traverse retag_loms cs) as [cs1|]; cbn [option_map mbind option_bind].
    + cbn [retag_imscp]. by destruct (split_tag t) as [[ns local]|].
    + by destruct (split_tag t) as [[ns local]|].
Qed.

(** The two passes of [normalize_default_ns] are one pass over the tree. *)
Lemma normalize_default_ns_fused (root : Element) :
  normalize_default_ns root = retag_all true false root.
Proof.
  destruct root as [t a x cs]. unfold normalize_default_ns.
  rewrite retag_all_unfold. cbn [ET.children ET.set_children ET.tag ET.attrib ET.text orb negb andb].
  rewrite <- (traverse_bind retag_loms retag_imscp (retag_all false false) cs)
    by (intros c _; apply retag_loms_then_imscp).
  destruct (traverse retag_loms cs) as [cs1|]; cbn [option_map mbind option_bind].
  - cbn [retag_imscp ET.set_children ET.tag ET.attrib ET.text].
    by destruct (split_tag t) as [[ns local]|].
  - by destruct (split_tag t) as [[ns local]|].
Qed.

Lemma retag_all_some (top inside : bool) t a x cs e' :
  retag_all top inside (Elem t a x cs) = Some e' →
  ∃ ns local cs',
    split_tag t = Some (ns, local) ∧
    Forall2 (λ c c', retag_all false
               (inside || (negb top && ET.matches "lom" (Elem t a x cs))) c = Some c') cs cs' ∧
    e' = Elem (new_tag (inside || (negb top && ET.matches "lom" (Elem t a x cs))) t ns local)
              a x cs'.
Proof.
  rewrite retag_all_unfold. cbn zeta.
  destruct (split_tag t) as [[ns local]|]; [|done].
  destruct (traverse _ cs) as [cs'|] eqn:Ec; [|done]. intros [= <-].
  exists ns, local, cs'. split; [done|]. split; [|done]. by apply traverse_some.
Qed.

Lemma Forall2_flat_map_iter (R : Element → Element → Prop) (cs cs' : list Element) :
  Forall2 (λ c c', Forall2 R (ET.iter c) (ET.iter c')) cs cs' →
  Forall2 R (flat_map ET.iter cs) (flat_map ET.iter cs').
Proof.
  induction 1 as [|c c' r r' Hc Hr IH]; [constructor|].
  cbn [flat_map]. by apply Forall2_app.
Qed.

Lemma retag_all_iter (top inside : bool) (e e' : Element) :
  retag_all top inside e = Some e' → Forall2 retagged (ET.iter e) (ET.iter e').
Proof.
  revert top inside e'. induction e as [t a x cs IH] using ET.Element_tree_ind.
  intros top inside e' He. apply retag_all_some in He as (ns & local & cs' & Ht & Hcs & ->).
  cbn [ET.iter]. constructor.
  - destruct (new_tag_split (inside || negb top && ET.matches "lom" (Elem t a x cs))
                t ns local Ht) as (ns' & Hs & _ & Hn & _).
    split; [done|]. split; [done|]. split.
    { cbn [ET.children]. symmetry. by eapply Forall2_length. }
    exists ns, ns', local. cbn [ET.tag]. auto.
  - apply Forall2_flat_map_iter. clear Ht. revert IH.
    induction Hcs as [|c c' r r' Hc Hr IHr]; [constructor|].
    intros [IHc IHrest]%Forall_cons. constructor; [by eapply IHc | by apply IHr].
Qed.

Lemma retag_all_inside (top inside : bool) (e e' : Element) :
  inside || (negb top && ET.matches "lom" e) = true →
  retag_all top inside e = Some e' → Forall in_lom_ns (ET.iter e').
Proof.
  revert top inside e'. induction e as [t a x cs IH] using ET.Element_tree_ind.
  intros top inside e' Hh He. apply retag_all_some in He as (ns & local & cs' & Ht & Hcs & ->).
  rewrite Hh in Hcs |- *. cbn [ET.iter]. constructor.
  - unfold in_lom_ns. cbn [ET.tag new_tag]. by rewrite split_tag_lom.
  - clear Ht Hh. revert IH. induction Hcs as [|c c' r r' Hc Hr IHr]; [constructor|].
    intros [IHc IHrest]%Forall_cons. cbn [flat_map]. apply Forall_app. split.
    + by apply (IHc false true).
    + by apply IHr.
Qed.

Lemma retag_all_lom_subtrees (top inside : bool) (e e' : Element) :
  retag_all top inside e = Some e' →
  ∀ l, In l (if top then ET.descendants e' else ET.iter e') →
       ET.matches "lom" l = true → Forall in_lom_ns (ET.iter l).
Proof.
  revert top inside e'. induction e as [t a x cs IH] using ET.Element_tree_ind.
  intros top inside e' He l Hl Hm.
  pose proof He as He0.
  apply retag_all_some in He as (ns & local & cs' & Ht & Hcs & ->).
  assert (In l (ET.descendants (Elem (new_tag (inside || negb top && ET.matches "lom" (Elem t a x cs)) t ns local) a x cs')) →
          Forall in_lom_ns (ET.iter l)) as Hdesc.
  { unfold ET.descendants. cbn [ET.children]. clear He0 Hl Ht. revert IH.
    induction Hcs as [|c c' r r' Hc Hr IHr]; [done|].
    intros [IHc IHrest]%Forall_cons. cbn [flat_map]. intros [H | H]%in_app_or.
    - by apply (IHc false _ c' Hc l).
    - by apply IHr. }
  destruct top; [by apply Hdesc|].
  cbn [ET.iter] in Hl. destruct Hl as [<- | Hl]; [|by apply Hdesc].
  eapply retag_all_inside; [|exact He0].
  rewrite (matches_new_tag _ t ns local a x cs cs' Ht) in Hm. rewrite Hm.
  cbn [negb andb]. by rewrite orb_true_r.
Qed.

End NamespaceFacts.

(** X21. [normalize_default_ns] raises exactly when some element of the manifest has a
    tag that opens a brace which nothing closes. *)
Theorem normalize_default_ns_raises (root : Element) :
  normalize_default_ns root = None ↔
  ∃ d, In d (ET.iter root) ∧ split_tag (ET.tag d) = None.
Proof.
  rewrite normalize_default_ns_fused. generalize true, false.
  induction root as [t a x cs IH] using ET.Element_tree_ind.
  intros top inside. rewrite retag_all_unfold. cbn zeta. cbn [ET.iter].
  rewrite Forall_forall in IH.
  destruct (split_tag t) as [[ns local]|] eqn:Et.
  - destruct (traverse _ cs) as [cs'|] eqn:Ec; cbn [option_map].
    + split; [done|]. intros (d & [<- | Hd] & Hn); [cbn in Hn; congruence|].
      apply in_flat_map in Hd as (c & Hc & Hd).
      assert (Some cs' = None) as H; [|done]. rewrite <- Ec. apply traverse_none.
      exists c. split; [done|]. apply IH; [by apply list_elem_of_In | eauto].
    + split; [|done]. intros _. apply traverse_none in Ec as (c & Hc & Hn).
      apply IH in Hn as (d & Hd & Hn); [|by apply list_elem_of_In].
      exists d. split; [|done]. right. apply in_flat_map. eauto.
  - split; [|done]. intros _. exists (Elem t a x cs). split; [by left | done].
Qed.

(** X22. Where [normalize_default_ns] returns, the tree has the elements it had, in
    their order, each with its attributes, its text, the number of its children and
    its local name; each is in the IMSCP 1.1 namespace, in one of the two LOM
    namespaces, or in the namespace it was in, which then is not empty and holds none
    of the hints; and every [lom] element below the root has its whole subtree in the
    LOM manifest namespace. *)
Theorem normalize_default_ns_spec (root root' : Element) :
  normalize_default_ns root = Some root' →
  Forall2 retagged (ET.iter root) (ET.iter root') ∧
  ∀ l, In l (ET.findall_desc "lom" root') → Forall in_lom_ns (ET.iter l).
Proof.
  rewrite normalize_default_ns_fused. intros H. split.
  - by eapply retag_all_iter.
  - intros l [Hl Hm]%filter_In. by eapply (retag_all_lom_subtrees true false root root').
Qed.

Lemma normalize_default_ns_spec_witness :
  Forall2 retagged (ET.iter v13_manifest) (ET.iter v11_manifest) ∧
  ∀ l, In l (ET.findall_desc "lom" v11_manifest) → Forall in_lom_ns (ET.iter l).
Proof. apply (normalize_default_ns_spec v13_manifest v11_manifest). reflexivity. Defined.

(** X23. [normalize_default_ns] changes nothing in a tree it has made. *)
Theorem normalize_default_ns_idempotent (root root' : Element) :
  normalize_default_ns root = Some root' → normalize_default_ns root' = Some root'.
Proof.
  rewrite !normalize_default_ns_fused. generalize true, false. revert root'.
  induction root as [t a x cs IH] using ET.Element_tree_ind.
  intros e' top inside He. apply retag_all_some in He as (ns & local & cs' & Ht & Hcs & ->).
  set (here := inside || negb top && ET.matches "lom" (Elem t a x cs)) in *.
  destruct (new_tag_split here t ns local Ht) as (ns' & Hs & Hn & _).
  rewrite retag_all_unfold. cbn zeta.
  rewrite (matches_new_tag here t ns local a x cs cs' Ht). fold here.
  rewrite Hs, Hn. erewrite traverse_fixed; [done | | exact Hcs].
  eapply Forall_impl; [exact IH|]. intros c Hc c'. apply Hc.
Qed.

Lemma normalize_default_ns_idempotent_witness :
  normalize_default_ns v11_manifest = Some v11_manifest.
Proof. apply (normalize_default_ns_idempotent v13_manifest v11_manifest). reflexivity. Defined.

(** * The payload, the skipped items and the markers in the run *)

(** ** The payload of a percent-encoded reference *)

Section DecodedFacts.
Context (h d : string).
Hypothesis h_canonical : canonicalize_href h = h.
Hypothesis h_decoded : Url.unquote h = d.
Hypothesis d_not_canonical : canonicalize_href d ≠ d.

Lemma encoded_differs : h ≠ d.
Proof. intros E. apply d_not_canonical. by rewrite <- E. Qed.

(** No turn takes [d] for an encoded path. *)
Lemma not_encoded (x : string) : canonicalize_href x ≠ d.
Proof. by apply canonical_differs. Qed.

(** A turn whose decoded path is [d] is a turn of the reference [h]. *)
Lemma decoded_of (x : string) :
  Url.unquote (canonicalize_href x) = d → canonicalize_href x = h.
Proof.
  intros E. rewrite <- (canonicalize_href_idem x), <- h_canonical.
  unfold canonicalize_href at 1 3. by rewrite E, h_decoded.
Qed.

(** Before the turn of [h]: another turn leaves both paths as they are. *)
Lemma enforce_one_before (acc : Files * (nat * nat * nat)) (x : string) :
  canonicalize_href (PyStr.strip x) ≠ h →
  is_Some (acc.1 !! h) →
  (enforce_one acc x).1 !! h = acc.1 !! h ∧ (enforce_one acc x).1 !! d = acc.1 !! d.
Proof.
  intros Hx [c Hc]. destruct acc as [files [[moved removed] created]]. cbn [fst] in *.
  unfold enforce_one.
  pose proof (not_encoded (PyStr.strip x)) as Hne.
  pose proof (decoded_of (PyStr.strip x)) as Hdec.
  set (enc := canonicalize_href (PyStr.strip x)) in *.
  assert (Url.unquote enc ≠ d) as Hd by (intros E; by apply Hx, Hdec).
  destruct (files !! enc) as [content|] eqn:Henc;
    destruct (files !! Url.unquote enc) as [content'|] eqn:Hdec'; cbn [fst].
  - by rewrite !lookup_delete_ne.
  - assert (Url.unquote enc ≠ h) as Hh by (intros E; rewrite E in Hdec'; congruence).
    by rewrite !lookup_insert_ne, !lookup_delete_ne.
  - done.
  - assert (Url.unquote enc ≠ h) as Hh by (intros E; rewrite E in Hdec'; congruence).
    by rewrite !lookup_insert_ne.
Qed.

(** The turn of [h]: the file is at the decoded path afterwards. *)
Lemma enforce_one_moves (acc : Files * (nat * nat * nat)) (x : string) :
  canonicalize_href (PyStr.strip x) = h →
  is_Some (acc.1 !! h) →
  (enforce_one acc x).1 !! d = moved_payload h d acc.1.
Proof.
  intros Hx [c Hc]. destruct acc as [files [[moved removed] created]]. cbn [fst] in *.
  unfold enforce_one, moved_payload. rewrite Hx, h_decoded, Hc.
  destruct (files !! d) as [c'|] eqn:Ed; cbn [fst].
  - rewrite lookup_delete_ne by apply encoded_differs. done.
  - by rewrite lookup_insert_eq.
Qed.

(** After the turn of [h]: no turn touches the decoded path. *)
Lemma enforce_one_after (acc : Files * (nat * nat * nat)) (x : string) :
  is_Some (acc.1 !! d) → (enforce_one acc x).1 !! d = acc.1 !! d.
Proof.
  intros [c Hc]. destruct acc as [files [[moved removed] created]]. cbn [fst] in *.
  unfold enforce_one.
  pose proof (not_encoded (PyStr.strip x)) as Hne.
  set (enc := canonicalize_href (PyStr.strip x)) in *.
  destruct (files !! enc) as [content|] eqn:Henc;
    destruct (files !! Url.unquote enc) as [content'|] eqn:Hdec'; cbn [fst].
  - by rewrite lookup_delete_ne.
  - assert (Url.unquote enc ≠ d) as Hd by (intros E; rewrite E in Hdec'; congruence).
    by rewrite lookup_insert_ne, lookup_delete_ne.
  - done.
  - assert (Url.unquote enc ≠ d) as Hd by (intros E; rewrite E in Hdec'; congruence).
    by rewrite lookup_insert_ne.
Qed.

Lemma fold_enforce_after (hs : list string) (acc : Files * (nat * nat * nat)) :
  is_Some (acc.1 !! d) → (fold_left enforce_one hs acc).1 !! d = acc.1 !! d.
Proof.
  revert acc. induction hs as [|x r IH]; intros acc Hin; [done|].
  cbn [fold_left]. pose proof (enforce_one_after acc x Hin) as E.
  rewrite IH; [done|]. by rewrite E.
Qed.

Lemma moved_payload_some (files : Files) :
  is_Some (files !! h) → is_Some (moved_payload h d files).
Proof. unfold moved_payload. by destruct (files !! d). Qed.

(** The loop of [enforce_decoded_payload] over references one of which is
    [h]. *)
Lemma fold_enforce_moves (hs : list string) (acc : Files * (nat * nat * nat)) :
  (∃ x, In x hs ∧ canonicalize_href (PyStr.strip x) = h) →
  is_Some (acc.1 !! h) →
  (fold_left enforce_one hs acc).1 !! d = moved_payload h d acc.1.
Proof.
  revert acc. induction hs as [|x r IH]; intros acc (y & Hy & Ey) Hh; [done|].
  cbn [fold_left].
  destruct (decide (canonicalize_href (PyStr.strip x) = h)) as [Ex | Ex].
  - rewrite fold_enforce_after; rewrite (enforce_one_moves acc x Ex Hh);
      [done | by apply moved_payload_some].
  - destruct Hy as [-> | Hy]; [done|].
    destruct (enforce_one_before acc x Ex Hh) as [E1 E2].
    rewrite IH; [|by exists y|by rewrite E1].
    unfold moved_payload. by rewrite E1, E2.
Qed.

(** [dedupe_keep_decoded] leaves the decoded path alone, and removes the
    encoded twin that the walk lists. *)
Lemma dedupe_one_decoded (acc : Files * nat) (rel : string) :
  (dedupe_one acc rel).1 !! d = acc.1 !! d.
Proof.
  destruct acc as [files removed]. unfold dedupe_one.
  destruct (negb (exists_file files rel)); [done|].
  destruct (negb _ && _ && _); [|done]. cbn [fst].
  apply lookup_delete_ne, not_encoded.
Qed.

Lemma dedupe_one_absent (acc : Files * nat) (rel : string) :
  acc.1 !! h = None → (dedupe_one acc rel).1 !! h = None.
Proof.
  intros Hn. destruct acc as [files removed]. unfold dedupe_one. cbn [fst] in Hn.
  destruct (negb (exists_file files rel)); [done|].
  destruct (negb _ && _ && _); [|done]. cbn [fst].
  destruct (decide (canonicalize_href rel = h)) as [-> | Hne].
  - apply lookup_delete_eq.
  - by rewrite lookup_delete_ne.
Qed.

Lemma dedupe_one_twin (acc : Files * nat) :
  is_Some (acc.1 !! d) → (dedupe_one acc h).1 !! h = None.
Proof.
  intros Hd. destruct acc as [files removed]. unfold dedupe_one. cbn [fst] in Hd.
  unfold exists_file. case_bool_decide as Hh; cbn [negb]; [|by apply eq_None_not_Some].
  rewrite h_canonical, h_decoded.
  rewrite !bool_decide_eq_true_2 by done.
  destruct (String.eqb_spec h d) as [E | _]; [by destruct encoded_differs|].
  cbn [negb andb fst]. apply lookup_delete_eq.
Qed.

Lemma fold_dedupe_decoded (walk : list string) (acc : Files * nat) :
  (fold_left dedupe_one walk acc).1 !! d = acc.1 !! d.
Proof.
  revert acc. induction walk as [|rel r IH]; intros acc; [done|].
  cbn [fold_left]. by rewrite IH, dedupe_one_decoded.
Qed.

Lemma fold_dedupe_absent (walk : list string) (acc : Files * nat) :
  acc.1 !! h = None → (fold_left dedupe_one walk acc).1 !! h = None.
Proof.
  revert acc. induction walk as [|rel r IH]; intros acc Hn; [done|].
  cbn [fold_left]. by apply IH, dedupe_one_absent.
Qed.

Lemma fold_dedupe_twin (walk : list string) (acc : Files * nat) :
  is_Some (acc.1 !! d) →
  acc.1 !! h = None ∨ In h walk →
  (fold_left dedupe_one walk acc).1 !! h = None.
Proof.
  revert acc. induction walk as [|rel r IH]; intros acc Hd [Hn | Hin];
    [by apply fold_dedupe_absent | done | by apply fold_dedupe_absent |].
  cbn [fold_left]. destruct Hin as [-> | Hin].
  - by apply fold_dedupe_absent, dedupe_one_twin.
  - apply IH; [by rewrite dedupe_one_decoded | by right].
Qed.

End DecodedFacts.

Section RepairFacts.

(** What [normalize_resource_hrefs] leaves of a reference: its canonical
    form in the manifest, and a file at that path. *)
Lemma normalized_reference (root : Element) (files : Files) (res : Element) :
  In res (ET.findall_desc "resource" (normalize_resource_hrefs root files).1.1) →
  PyStr.nonempty (href_of res) = true →
  canonicalize_href (href_of res) = href_of res ∧
  is_Some ((normalize_resource_hrefs root files).1.2 !! href_of res).
Proof.
  unfold normalize_resource_hrefs.
  pose proof (fold_ensure_encoded (ET.findall_desc "resource" root) (files, 0)) as H.
  cbn zeta in H. unfold ensure_step in H.
  destruct (fold_left _ (ET.findall_desc "resource" root) (files, 0)) as [files' created].
  cbn [fst snd] in *. destruct H as (_ & _ & H3).
  intros Hres Hne. apply in_findall_desc in Hres as [Hres Hm].
  destruct (normalized_resources root res Hres Hm) as (y & d0 & Hd0 & Ha & ->).
  pose proof (align_resource_href y Hne) as Hy.
  destruct (align_resource_spec y Hy) as (-> & _ & _).
  split; [apply canonicalize_href_idem|].
  rewrite (href_of_attrib y d0 Ha) in Hy |- *.
  rewrite List.Forall_forall in H3. by apply H3.
Qed.

End RepairFacts.

(** C1, as the code has it. After [normalize_resource_hrefs],
    [enforce_decoded_payload] and [dedupe_keep_decoded], the manifest is the
    one [normalize_resource_hrefs] left, and the reference of every resource
    that has one is in canonical, percent-encoded form. When the
    percent-decoded form of the reference is not again in canonical form,
    the reference differs from it, no file is at the reference, and a file
    is at the decoded path: the one that was there after
    [normalize_resource_hrefs], else the one that was at the encoded path
    (unless the manifest itself is saved at that path). Nothing is stated of
    a reference whose decoded form is in canonical form, as is a reference
    that decodes to itself. *)
Theorem repaired_payload_at_decoded_path
    (X : Externals) (manifest_path : string) (root : Element) (files : Files) :
  walk_complete X →
  let n := normalize_resource_hrefs root files in
  let r := repair_payload X manifest_path root files in
  r.1 = n.1.1 ∧
  Forall (λ res,
            let h := href_of res in
            let d := Url.unquote h in
            PyStr.nonempty h = true →
            canonicalize_href h = h ∧
            (canonicalize_href d ≠ d →
               h ≠ d ∧ r.2 !! h = None ∧ is_Some (r.2 !! d) ∧
               (d ≠ manifest_path → r.2 !! d = moved_payload h d n.1.2)))
         (ET.findall_desc "resource" r.1).
Proof.
  intros Hwalk. cbn zeta. unfold repair_payload.
  pose proof (normalized_reference root files) as Hnorm.
  destruct (normalize_resource_hrefs root files) as [[root1 files1] [href_updates copies]].
  unfold enforce_decoded_payload.
  destruct (fold_left enforce_one (sorted_hrefs root1) (files1, (0, 0, 0)))
    as [files2 [[moved removed] created]] eqn:Hfold.
  cbn [fst snd] in *. split; [done|].
  apply List.Forall_forall. intros res Hres Hne.
  destruct (Hnorm res Hres Hne) as [Hcanon Hfile]. split; [done|]. intros Hd.
  set (h := href_of res) in *. set (d := Url.unquote h) in *.
  assert (files2 !! d = moved_payload h d files1) as H2.
  { change files2 with ((files2, (moved, removed, created)).1). rewrite <- Hfold.
    apply (fold_enforce_moves h d Hcanon eq_refl Hd); [|done].
    exists h. split.
    - apply in_sorted_hrefs. by apply in_referenced_hrefs.
    - unfold h. by rewrite strip_href_of. }
  pose proof (moved_payload_some h d files1 Hfile) as Hsome. rewrite <- H2 in Hsome.
  set (files3 := if Nat.eqb (href_updates + copies + moved + removed + created) 0
                 then files2 else save_manifest X manifest_path root1 files2).
  assert (is_Some (files3 !! d)) as H3.
  { unfold files3. destruct (Nat.eqb _ 0); [done|]. unfold save_manifest.
    destruct (decide (manifest_path = d)) as [-> | Hne'].
    - by rewrite lookup_insert_eq.
    - by rewrite lookup_insert_ne. }
  unfold dedupe_keep_decoded.
  split; [by apply (encoded_differs h d)|]. split; [|split].
  - apply (fold_dedupe_twin h d Hcanon eq_refl Hd); [done|].
    destruct (files3 !! h) as [c|] eqn:E; [|by left]. right. apply Hwalk. by rewrite E.
  - by rewrite (fold_dedupe_decoded d Hd).
  - intros Hmp. rewrite (fold_dedupe_decoded d Hd), <- H2. cbn [fst]. unfold files3.
    destruct (Nat.eqb _ 0); [done|]. unfold save_manifest. by rewrite lookup_insert_ne.
Qed.

Lemma sample_walk_complete (documents : list Element) :
  walk_complete (sample_externals documents).
Proof.
  intros files p Hp. cbn. unfold walk_by_path.
  apply list_elem_of_In, elem_of_elements, elem_of_dom. exact Hp.
Defined.

(** The package of one page whose reference is [a%20b.html]: the page ends
    at [a b.html], and nothing is at [a%20b.html]. *)
Lemma repaired_payload_at_decoded_path_witness :
  let root := manifest_with_resource "a%20b.html" in
  let files : Files := {["imsmanifest.xml" := render root; "a%20b.html" := "<p>page</p>"]} in
  let X := sample_externals [root] in
  let r := repair_payload X "imsmanifest.xml" root files in
  walk_complete X ∧
  canonicalize_href "a%20b.html" = "a%20b.html" ∧
  r.2 !! "a%20b.html" = None ∧
  r.2 !! "a b.html" = Some "<p>page</p>".
Proof.
  cbn zeta. split; [apply sample_walk_complete|].
  destruct (repaired_payload_at_decoded_path
              (sample_externals [manifest_with_resource "a%20b.html"]) "imsmanifest.xml"
              (manifest_with_resource "a%20b.html")
              {["imsmanifest.xml" := render (manifest_with_resource "a%20b.html");
                "a%20b.html" := "<p>page</p>"]}
              (sample_walk_complete _)) as [_ Hall].
  rewrite List.Forall_forall in Hall.
  destruct (Hall (Elem "resource"
                    [("identifier", "r1"); ("type", "webcontent"); ("href", "a%20b.html")]
                    None [Elem "file" [("href", "a%20b.html")] None []]))
    as [Hcanon Hpayload].
  - vm_compute. by left.
  - reflexivity.
  - destruct Hpayload as (_ & Hnone & _ & Hmoved).
    + vm_compute. discriminate.
    + split; [exact Hcanon|]. split; [exact Hnone|].
      refine (eq_trans (Hmoved _) _); [vm_compute; discriminate | by vm_compute].
Defined.

(** C1 fails as stated, in three ways. By design: the resource names
    [a%20b.html] and the payload is at that path; [enforce_decoded_payload]
    moves it to [a b.html], and the manifest that is packed still names
    [a%20b.html], where no file is. By the missing comparison of the two
    paths in the second case of [enforce_decoded_payload]: the payload of
    the plain reference [index.html] is deleted. And by design of
    [dedupe_keep_decoded]: the payload of [a%2520b.html] is moved to
    [a%20b.html], which is then removed as the encoded twin of the file
    [a b.html]. *)
Lemma encoded_reference_has_no_payload :
  (let root := manifest_with_resource "a%20b.html" in
   let r := repair_payload (sample_externals [root]) "imsmanifest.xml" root
              {["imsmanifest.xml" := render root; "a%20b.html" := "<p>page</p>"]} in
   map (λ res, ET.get res "href") (ET.findall_desc "resource" r.1) = [Some "a%20b.html"] ∧
   r.2 !! "a%20b.html" = None ∧
   r.2 !! "a b.html" = Some "<p>page</p>") ∧
  (let root := manifest_with_resource "index.html" in
   let r := repair_payload (sample_externals [root]) "imsmanifest.xml" root
              {["imsmanifest.xml" := render root; "index.html" := "<p>page</p>"]} in
   map (λ res, ET.get res "href") (ET.findall_desc "resource" r.1) = [Some "index.html"] ∧
   r.2 !! "index.html" = None) ∧
  (let root := manifest_with_resource "a%2520b.html" in
   let r := repair_payload (sample_externals [root]) "imsmanifest.xml" root
              {["imsmanifest.xml" := render root; "a%2520b.html" := "<p>page</p>";
                "a b.html" := "<p>other</p>"]} in
   map (λ res, ET.get res "href") (ET.findall_desc "resource" r.1) = [Some "a%2520b.html"] ∧
   r.2 !! "a%2520b.html" = None ∧
   r.2 !! "a%20b.html" = None).
Proof. vm_compute. done. Qed.

(** ** The items the normalizer skips, in the run *)

Section SkippedFacts.

(** The run up to the verifier is the run up to the check of step 12c, and
    that check. *)
Lemma convert_until_verifier_split (X : Externals) (manifest_path : string)
    (tree0 : Element) (tmp : Files) (fallback : bool) (exclude_kinds : gset string) :
  convert_until_verifier X manifest_path tree0 tmp fallback exclude_kinds
  = do state <- until_normalizer X manifest_path tree0 tmp fallback exclude_kinds;
    match assert_no_bad_tf_idents (parsed_payloads X state.1.2) with
    | inl offenders => inl (ValueError "Unfixed TF items remain" offenders)
    | inr _ => inr (mkPackage state.1.1 state.1.2 state.2)
    end.
Proof.
  unfold convert_until_verifier, until_normalizer.
  destruct (remove_unsupported X tree0 tmp) as [e|[tree1 removed_any]]; [done|].
  cbn [bind_exc].
  destruct (downgrade_manifest X manifest_path _ _) as [e|[tree4 tmp4]]; [done|].
  cbn [bind_exc].
  by destruct (normalize_true_false_qti X fallback tmp4 (mkLog 0 0 0)) as [tmp5 log5].
Qed.

(** A file that holds an item the check of step 12c refuses is among the
    offenders. *)
Lemma bad_item_offends (item : Element) (path : string) (root : Element)
    (files : list (string * Element)) :
  is_bad_tf_item item = true →
  is_questestinterop root = true →
  In item (ET.findall_desc "item" root) →
  In (path, root) files →
  ∃ offenders, assert_no_bad_tf_idents files = inl offenders ∧ In path offenders.
Proof.
  intros Hbad Hroot Hitem Hfile.
  assert (Hhas : has_bad_tf_idents root = true).
  { unfold has_bad_tf_idents. rewrite Hroot. cbn [andb].
    apply existsb_exists. by exists item. }
  assert (Hoff : In (path, root) (List.filter (λ f, has_bad_tf_idents f.2) files)).
  { apply filter_In. by split. }
  unfold assert_no_bad_tf_idents.
  destruct (List.filter _ files) as [|f fs] eqn:Hfilter; [done|].
  eexists. split; [reflexivity|].
  change path with ((path, root).1). by apply in_map.
Qed.

(** With more than two labels the shape test collapses the item. *)
Lemma validate_shape_collapse (item : Element) :
  2 < length (labels_of item) →
  validate_shape false item
  = Normalize (collapse (keep_indices (labels_of item)).1 (keep_indices (labels_of item)).2
                 item)
              (Nat.ltb (keep_indices (labels_of item)).2 (keep_indices (labels_of item)).1)
              true.
Proof.
  intros Hn. unfold validate_shape, collapse.
  destruct (response_lid item) as [rl|] eqn:Er.
  2: { unfold labels_of in Hn. rewrite Er in Hn. cbn in Hn. lia. }
  destruct (Nat.eqb_spec (length (labels_of item)) 2) as [E | _]; [lia|].
  destruct (Nat.ltb_spec 2 (length (labels_of item))) as [_ | E]; [|lia].
  by destruct (keep_indices (labels_of item)) as [i j].
Qed.

(** The labels of a collapsed item. *)
Lemma labels_of_collapse (item : Element) :
  2 < length (labels_of item) →
  let i := (keep_indices (labels_of item)).1 in
  let j := (keep_indices (labels_of item)).2 in
  labels_of (collapse i j item) = [label_at (Nat.min i j) item; label_at (Nat.max i j) item].
Proof.
  intros Hn. cbn zeta.
  destruct (keep_indices_spec (labels_of item) Hn) as (Hne & Hi & Hj).
  destruct (keep_indices (labels_of item)) as [i j]. cbn [fst snd] in *.
  unfold collapse. rewrite (labels_of_with_labels (λ k, Nat.eqb k i || Nat.eqb k j)).
  unfold label_at.
  destruct (Nat.lt_ge_cases i j) as [Hlt | Hge].
  - rewrite Nat.min_l, Nat.max_r by lia.
    rewrite (select_two (Elem "" [] None []) i j) by lia. by rewrite !Nat.sub_0_r.
  - rewrite Nat.min_r, Nat.max_l by lia.
    rewrite (select_ext _ (λ k, Nat.eqb k j || Nat.eqb k i))
      by (intros k; apply orb_comm).
    rewrite (select_two (Elem "" [] None []) j i) by lia. by rewrite !Nat.sub_0_r.
Qed.

End SkippedFacts.

(** C7, as the code has it. With the fallback disabled, a detected item
    without [response_lid] or with fewer than two labels is left as it is
    and raises [tf_skipped] by one; [assert_no_bad_tf_idents] then raises for
    every file that holds the item, and a run of [process_cartridge] that
    converts and has such a file in its payload at step 12c ends there, in
    the error that names the file. A detected item with more than two labels
    is not skipped: its labels are removed but two (the first that reads
    true and the first that reads false when both exist, else the first
    two), the item goes through the normalization of an item with two
    labels, and it raises [tf_fixed] by one. *)
Theorem skipped_item_unchanged_then_rejected (item : Element) (st : ChangeLog * bool) :
  is_tf item = true →
  (response_lid item = None ∨ length (labels_of item) < 2 →
     fix_item false item st
     = (item, (mkLog (tf_fixed st.1) (tf_mc_fallback st.1) (S (tf_skipped st.1)), st.2)) ∧
     (∀ path root files,
        is_questestinterop root = true →
        In item (ET.findall_desc "item" root) →
        In (path, root) files →
        ∃ offenders, assert_no_bad_tf_idents files = inl offenders ∧ In path offenders) ∧
     (∀ X input_zip output_dir exclude_kinds manifest_path tree0 force state path root,
        locate_manifest X (members input_zip) = inr manifest_path →
        load_manifest X (members input_zip) manifest_path = inr tree0 →
        detect_canvas_qti_artifacts tree0 (members input_zip) = inr force →
        is_cc_1_0_or_1_1 (manifest_cc_version tree0) && negb force = false →
        until_normalizer X manifest_path tree0 (members input_zip) false exclude_kinds
          = inr state →
        In (path, root) (parsed_payloads X state.1.2) →
        is_questestinterop root = true →
        In item (ET.findall_desc "item" root) →
        ∃ offenders,
          process_cartridge X input_zip output_dir false exclude_kinds
          = inl (ValueError "Unfixed TF items remain" offenders) ∧
          In path offenders)) ∧
  (2 < length (labels_of item) →
     let i := (keep_indices (labels_of item)).1 in
     let j := (keep_indices (labels_of item)).2 in
     labels_of (collapse i j item)
     = [label_at (Nat.min i j) item; label_at (Nat.max i j) item] ∧
     fix_item false item st
     = ((normalize_item (collapse i j item) (Nat.ltb j i)).1,
        (mkLog (S (tf_fixed st.1)) (tf_mc_fallback st.1) (tf_skipped st.1), true))).
Proof.
  intros Htf. destruct st as [log changed]. split.
  - intros Hshort. split; [|split].
    + unfold fix_item. rewrite Htf. cbn [negb].
      by rewrite (short_item_skipped item Hshort).
    + intros path root files. by apply bad_item_offends, short_item_bad.
    + intros X input_zip output_dir exclude_kinds manifest_path tree0 force state path root
        Hloc Hload Hdet Hgate Hstate Hfile Hroot Hitem.
      destruct (bad_item_offends item path root (parsed_payloads X state.1.2))
        as (offenders & Hraise & Hin); [by apply short_item_bad | done..|].
      exists offenders. split; [|done]. unfold process_cartridge.
      rewrite Hloc. cbn [bind_exc]. rewrite Hload. cbn [bind_exc].
      rewrite Hdet. cbn [bind_exc]. rewrite Hgate.
      rewrite convert_until_verifier_split, Hstate. cbn [bind_exc]. by rewrite Hraise.
  - intros Hlen. cbn zeta. split; [by apply labels_of_collapse|].
    unfold fix_item. rewrite Htf. cbn [negb].
    rewrite (validate_shape_collapse item Hlen).
    destruct (normalize_item _ _) as [item' changed']. cbn [fst snd].
    by rewrite orb_true_r.
Qed.

Lemma skipped_item_unchanged_then_rejected_witness :
  let one := tf_item [("a", "True")] ["a"] in
  let three := tf_item [("a", "Yes"); ("b", "False"); ("c", "True")] ["a"] in
  let X := sample_externals [manifest_with_resource "quiz/assessment_qti.xml";
                             one_choice_quiz] in
  (is_tf one = true ∧ length (labels_of one) < 2 ∧
   fix_item false one (mkLog 0 0 0, false) = (one, (mkLog 0 0 1, false)) ∧
   ∃ offenders,
     process_cartridge X quiz_archive "out" false ∅
     = inl (ValueError "Unfixed TF items remain" offenders) ∧
     In "quiz/assessment_qti.xml" offenders) ∧
  (is_tf three = true ∧ 2 < length (labels_of three) ∧
   labels_of (collapse 2 1 three) = [qti_label "b" "False"; qti_label "c" "True"] ∧
   fix_item false three (mkLog 0 0 0, false)
   = ((normalize_item (collapse 2 1 three) true).1, (mkLog 1 0 0, true))).
Proof.
  cbn zeta. split.
  - assert (Htf : is_tf (tf_item [("a", "True")] ["a"]) = true) by (by vm_compute).
    assert (Hlen : length (labels_of (tf_item [("a", "True")] ["a"])) < 2)
      by (vm_compute; lia).
    destruct (skipped_item_unchanged_then_rejected
                (tf_item [("a", "True")] ["a"]) (mkLog 0 0 0, false) Htf) as [Hskip _].
    destruct (Hskip (or_intror Hlen)) as (Hfix & _ & Hrun).
    split; [done|]. split; [done|]. split; [exact Hfix|].
    apply (Hrun (sample_externals [manifest_with_resource "quiz/assessment_qti.xml";
                                   one_choice_quiz])
             quiz_archive "out" ∅ "imsmanifest.xml"
             (manifest_with_resource "quiz/assessment_qti.xml") true
             (manifest_with_resource "quiz/assessment_qti.xml", members quiz_archive,
              mkLog 0 0 1)
             "quiz/assessment_qti.xml" one_choice_quiz).
    + vm_compute. reflexivity.
    + vm_compute. reflexivity.
    + vm_compute. reflexivity.
    + vm_compute. reflexivity.
    + vm_compute. reflexivity.
    + vm_compute. by left.
    + vm_compute. reflexivity.
    + vm_compute. by left.
  - assert (Htf : is_tf (tf_item [("a", "Yes"); ("b", "False"); ("c", "True")] ["a"]) = true)
      by (by vm_compute).
    assert (Hlen : 2 < length (labels_of
                                 (tf_item [("a", "Yes"); ("b", "False"); ("c", "True")] ["a"])))
      by (vm_compute; lia).
    destruct (skipped_item_unchanged_then_rejected
                (tf_item [("a", "Yes"); ("b", "False"); ("c", "True")] ["a"])
                (mkLog 0 0 0, false) Htf) as [_ Hlong].
    destruct (Hlong Hlen) as [Hlabels Hfix].
    split; [done|]. split; [done|]. split; [exact Hlabels | exact Hfix].
Defined.

(** C7 fails as stated, twice. A declared true/false item with three options
    is not left as it is with the fallback disabled: one label is removed
    and the item is counted as fixed. And an item that is skipped (here one
    with a single option) makes [assert_no_bad_tf_idents] raise, and the run
    of [process_cartridge] on a package that holds it fail. *)
Lemma three_options_are_collapsed_and_skip_is_fatal :
  let three := tf_item [("a", "Yes"); ("b", "No"); ("c", "Maybe")] ["a"] in
  let one := tf_item [("a", "True")] ["a"] in
  let st := (mkLog 0 0 0, false) in
  (is_tf three = true ∧ length (labels_of three) = 3 ∧
   (fix_item false three st).1 ≠ three ∧
   length (labels_of (fix_item false three st).1) = 2 ∧
   (fix_item false three st).2.1 = mkLog 1 0 0) ∧
  (is_tf one = true ∧
   fix_item false one st = (one, (mkLog 0 0 1, false)) ∧
   assert_no_bad_tf_idents
     [("quiz/assessment_qti.xml", Elem "questestinterop" [] None [(fix_item false one st).1])]
   = inl ["quiz/assessment_qti.xml"] ∧
   process_cartridge
     (sample_externals [manifest_with_resource "quiz/assessment_qti.xml"; one_choice_quiz])
     quiz_archive "out" false ∅
   = inl (ValueError "Unfixed TF items remain" ["quiz/assessment_qti.xml"])).
Proof.
  cbn zeta. split; repeat split; try (vm_compute; reflexivity).
  vm_compute. intros H. discriminate H.
Qed.

(** ** The marker verifier in the run *)

(** C8, as the code has it. [assert_no_v13_v12_uris] raises exactly when one
    of the three markers occurs in the text. A run of [process_cartridge]
    that returns has either taken the pass-through of step 2b, where the
    verifier is not called and the input is returned as it is, or has gone
    through the conversion, and then the text of [imsmanifest.xml] that step
    13B read held no marker. A run that converts and reads a manifest with a
    marker at step 13B raises there, and writes nothing. The manifest that
    is packed is saved again by the steps after the verifier; nothing is
    stated of its text. *)
Theorem marker_verifier_guards_conversion (X : Externals) (input_zip : Archive)
    (output_dir : string) (fallback : bool) (exclude_kinds : gset string) :
  (∀ text,
     (∃ bad, assert_no_v13_v12_uris text
             = inl (ValueError "Leftover v1p3/v1p2 markers found" bad))
     ↔ (∃ m, In m forbidden_markers ∧ PyStr.contains text m = true)) ∧
  (∀ out,
     process_cartridge X input_zip output_dir fallback exclude_kinds = inr out →
     ∃ manifest_path tree0 force,
       locate_manifest X (members input_zip) = inr manifest_path ∧
       load_manifest X (members input_zip) manifest_path = inr tree0 ∧
       detect_canvas_qti_artifacts tree0 (members input_zip) = inr force ∧
       if is_cc_1_0_or_1_1 (manifest_cc_version tree0) && negb force
       then out = mkOutput output_dir input_zip
       else
         ∃ pkg manifest_text,
           convert_until_verifier X manifest_path tree0 (members input_zip)
             fallback exclude_kinds = inr pkg ∧
           files pkg !! "imsmanifest.xml" = Some manifest_text ∧
           (∀ m, In m forbidden_markers → PyStr.contains manifest_text m = false) ∧
           convert_after_verifier X manifest_path input_zip output_dir pkg = inr out) ∧
  (∀ manifest_path tree0 force pkg manifest_text m,
     locate_manifest X (members input_zip) = inr manifest_path →
     load_manifest X (members input_zip) manifest_path = inr tree0 →
     detect_canvas_qti_artifacts tree0 (members input_zip) = inr force →
     is_cc_1_0_or_1_1 (manifest_cc_version tree0) && negb force = false →
     convert_until_verifier X manifest_path tree0 (members input_zip) fallback exclude_kinds
       = inr pkg →
     files pkg !! "imsmanifest.xml" = Some manifest_text →
     In m forbidden_markers → PyStr.contains manifest_text m = true →
     ∃ bad, process_cartridge X input_zip output_dir fallback exclude_kinds
            = inl (ValueError "Leftover v1p3/v1p2 markers found" bad)).
Proof.
  split; [apply assert_no_v13_v12_uris_spec|]. split.
  - intros out. unfold process_cartridge.
    destruct (locate_manifest X (members input_zip)) as [e|manifest_path] eqn:Hloc;
      [done|].
    cbn [bind_exc].
    destruct (load_manifest X (members input_zip) manifest_path) as [e|tree0] eqn:Hload;
      [done|].
    cbn [bind_exc].
    destruct (detect_canvas_qti_artifacts tree0 (members input_zip)) as [e|force] eqn:Hdet;
      [done|].
    cbn [bind_exc]. intros Hrun. exists manifest_path, tree0, force.
    split; [done|]. split; [done|]. split; [done|].
    destruct (is_cc_1_0_or_1_1 (manifest_cc_version tree0) && negb force); [congruence|].
    destruct (convert_until_verifier X manifest_path tree0 (members input_zip)
                fallback exclude_kinds) as [e|pkg] eqn:Hconv; [done|].
    cbn [bind_exc] in Hrun. unfold verify_markers in Hrun.
    destruct (files pkg !! "imsmanifest.xml") as [manifest_text|] eqn:Htext; [|done].
    destruct (assert_no_v13_v12_uris manifest_text) as [e|[]] eqn:Hassert; [done|].
    cbn [bind_exc] in Hrun. exists pkg, manifest_text.
    split; [done|]. split; [done|]. split; [|done].
    by apply assert_no_v13_v12_uris_ok.
  - intros manifest_path tree0 force pkg manifest_text m
      Hloc Hload Hdet Hgate Hconv Htext Hin Hc.
    unfold process_cartridge.
    rewrite Hloc. cbn [bind_exc]. rewrite Hload. cbn [bind_exc].
    rewrite Hdet. cbn [bind_exc]. rewrite Hgate, Hconv. cbn [bind_exc].
    unfold verify_markers. rewrite Htext.
    destruct (proj2 (assert_no_v13_v12_uris_spec manifest_text)) as [bad Hbad]; [eauto|].
    rewrite Hbad. cbn [bind_exc]. by exists bad.
Qed.

(** A Common Cartridge 1.2 package whose manifest names a file under a
    directory [ccv1p3] is rejected at step 13B. *)
Lemma marker_verifier_guards_conversion_witness :
  ∃ bad, process_cartridge (sample_externals [manifest_with_resource "ccv1p3/index.html"])
           cc12_archive "out" false ∅
         = inl (ValueError "Leftover v1p3/v1p2 markers found" bad).
Proof.
  destruct (marker_verifier_guards_conversion
              (sample_externals [manifest_with_resource "ccv1p3/index.html"])
              cc12_archive "out" false ∅) as (_ & _ & Hrejects).
  apply (Hrejects "imsmanifest.xml" (manifest_with_resource "ccv1p3/index.html") false
           (mkPackage (manifest_with_resource "ccv1p3/index.html") (members cc12_archive)
                      (mkLog 0 0 0))
           (render (manifest_with_resource "ccv1p3/index.html")) "ccv1p3").
  - by vm_compute.
  - by vm_compute.
  - by vm_compute.
  - by vm_compute.
  - by vm_compute.
  - by vm_compute.
  - right. right. by left.
  - by vm_compute.
Defined.

(** C8 fails as stated, twice. A Common Cartridge 1.1 package without
    assessment whose manifest names a file under a directory [ccv1p3] is
    returned as it is: the run succeeds and the manifest of the output holds
    the marker. And a run that converts can bring a marker into the manifest
    after the verifier: in [bare_manifest] the resource is not below a
    [resources] element, so that steps 6, 7, 11d and 11e return at once, and
    the other passes before the verifier find nothing to change; the
    verifier reads [ccv1p%33.pdf], and step 13E then writes the canonical
    form [ccv1p3.pdf] into the manifest that is packed. *)
Lemma pass_through_keeps_markers :
  (let X := sample_externals [cc11_manifest] in
   process_cartridge X cc11_archive "out" false ∅ = inr (mkOutput "out" cc11_archive) ∧
   ∃ manifest_text,
     members cc11_archive !! "imsmanifest.xml" = Some manifest_text ∧
     PyStr.contains manifest_text "ccv1p3" = true ∧
     (∃ bad, assert_no_v13_v12_uris manifest_text
             = inl (ValueError "Leftover v1p3/v1p2 markers found" bad))) ∧
  (let X := sample_externals [bare_manifest] in
   (prune_curriculum_standards bare_manifest).1 = bare_manifest ∧
   (patch_intended_use bare_manifest).1 = bare_manifest ∧
   (remove_assignment_extension_resources bare_manifest).1 = bare_manifest ∧
   (drop_cp_variants bare_manifest).1 = bare_manifest ∧
   normalize_default_ns bare_manifest = Some bare_manifest ∧
   (fix_qti_resource_hrefs bare_manifest).1 = bare_manifest ∧
   manifest_cc_version bare_manifest = None ∧
   assert_no_v13_v12_uris (render bare_manifest) = inr tt ∧
   ∃ out manifest_text,
     process_cartridge X bare_archive "out" false ∅ = inr out ∧
     members (out_archive out) !! "imsmanifest.xml" = Some manifest_text ∧
     PyStr.contains manifest_text "href='ccv1p3.pdf'" = true ∧
     (∃ bad, assert_no_v13_v12_uris manifest_text
             = inl (ValueError "Leftover v1p3/v1p2 markers found" bad))).
Proof.
  split.
  - cbn zeta. split.
    + apply (process_cartridge_pass_through _ _ _ _ _ "imsmanifest.xml" cc11_manifest);
        by vm_compute.
    + exists (render cc11_manifest). split; [by vm_compute|]. split; [by vm_compute|].
      eexists. by vm_compute.
  - cbn zeta. repeat (split; [by vm_compute|]).
    eexists _, _. split; [by vm_compute|]. split; [by vm_compute|].
    split; [by vm_compute|]. eexists. by vm_compute.
Qed.
